(** * Contract-Intelligence-Parser: the extraction and scoring pipeline

    A shallow embedding of [backend/app/utils/pdf_parser.py] together with
    the pydantic models of [backend/app/models.py], of the service of
    [backend/app/services/contract_service.py] and of the endpoints of
    [backend/app/main.py] that read it, and the properties of the pipeline
    stated over it.

    Conventions of the embedding.
    - A Python [str] is a [string]; its characters are the code points
      0..255 (Latin-1), which is the domain the character classes below are
      tabulated for.
    - A Python [int] is a [Z]; a Python [float] is a binary64 [float].
    - A function that may raise returns a [result]; the exception kind is
      kept.
    - A pydantic model is a record with the fields the model declares, and
      its keyword constructor is a function from the keyword list: a keyword
      that names no field (by alias or by name) is dropped, as pydantic's
      default [extra = 'ignore'] does.
    - A coroutine of the service is a function from the two collections to
      its result and the collections it leaves. *)

From Stdlib Require Import Bool Arith ZArith NArith List Lia.
From Stdlib Require Import Ascii String.
From Stdlib Require Import Floats.
From Stdlib Require Import DecimalString.
Import ListNotations.

Local Open Scope string_scope.
Local Open Scope list_scope.

(* ------------------------------------------------------------------ *)
(** * Exceptions *)

Module Py.

Inductive exn : Type :=
| ValueError
| OverflowError
| ZeroDivisionError
| ValidationError.

Inductive result (A : Type) : Type :=
| Ok (a : A)
| Raise (e : exn).

Arguments Ok {A} a.
Arguments Raise {A} e.

Definition bind {A B : Type} (m : result A) (f : A -> result B) : result B :=
  match m with
  | Ok a => f a
  | Raise e => Raise e
  end.

(** [for x in l: ...] where the body may raise: stops at the first raise. *)
Fixpoint mapM {A B : Type} (f : A -> result B) (l : list A) : result (list B) :=
  match l with
  | [] => Ok []
  | x :: l' =>
      bind (f x) (fun y => bind (mapM f l') (fun ys => Ok (y :: ys)))
  end.

(** The result with [f] applied to the value, when there is one. *)
Definition fmap {A B : Type} (f : A -> B) (m : result A) : result B :=
  match m with
  | Ok a => Ok (f a)
  | Raise e => Raise e
  end.

End Py.

Import Py.

Declare Scope py_scope.
Delimit Scope py_scope with py.
Notation "x <- m ;; k" := (bind m (fun x => k))
  (at level 61, m at next level, right associativity) : py_scope.
Local Open Scope py_scope.

(* ------------------------------------------------------------------ *)
(** * Characters and [str] methods *)

Module Str.

Definition code (c : ascii) : N := N_of_ascii c.

Definition between (lo hi c : ascii) : bool :=
  (code lo <=? code c)%N && (code c <=? code hi)%N.

Definition is_digit (c : ascii) : bool := between "0" "9" c.
Definition is_upper (c : ascii) : bool := between "A" "Z" c.
Definition is_lower (c : ascii) : bool := between "a" "z" c.
Definition is_alpha (c : ascii) : bool := is_upper c || is_lower c.

Definition code_in (l : list N) (c : ascii) : bool :=
  existsb (N.eqb (code c)) l.

(** [str.isspace] and the regex class [\s] on 0..255. *)
Definition is_space (c : ascii) : bool :=
  code_in [9; 10; 11; 12; 13; 28; 29; 30; 31; 32; 133; 160]%N c.

(** The regex class [\w] on 0..255: [str.isalnum] or the underscore. *)
Definition is_word (c : ascii) : bool :=
  is_digit c || is_alpha c || code_in [95; 170; 178; 179; 181; 185; 186; 188; 189; 190]%N c
  || ((192 <=? code c)%N && negb (code c =? 215)%N && negb (code c =? 247)%N).

(** Case folding of the ASCII letters, which is what [re.IGNORECASE]
    amounts to on 0..255 for the ASCII literals and ranges of the patterns. *)
Definition fold_case (c : ascii) : ascii :=
  if is_upper c then ascii_of_N (code c + 32) else c.

Definition swap_case (c : ascii) : ascii :=
  if is_upper c then ascii_of_N (code c + 32)
  else if is_lower c then ascii_of_N (code c - 32) else c.

(** [str.lower] on one character of 0..255. *)
Definition lower_char (c : ascii) : ascii :=
  if is_upper c || ((192 <=? code c)%N && (code c <=? 222)%N && negb (code c =? 215)%N)
  then ascii_of_N (code c + 32) else c.

Fixpoint map (f : ascii -> ascii) (s : string) : string :=
  match s with
  | EmptyString => EmptyString
  | String c s' => String (f c) (map f s')
  end.

Definition lower (s : string) : string := map lower_char s.

(** [s[:n]] *)
Fixpoint take (n : nat) (s : string) : string :=
  match n, s with
  | S n', String c s' => String c (take n' s')
  | _, _ => EmptyString
  end.

(** [s.startswith(p)] *)
Fixpoint startswith (p s : string) : bool :=
  match p, s with
  | EmptyString, _ => true
  | String a p', String b s' => Ascii.eqb a b && startswith p' s'
  | String _ _, EmptyString => false
  end.

(** [p in s] *)
Fixpoint contains (p s : string) : bool :=
  startswith p s ||
  match s with
  | EmptyString => false
  | String _ s' => contains p s'
  end.

(** [s.replace(a, b)] for a one-character [a]. *)
Fixpoint replace (a : ascii) (b : string) (s : string) : string :=
  match s with
  | EmptyString => EmptyString
  | String c s' => (if Ascii.eqb c a then b else String c EmptyString) ++ replace a b s'
  end.

Fixpoint lstrip (s : string) : string :=
  match s with
  | String c s' => if is_space c then lstrip s' else s
  | EmptyString => EmptyString
  end.

Fixpoint rstrip (s : string) : string :=
  match s with
  | EmptyString => EmptyString
  | String c s' =>
      match rstrip s' with
      | EmptyString => if is_space c then EmptyString else String c EmptyString
      | t => String c t
      end
  end.

(** [s.strip()] *)
Definition strip (s : string) : string := rstrip (lstrip s).

(** [sep.join(l)] *)
Fixpoint join (sep : string) (l : list string) : string :=
  match l with
  | [] => EmptyString
  | [x] => x
  | x :: l' => x ++ sep ++ join sep l'
  end.

(** [bool(s)] *)
Definition truthy (s : string) : bool :=
  match s with EmptyString => false | _ => true end.

(** [str(n)] for a length. *)
Definition of_nat (n : nat) : string := NilZero.string_of_uint (Nat.to_uint n).

End Str.

(* ------------------------------------------------------------------ *)
(** * The fragment of [re] the parser uses

    Every quantifier of the parser's patterns applies to a one-character
    atom, except one optional group, which is an alternation with the empty
    pattern.  Matching is backtracking, leftmost, greedy, with ordered
    alternation, as in [re]. *)

Module Re.

(** Members of a bracket class. *)
Inductive citem : Type :=
| C (c : ascii)            (* a character *)
| R (lo hi : ascii)        (* a range lo-hi *)
| Sp                       (* \s *)
| Wd                       (* \w *)
| Dg.                      (* \d *)

(** One-character atoms. *)
Inductive atom : Type :=
| Lit (c : ascii)                       (* a literal character *)
| Dot                                   (* . : anything but a newline *)
| Cls (neg : bool) (items : list citem) (* [...] and [^...] *).

Inductive regex : Type :=
| Eps
| One (a : atom)
| Rep (a : atom) (lo : nat) (hi : option nat)  (* a{lo,hi}, greedy *)
| Cat (r1 r2 : regex)
| Alt (r1 r2 : regex)
| Grp (i : nat) (r : regex)                    (* the i-th capturing group *)
| Bol                                          (* ^ *)
| Eol                                          (* $ *)
| WordB.                                       (* \b *)

Record flags : Type := { icase : bool; multiline : bool }.

Definition NOFLAGS := {| icase := false; multiline := false |}.
Definition IGNORECASE := {| icase := true; multiline := false |}.
Definition IGNORECASE_MULTILINE := {| icase := true; multiline := true |}.

Record pattern : Type := compile { p_flags : flags; p_re : regex }.

Definition item_ok (ic : bool) (c : ascii) (it : citem) : bool :=
  match it with
  | C x => if ic then Ascii.eqb (Str.fold_case c) (Str.fold_case x) else Ascii.eqb c x
  | R lo hi => Str.between lo hi c || (ic && Str.between lo hi (Str.swap_case c))
  | Sp => Str.is_space c
  | Wd => Str.is_word c
  | Dg => Str.is_digit c
  end.

Definition newline : ascii := ascii_of_N 10.

Definition atom_ok (fl : flags) (a : atom) (c : ascii) : bool :=
  match a with
  | Lit x => if icase fl then Ascii.eqb (Str.fold_case c) (Str.fold_case x) else Ascii.eqb c x
  | Dot => negb (Ascii.eqb c newline)
  | Cls neg items => xorb neg (existsb (item_ok (icase fl) c) items)
  end.

(** Captures: group number to captured text. *)
Definition caps : Type := list (nat * string).

Fixpoint group (i : nat) (cs : caps) : option string :=
  match cs with
  | [] => None
  | (j, s) :: cs' => if Nat.eqb i j then Some s else group i cs'
  end.

(** What [findall] and [m.group(i)] show for a group: the empty string
    when the group did not take part ([findall] only). *)
Definition group_str (i : nat) (cs : caps) : string :=
  match group i cs with Some s => s | None => EmptyString end.

(** The continuation gets the character before the position, the rest of
    the text and the captures. *)
Definition cont : Type := option ascii -> string -> caps -> option (string * caps).

Definition hi_open (hi : option nat) : bool :=
  match hi with Some O => false | _ => true end.

Fixpoint rep (ok : ascii -> bool) (lo : nat) (hi : option nat)
    (prev : option ascii) (s : string) (cs : caps) (k : cont) {struct s}
  : option (string * caps) :=
  let stop := match lo with O => k prev s cs | S _ => None end in
  match s with
  | String c s' =>
      if ok c && hi_open hi then
        match rep ok (pred lo) (option_map pred hi) (Some c) s' cs k with
        | Some r => Some r
        | None => stop
        end
      else stop
  | EmptyString => stop
  end.

Definition is_word_opt (c : option ascii) : bool :=
  match c with Some x => Str.is_word x | None => false end.

Definition head (s : string) : option ascii :=
  match s with String c _ => Some c | EmptyString => None end.

Definition at_bol (fl : flags) (prev : option ascii) : bool :=
  match prev with
  | None => true
  | Some c => multiline fl && Ascii.eqb c newline
  end.

Definition at_eol (fl : flags) (s : string) : bool :=
  match s with
  | EmptyString => true
  | String c s' =>
      Ascii.eqb c newline &&
      (multiline fl || match s' with EmptyString => true | _ => false end)
  end.

Fixpoint exec (fl : flags) (r : regex) (prev : option ascii) (s : string)
    (cs : caps) (k : cont) {struct r} : option (string * caps) :=
  match r with
  | Eps => k prev s cs
  | One a =>
      match s with
      | String c s' => if atom_ok fl a c then k (Some c) s' cs else None
      | EmptyString => None
      end
  | Rep a lo hi => rep (atom_ok fl a) lo hi prev s cs k
  | Cat r1 r2 => exec fl r1 prev s cs (fun p1 s1 cs1 => exec fl r2 p1 s1 cs1 k)
  | Alt r1 r2 =>
      match exec fl r1 prev s cs k with
      | Some x => Some x
      | None => exec fl r2 prev s cs k
      end
  | Grp i r1 =>
      exec fl r1 prev s cs
        (fun p1 s1 cs1 =>
           k p1 s1 ((i, Str.take (String.length s - String.length s1) s) :: cs1))
  | Bol => if at_bol fl prev then k prev s cs else None
  | Eol => if at_eol fl s then k prev s cs else None
  | WordB => if xorb (is_word_opt prev) (is_word_opt (head s)) then k prev s cs else None
  end.

(** A match starting at the current position: the matched text and the
    captures. *)
Definition match_here (p : pattern) (prev : option ascii) (s : string)
  : option (string * caps) :=
  match exec (p_flags p) (p_re p) prev s [] (fun _ s1 cs1 => Some (s1, cs1)) with
  | Some (s1, cs1) => Some (Str.take (String.length s - String.length s1) s, cs1)
  | None => None
  end.

(** All non-overlapping matches, left to right ([pattern.finditer]).  After
    a match of [n] characters the scan resumes [n] characters on ([skip]
    counts the characters still to pass over). *)
Fixpoint scan (p : pattern) (prev : option ascii) (s : string) (skip : nat)
  {struct s} : list (string * caps) :=
  match skip with
  | S n =>
      match s with
      | String c s' => scan p (Some c) s' n
      | EmptyString => []
      end
  | O =>
      match match_here p prev s with
      | Some (m, cs) =>
          (m, cs) ::
          match s with
          | String c s' => scan p (Some c) s' (pred (String.length m))
          | EmptyString => []
          end
      | None =>
          match s with
          | String c s' => scan p (Some c) s' 0
          | EmptyString => []
          end
      end
  end.

Definition finditer (p : pattern) (text : string) : list (string * caps) :=
  scan p None text 0.

(** [pattern.findall(text)] for a pattern without groups. *)
Definition findall0 (p : pattern) (text : string) : list string :=
  List.map fst (finditer p text).

(** [pattern.findall(text)] for a pattern with one group. *)
Definition findall (p : pattern) (text : string) : list string :=
  List.map (fun m => group_str 1 (snd m)) (finditer p text).

(** [pattern.findall(text)] for a pattern with two groups. *)
Definition findall2 (p : pattern) (text : string) : list (string * string) :=
  List.map (fun m => (group_str 1 (snd m), group_str 2 (snd m))) (finditer p text).

(** [pattern.findall(text)] for a pattern with three groups. *)
Definition findall3 (p : pattern) (text : string) : list (string * string * string) :=
  List.map (fun m => (group_str 1 (snd m), group_str 2 (snd m), group_str 3 (snd m)))
    (finditer p text).

(** [pattern.search(text)]: the leftmost match. *)
Fixpoint search_from (p : pattern) (prev : option ascii) (s : string)
  : option (string * caps) :=
  match match_here p prev s with
  | Some m => Some m
  | None =>
      match s with
      | String c s' => search_from p (Some c) s'
      | EmptyString => None
      end
  end.

Definition search (p : pattern) (text : string) : option (string * caps) :=
  search_from p None text.

(** [bool(pattern.search(text))] *)
Definition found (p : pattern) (text : string) : bool :=
  match search p text with Some _ => true | None => false end.

(** [pattern.sub(repl, text)] for a replacement without group references. *)
Fixpoint sub_from (p : pattern) (repl : string) (prev : option ascii) (s : string)
    (skip : nat) {struct s} : string :=
  match skip with
  | S n =>
      match s with
      | String c s' => sub_from p repl (Some c) s' n
      | EmptyString => EmptyString
      end
  | O =>
      match match_here p prev s with
      | Some (m, _) =>
          match String.length m, s with
          | O, String c s' => repl ++ String c (sub_from p repl (Some c) s' 0)
          | O, EmptyString => repl
          | S n, String c s' => repl ++ sub_from p repl (Some c) s' n
          | S _, EmptyString => repl
          end
      | None =>
          match s with
          | String c s' => String c (sub_from p repl (Some c) s' 0)
          | EmptyString => EmptyString
          end
      end
  end.

Definition sub (p : pattern) (repl : string) (text : string) : string :=
  sub_from p repl None text 0.

(** ** Pattern-building helpers, so that a pattern reads like its source *)

Fixpoint str (s : string) : regex :=
  match s with
  | EmptyString => Eps
  | String c EmptyString => One (Lit c)
  | String c s' => Cat (One (Lit c)) (str s')
  end.

Fixpoint seq (l : list regex) : regex :=
  match l with
  | [] => Eps
  | [r] => r
  | r :: l' => Cat r (seq l')
  end.

Fixpoint alts (l : list regex) : regex :=
  match l with
  | [] => Eps
  | [r] => r
  | r :: l' => Alt r (alts l')
  end.

(** [(?:w1|w2|...)] for literal words. *)
Definition words (l : list string) : regex := alts (List.map str l).

Definition star (a : atom) : regex := Rep a 0 None.
Definition plus (a : atom) : regex := Rep a 1 None.
Definition opt (a : atom) : regex := Rep a 0 (Some 1).
Definition times (a : atom) (n : nat) : regex := Rep a n (Some n).
Definition cls (items : list citem) : atom := Cls false items.
Definition ncls (items : list citem) : atom := Cls true items.

End Re.

(* ------------------------------------------------------------------ *)
(** * The pattern library *)

Module Patterns.
Import Re.

Definition nl : atom := Lit newline.
Definition sp : atom := cls [Sp].
Definition dg : atom := cls [Dg].
Definition d09 : atom := cls [R "0" "9"].

(** [(?:LLC|Inc|Corp|Corporation|Ltd|Limited|Company|Co\.|Partners)] *)
Definition suffix : regex :=
  words ["LLC"; "Inc"; "Corp"; "Corporation"; "Ltd"; "Limited"; "Company"; "Co."; "Partners"].

(** [[A-Za-z\s&]+(?:LLC|...)] *)
Definition company : regex :=
  Cat (plus (cls [R "A" "Z"; R "a" "z"; Sp; C "&"])) suffix.

(** [[A-Z][A-Za-z\s&,.-]{3,35}(?:LLC|...)] *)
Definition company_broad : regex :=
  seq [One (cls [R "A" "Z"]);
       Rep (cls [R "A" "Z"; R "a" "z"; Sp; C "&"; C ","; C "."; C "-"]) 3 (Some 35);
       suffix].

(** [[0-9,]+\.?[0-9]*] *)
Definition amount : regex :=
  seq [plus (cls [R "0" "9"; C ","]); opt (Lit "."); star d09].

(** [(?:\*\*Label:\*\*|Label:)\s*\n?(company)] *)
Definition labelled (label : string) : regex :=
  seq [Alt (str ("**" ++ label ++ ":**")) (str (label ++ ":"));
       star sp; opt nl; Grp 1 company].

Definition email_local : atom :=
  cls [R "A" "Z"; R "a" "z"; R "0" "9"; C "."; C "_"; C "%"; C "+"; C "-"].
Definition email_domain : atom :=
  cls [R "A" "Z"; R "a" "z"; R "0" "9"; C "."; C "-"].
Definition email_tld : atom := cls [R "A" "Z"; C "|"; R "a" "z"].

(** [[A-Za-z0-9._%+-]+@[A-Za-z0-9.-]+\.[A-Z|a-z]{2,}] *)
Definition email_addr : regex :=
  seq [plus email_local; One (Lit "@"); plus email_domain; One (Lit ".");
       Rep email_tld 2 None].

(** [\d+\s+[A-Za-z0-9\s,.-]+(?:Street|St|...|Pl)[\s,]*[A-Za-z\s,]*\d{5}] *)
Definition street_address : regex :=
  seq [plus dg; plus sp;
       plus (cls [R "A" "Z"; R "a" "z"; R "0" "9"; Sp; C ","; C "."; C "-"]);
       words ["Street"; "St"; "Avenue"; "Ave"; "Road"; "Rd"; "Drive"; "Dr"; "Lane";
              "Ln"; "Boulevard"; "Blvd"; "Way"; "Place"; "Pl"];
       star (cls [Sp; C ","]);
       star (cls [R "A" "Z"; R "a" "z"; Sp; C ","]);
       times dg 5].

(** [(?:Tax ID|EIN|Federal EIN):\s*(\d{2}-\d{7})] *)
Definition tax_id_re : regex :=
  seq [words ["Tax ID"; "EIN"; "Federal EIN"]; One (Lit ":"); star sp;
       Grp 1 (seq [times dg 2; One (Lit "-"); times dg 7])].

(** [PDFParser._initialize_patterns]: all compiled with [re.IGNORECASE]. *)
Definition company_name := compile IGNORECASE (Grp 1 company).
Definition consultant_company := compile IGNORECASE (labelled "Consultant").
Definition client_company := compile IGNORECASE (labelled "Client").
Definition service_provider := compile IGNORECASE (labelled "Service Provider").
Definition email :=
  compile IGNORECASE (seq [str "Email:"; star sp; Grp 1 email_addr]).
Definition phone :=
  compile IGNORECASE
    (seq [str "Phone:"; star sp;
          Grp 1 (seq [One (Lit "("); times d09 3; One (Lit ")"); star sp;
                      times d09 3; One (Lit "-"); times d09 4])]).
Definition address := compile IGNORECASE (Grp 1 street_address).
Definition tax_id := compile IGNORECASE tax_id_re.
Definition currency_amount := compile IGNORECASE (Cat (One (Lit "$")) (Grp 1 amount)).
Definition monthly_amount :=
  compile IGNORECASE
    (seq [str "Monthly"; star (ncls [C "$"]); One (Lit "$"); Grp 1 amount]).
Definition annual_amount :=
  compile IGNORECASE
    (seq [str "Annual"; star (ncls [C "$"]); One (Lit "$"); Grp 1 amount]).
Definition hourly_rate :=
  compile IGNORECASE
    (seq [str "Rate:"; star sp; One (Lit "$"); Grp 1 amount; str "/hour"]).
Definition fixed_fee :=
  compile IGNORECASE (seq [str "Fixed fee:"; star sp; One (Lit "$"); Grp 1 amount]).
Definition payment_terms :=
  compile IGNORECASE
    (seq [str "Net"; plus sp; Grp 1 (plus dg); plus sp; str "day"; opt (Lit "s")]).
Definition contract_term :=
  compile IGNORECASE
    (seq [words ["Term"; "Duration"; "Contract Period"]; One (Lit ":"); star sp;
          Grp 1 (plus dg); star sp; str "month"; opt (Lit "s")]).
Definition auto_renewal :=
  compile IGNORECASE
    (seq [Alt (str "Automatic")
              (seq [str "Auto"; opt (cls [C "-"; C " "]); str "renewal"]);
          One (Lit ":"); star sp; Grp 1 (plus dg); opt (cls [C "-"; C " "]);
          str "month"]).
Definition uptime :=
  compile IGNORECASE
    (seq [Grp 1 (seq [plus dg; opt (Lit "."); star dg; One (Lit "%")]); star sp;
          words ["uptime"; "availability"]]).
Definition response_time :=
  compile IGNORECASE
    (seq [Grp 1 (plus dg); star sp; str "hour"; opt (Lit "s"); star sp;
          words ["response"; "within"]]).
Definition account_number :=
  compile IGNORECASE
    (seq [words ["Account ID"; "Client Account"; "Agreement ID"]; One (Lit ":");
          star sp; Grp 1 (plus (cls [R "A" "Z"; R "0" "9"; C "-"]))]).
Definition contract_number :=
  compile IGNORECASE
    (seq [words ["Contract Number"; "Agreement ID"]; One (Lit ":");
          star sp; Grp 1 (plus (cls [R "A" "Z"; R "0" "9"; C "-"]))]).
Definition payment_method :=
  compile IGNORECASE
    (seq [Alt (str "Payment Method") (seq [str "Payment Option"; opt (Lit "s")]);
          One (Lit ":"); star sp; Grp 1 (plus (ncls [C "."; C newline]))]).

End Patterns.

(* ------------------------------------------------------------------ *)
(** * Numbers: [int], [float] and the conversions the parser applies *)

Module Num.

Local Open Scope Z_scope.

(** A Python number as the parser handles them: the fields declared
    [Optional[float]] are assigned without validation, so the [int] 0 the
    parser stores in them stays an [int]. *)
Inductive num : Type :=
| Int (z : Z)
| Float (f : float).

Definition digit_val (c : ascii) : Z := Z.of_N (Str.code c) - 48.

(** Reads the leading decimal digits of [s]: their value on top of [acc],
    how many there were, and the rest. *)
Fixpoint read_digits (acc : Z) (n : nat) (s : string) : Z * nat * string :=
  match s with
  | String c s' =>
      if Str.is_digit c then read_digits (10 * acc + digit_val c) (S n) s'
      else (acc, n, s)
  | EmptyString => (acc, n, s)
  end.

(** [sys.get_int_max_str_digits()]: the default limit on the number of
    digits of a string that [int] converts. *)
Definition int_max_str_digits : N := 4300.

(** [int(s)] for a string of decimal digits, which is what the groups
    [(\d+)] and [([0-9]+)] capture: the value, or [ValueError] for a string
    that is not one or more digits, or that has more digits than the limit
    (leading zeros count). *)
Definition py_int (s : string) : result Z :=
  match read_digits 0 0 s with
  | (_, O, _) => Raise ValueError
  | (z, S n, EmptyString) =>
      if (N.of_nat (S n) <=? int_max_str_digits)%N then Ok z else Raise ValueError
  | (_, S _, String _ _) => Raise ValueError
  end.

(** The binary64 value nearest to [z] (ties to even). *)
Definition float_of_Z (z : Z) : float :=
  SF2Prim (binary_normalize prec emax z 0 false).

(** The binary64 value nearest to [m / 10^k] (ties to even). *)
Definition float_of_decimal (m : Z) (k : nat) : float :=
  match m with
  | Zpos p =>
      SF2Prim (SFdiv prec emax (S754_finite false p 0)
                 (S754_finite false (Z.to_pos (10 ^ Z.of_nat k)) 0))
  | _ => 0%float
  end.

(** [float(s)] on the strings over the digits and the point, which is what
    is left of a capture of [[0-9,]+\.?[0-9]*] once its commas are removed:
    the correctly rounded value of the decimal when there is a digit,
    [ValueError] when there is none. *)
Definition py_float (s : string) : result float :=
  let finish (digits : nat) (m : Z) (k : nat) : result float :=
    match digits with
    | O => Raise ValueError
    | S _ => Ok (float_of_decimal m k)
    end in
  match read_digits 0 0 s with
  | (m, n, EmptyString) => finish n m O
  | (m, n, String c r) =>
      if Ascii.eqb c "." then
        match read_digits m 0 r with
        | (m', n', EmptyString) => finish (n + n')%nat m' n'
        | (_, _, String _ _) => Raise ValueError
        end
      else Raise ValueError
  end.

(** The first integer too large for a [float]: [2^1024 - 2^970], the
    midpoint between the largest finite value and [2^1024]. *)
Definition float_overflow : Z := 2 ^ 1024 - 2 ^ 970.

(** The conversion of an [int] operand of a [float] operation
    ([PyLong_AsDouble]): rounds to nearest, and raises [OverflowError] when
    the result would not be finite. *)
Definition int_to_float (z : Z) : result float :=
  if Z.abs z <? float_overflow then Ok (float_of_Z z) else Raise OverflowError.

(** [a / n] for a [float] [a] and an [int] [n]: the divisor is converted,
    and a zero divisor raises [ZeroDivisionError]. *)
Definition truediv (a : float) (n : Z) : result float :=
  b <- int_to_float n ;;
  if n =? 0 then Raise ZeroDivisionError else Ok (a / b)%float.

(** [x * n] for an [int] [n]. *)
Definition mul (x : num) (n : Z) : result num :=
  match x with
  | Int z => Ok (Int (z * n))
  | Float f => b <- int_to_float n ;; Ok (Float (f * b)%float)
  end.

(** [x > 0] *)
Definition gt0 (x : num) : bool :=
  match x with
  | Int z => 0 <? z
  | Float f => PrimFloat.ltb 0 f
  end.

(** [bool(f)] *)
Definition float_truthy (f : float) : bool := negb (PrimFloat.eqb f 0).

(** [bool(x)] *)
Definition truthy (x : num) : bool :=
  match x with
  | Int z => negb (z =? 0)
  | Float f => float_truthy f
  end.

(** [sum(d.values())] for a dict of floats: from the [int] 0, left to
    right.  (CPython 3.12 compensates the rounding errors of a sum of two
    or more floats; with at most one value the two agree.) *)
Definition sum (l : list float) : num :=
  match l with
  | [] => Int 0
  | f :: l' => Float (fold_left PrimFloat.add l' (0 + f)%float)
  end.

(** The conversions on a few values. *)
Example float_of_thousand : py_float "1000" = Ok 1000%float.
Proof. vm_compute. reflexivity. Qed.

Example float_of_tenth : py_float "0.1" = Ok 0x1.999999999999ap-4%float.
Proof. vm_compute. reflexivity. Qed.

Example float_of_point : py_float "." = Raise ValueError.
Proof. vm_compute. reflexivity. Qed.

Example float_of_nothing : py_float "" = Raise ValueError.
Proof. vm_compute. reflexivity. Qed.

Example largest_int_converted :
  int_to_float (float_overflow - 1) = Ok 0x1.fffffffffffffp+1023%float.
Proof. vm_compute. reflexivity. Qed.

Example first_int_refused : int_to_float float_overflow = Raise OverflowError.
Proof. vm_compute. reflexivity. Qed.

Example rounding_overflows_there :
  Prim2SF (float_of_Z float_overflow) = S754_infinity false.
Proof. vm_compute. reflexivity. Qed.

End Num.

(* ------------------------------------------------------------------ *)
(** * Dictionaries with string keys, in insertion order *)

Module Dict.

Definition t (V : Type) : Type := list (string * V).

Fixpoint get {V : Type} (k : string) (d : t V) : option V :=
  match d with
  | [] => None
  | (k', v) :: d' => if String.eqb k k' then Some v else get k d'
  end.

(** [d[k] = v] *)
Fixpoint set {V : Type} (k : string) (v : V) (d : t V) : t V :=
  match d with
  | [] => [(k, v)]
  | (k', v') :: d' =>
      if String.eqb k k' then (k', v) :: d' else (k', v') :: set k v d'
  end.

Definition values {V : Type} (d : t V) : list V := List.map snd d.

Definition keys {V : Type} (d : t V) : list string := List.map fst d.

End Dict.

(** [x if x else None] for a list or a dict. *)
Definition nonempty {A : Type} (l : list A) : option (list A) :=
  match l with [] => None | _ => Some l end.

(** [bool(x)] for an optional value whose own truth value is [t]. *)
Definition truthy_opt {A : Type} (t : A -> bool) (x : option A) : bool :=
  match x with Some a => t a | None => false end.

Definition truthy_list {A : Type} (l : list A) : bool :=
  match l with [] => false | _ => true end.

(** [bool(m)] for a pydantic model instance: a [BaseModel] defines neither
    [__bool__] nor [__len__]. *)
Definition truthy_model {A : Type} (_ : A) : bool := true.

(* ------------------------------------------------------------------ *)
(** * The pydantic models of [models.py] *)

(** Keyword arguments of a model constructor. *)
Definition kwargs (V : Type) : Type := list (string * V).

(** The value a field declared [Field(None, alias=alias)] under
    [populate_by_name = True] takes from the keywords: the one given under
    its alias, else the one given under its name, else the default. *)
Definition aliased_field {V : Type} (alias name : string) (kw : kwargs (option V))
  : option V :=
  match Dict.get alias kw with
  | Some v => v
  | None => match Dict.get name kw with Some v => v | None => None end
  end.

(** The value a field without alias takes from the keywords. *)
Definition field {V : Type} (name : string) (kw : kwargs (option V)) : option V :=
  match Dict.get name kw with Some v => v | None => None end.

Module PartyInfo.
Record t : Type := {
  name : option string;
  address : option string;
  phone : option string;
  email : option string;
  tax_id : option string;
  account_number : option string }.
Definition init (kw : kwargs (option string)) : t :=
  {| name := field "name" kw;
     address := field "address" kw;
     phone := field "phone" kw;
     email := field "email" kw;
     tax_id := field "tax_id" kw;
     account_number := field "account_number" kw |}.
End PartyInfo.

Module AuthorizedRepresentative.
Record t : Type := { name : option string; title : option string }.
End AuthorizedRepresentative.

Module AuthorizedRepresentatives.
Record t : Type := {
  service_provider : option AuthorizedRepresentative.t;
  customer : option AuthorizedRepresentative.t }.
End AuthorizedRepresentatives.

Module Parties.
Record t : Type := {
  service_provider : option PartyInfo.t;
  customer : option PartyInfo.t;
  authorized_representatives : option AuthorizedRepresentatives.t }.
End Parties.

Module BillingContact.
Record t : Type := {
  name : option string;
  title : option string;
  email : option string;
  phone : option string }.
Definition init (kw : kwargs (option string)) : t :=
  {| name := field "name" kw;
     title := field "title" kw;
     email := field "email" kw;
     phone := field "phone" kw |}.
End BillingContact.

Module AccountInfo.
Record t : Type := {
  account_number : option string;
  billing_contact : option BillingContact.t }.
End AccountInfo.

Module LineItem.
Record t : Type := {
  service : option string;
  quantity : option Z;
  unit : option string;
  unit_price : option float;
  monthly_total : option float }.
End LineItem.

Module FinancialDetails.
Record t : Type := {
  line_items : option (list LineItem.t);
  monthly_costs : option (Dict.t float);
  one_time_costs : option (Dict.t float);
  total_monthly : option Num.num;
  total_one_time : option Num.num;
  annual_contract_value : option Num.num;
  currency : option string }.
End FinancialDetails.

Module BankingInfo.
Record t : Type := {
  bank : option string;
  account : option string;
  routing : option string }.
Definition init (kw : kwargs (option string)) : t :=
  {| bank := field "bank" kw;
     account := field "account" kw;
     routing := field "routing" kw |}.
End BankingInfo.

Module PaymentStructure.
(** [late_payment_fee] is declared [Optional[float]]; the parser assigns it
    a [str], and assignment is not validated. *)
Inductive fee : Type :=
| FeeFloat (f : float)
| FeeStr (s : string).
Record t : Type := {
  payment_terms : option string;
  payment_schedule : option string;
  payment_due_date : option string;
  payment_method : option string;
  late_payment_terms : option string;
  late_payment_fee : option fee;
  banking_info : option BankingInfo.t }.
End PaymentStructure.

Module RevenueClassification.
Record t : Type := {
  type : option string;
  contract_term : option string;
  billing_cycle : option string;
  auto_renewal : option string;
  termination_notice : option string;
  pricing_adjustments : option string }.
End RevenueClassification.

Module ResponseTimes.
Record t : Type := {
  critical_issues : option string;
  high_priority : option string;
  medium_priority : option string;
  low_priority : option string }.
Definition init (kw : kwargs (option string)) : t :=
  {| critical_issues := aliased_field "Critical issues" "critical_issues" kw;
     high_priority := aliased_field "High priority" "high_priority" kw;
     medium_priority := aliased_field "Medium priority" "medium_priority" kw;
     low_priority := aliased_field "Low priority" "low_priority" kw |}.
End ResponseTimes.

Module PerformanceMetrics.
Record t : Type := {
  system_response_time : option string;
  backup_success_rate : option string;
  security_patch_deployment : option string }.
Definition init (kw : kwargs (option string)) : t :=
  {| system_response_time := aliased_field "System response time" "system_response_time" kw;
     backup_success_rate := aliased_field "Backup success rate" "backup_success_rate" kw;
     security_patch_deployment :=
       aliased_field "Security patch deployment" "security_patch_deployment" kw |}.
End PerformanceMetrics.

Module ServiceCredits.
Record t : Type := {
  availability_penalty : option string;
  response_time_penalty : option string;
  maximum_credits : option string }.
Definition init (kw : kwargs (option string)) : t :=
  {| availability_penalty := field "availability_penalty" kw;
     response_time_penalty := field "response_time_penalty" kw;
     maximum_credits := field "maximum_credits" kw |}.
End ServiceCredits.

Module SLATerms.
(** [service_credits] is declared [Optional[ServiceCredits]]; the parser
    assigns it a list of them, and assignment is not validated. *)
Inductive credits : Type :=
| Credit (c : ServiceCredits.t)
| CreditList (l : list ServiceCredits.t).
Record t : Type := {
  uptime_commitment : option string;
  response_times : option ResponseTimes.t;
  performance_metrics : option PerformanceMetrics.t;
  service_credits : option credits }.
End SLATerms.

Module GapAnalysis.
Record t : Type := {
  missing_fields : option (list string);
  incomplete_fields : option (list string);
  notes : option string }.
End GapAnalysis.

Module ExtractedData.
Record t : Type := {
  parties : option Parties.t;
  account_info : option AccountInfo.t;
  financial_details : option FinancialDetails.t;
  payment_structure : option PaymentStructure.t;
  revenue_classification : option RevenueClassification.t;
  sla_terms : option SLATerms.t }.

(** The values [parse_contract] passes to the constructor. *)
Inductive arg : Type :=
| OfParties (x : Parties.t)
| OfAccountInfo (x : AccountInfo.t)
| OfFinancialDetails (x : FinancialDetails.t)
| OfPaymentStructure (x : PaymentStructure.t)
| OfRevenueClassification (x : RevenueClassification.t)
| OfSLATerms (x : SLATerms.t)
| OfGapAnalysis (x : GapAnalysis.t).

(** The names of the declared fields ([ExtractedData.model_fields]). *)
Definition model_fields : list string :=
  ["parties"; "account_info"; "financial_details"; "payment_structure";
   "revenue_classification"; "sla_terms"].

(** Validation of one keyword against the field's declared model: an
    instance of that model is taken as it is, an instance of another one is
    refused, a keyword that is not given leaves the default [None]. *)
Definition validated {A : Type} (name : string) (get : arg -> option A)
    (kw : kwargs arg) : result (option A) :=
  match Dict.get name kw with
  | None => Ok None
  | Some a => match get a with Some x => Ok (Some x) | None => Raise ValidationError end
  end.

Definition init (kw : kwargs arg) : result t :=
  p <- validated "parties" (fun a => match a with OfParties x => Some x | _ => None end) kw ;;
  a <- validated "account_info"
         (fun a => match a with OfAccountInfo x => Some x | _ => None end) kw ;;
  f <- validated "financial_details"
         (fun a => match a with OfFinancialDetails x => Some x | _ => None end) kw ;;
  s <- validated "payment_structure"
         (fun a => match a with OfPaymentStructure x => Some x | _ => None end) kw ;;
  r <- validated "revenue_classification"
         (fun a => match a with OfRevenueClassification x => Some x | _ => None end) kw ;;
  l <- validated "sla_terms" (fun a => match a with OfSLATerms x => Some x | _ => None end) kw ;;
  Ok {| parties := p; account_info := a; financial_details := f;
        payment_structure := s; revenue_classification := r; sla_terms := l |}.

(** The instance as a mapping from field name to value ([dict(instance)]):
    the declared fields, in the order of their declaration. *)
Definition to_dict (d : t) : Dict.t (option arg) :=
  [("parties", option_map OfParties (parties d));
   ("account_info", option_map OfAccountInfo (account_info d));
   ("financial_details", option_map OfFinancialDetails (financial_details d));
   ("payment_structure", option_map OfPaymentStructure (payment_structure d));
   ("revenue_classification",
     option_map OfRevenueClassification (revenue_classification d));
   ("sla_terms", option_map OfSLATerms (sla_terms d))].
End ExtractedData.

(* ------------------------------------------------------------------ *)
(** * [class PDFParser] *)

Module PDFParser.
Import Re.

Definition first {A : Type} (l : list A) : option A :=
  match l with x :: _ => Some x | [] => None end.

Definition second {A : Type} (l : list A) : option A :=
  match l with _ :: x :: _ => Some x | _ => None end.

(** [re.sub(r'\s+', ' ', s.replace('\n', ' ')).strip()] *)
Definition collapse_spaces (s : string) : string :=
  Str.strip (sub (compile NOFLAGS (plus Patterns.sp)) " "
               (Str.replace newline " " s)).

(** ** [_extract_parties] *)

Definition emails_re : pattern :=
  compile NOFLAGS (seq [WordB; Patterns.email_addr; WordB]).

(** [\(?\d{3}\)?[-.\s]?\d{3}[-.\s]?\d{4}] *)
Definition phones_re : pattern :=
  let sep := cls [C "-"; C "."; Sp] in
  compile NOFLAGS
    (seq [opt (Lit "("); times Patterns.dg 3; opt (Lit ")"); opt sep;
          times Patterns.dg 3; opt sep; times Patterns.dg 4]).

Definition addresses_re : pattern := compile IGNORECASE Patterns.street_address.

Definition tax_ids_re : pattern := compile IGNORECASE Patterns.tax_id_re.

(** [(?:\s|$|\n|\.)] *)
Definition name_end : regex :=
  alts [One Patterns.sp; Eol; One Patterns.nl; One (Lit ".")].

(** [(?:^|\n|\.\s+)(company)(?:\s|$|\n|\.)], IGNORECASE | MULTILINE *)
Definition broad_company_pattern : pattern :=
  compile IGNORECASE_MULTILINE
    (seq [alts [Bol; One Patterns.nl; Cat (One (Lit ".")) (plus Patterns.sp)];
          Grp 1 Patterns.company_broad; name_end]).

Definition clean_company_name (name : string) : string :=
  let cleaned := collapse_spaces name in
  let cleaned :=
    sub (compile IGNORECASE
           (seq [Bol;
                 words ["Service Provider"; "liability"; "limited to"; "between";
                        "with"; "and"];
                 plus Patterns.sp]))
      "" cleaned in
  let cleaned :=
    sub (compile IGNORECASE
           (seq [plus Patterns.sp;
                 words ["liability"; "limited to"; "shall"; "will"; "may"];
                 star Dot; Eol]))
      "" cleaned in
  Str.strip cleaned.

Definition invalid_terms : list string :=
  ["vp of"; "vice president"; "manager"; "director"; "ceo"; "cfo"; "president of";
   "liability"; "shall"; "will"; "may"; "service provider"; "customer"; "client"].

Definition valid_company (company : string) : bool :=
  (5 <=? String.length company)%nat &&
  negb (existsb (fun term => Str.contains term (Str.lower company)) invalid_terms) &&
  negb (existsb (fun p => Str.startswith p (Str.lower company))
          ["the "; "this "; "such "; "any "]).

Definition customer_patterns : list pattern :=
  [compile IGNORECASE
     (seq [words ["Client"; "Customer"; "Purchaser"]; One (Lit ":"); star Patterns.sp;
           Grp 1 Patterns.company_broad]);
   compile IGNORECASE
     (seq [words ["Agreement between"; "Contract between"]; plus Patterns.sp;
           plus (ncls [C ","]); One (Lit ","); star Patterns.sp; str "and";
           plus Patterns.sp; Grp 1 Patterns.company_broad]);
   compile IGNORECASE
     (seq [words ["with"; "for"]; plus Patterns.sp; Grp 1 Patterns.company_broad;
           name_end])].

(** [x != service_provider_name], where the name may still be [None]. *)
Definition differs (x : string) (name : option string) : bool :=
  match name with
  | Some n => negb (String.eqb x n)
  | None => true
  end.

(** The loop over [customer_patterns]: the first pattern whose match passes
    the test gives the name. *)
Fixpoint customer_by_pattern (pats : list pattern) (text : string)
    (service_provider_name : option string) : option string :=
  match pats with
  | [] => None
  | p :: pats' =>
      match search p text with
      | Some (_, cs) =>
          let potential_customer := clean_company_name (group_str 1 cs) in
          if differs potential_customer service_provider_name &&
             (5 <=? String.length potential_customer)%nat &&
             negb (existsb (fun term => Str.contains term (Str.lower potential_customer))
                     ["service provider"; "liability"; "shall"; "will"])
          then Some potential_customer
          else customer_by_pattern pats' text service_provider_name
      | None => customer_by_pattern pats' text service_provider_name
      end
  end.

Section Parties.

(** [list(set(l))]: the distinct elements of [l] in the order the set
    iterates, which depends on the hashes of the strings. *)
Variable set_iteration : list string -> list string.

Definition valid_companies (text : string) : list string :=
  let company_matches := findall Patterns.company_name text in
  let broad_matches := findall broad_company_pattern text in
  let all_companies :=
    List.map clean_company_name (set_iteration (company_matches ++ broad_matches)) in
  List.filter valid_company all_companies.

Definition service_provider_name (text : string) : option string :=
  match search Patterns.consultant_company text with
  | Some (_, cs) => Some (clean_company_name (group_str 1 cs))
  | None =>
      match search Patterns.service_provider text with
      | Some (_, cs) => Some (clean_company_name (group_str 1 cs))
      | None => first (valid_companies text)
      end
  end.

Definition customer_name (text : string) : option string :=
  let customer_name :=
    match search Patterns.client_company text with
    | Some (_, cs) => Some (clean_company_name (group_str 1 cs))
    | None =>
        if (1 <? List.length (valid_companies text))%nat then
          List.find (fun company => differs company (service_provider_name text))
            (valid_companies text)
        else None
    end in
  if truthy_opt Str.truthy customer_name then customer_name
  else
    match customer_by_pattern customer_patterns text (service_provider_name text) with
    | Some c => Some c
    | None => customer_name
    end.

Definition _extract_parties (text : string) : Parties.t :=
  let emails := findall0 emails_re text in
  let phones := findall0 phones_re text in
  let addresses := findall0 addresses_re text in
  let tax_ids := findall tax_ids_re text in
  let service_provider_name := service_provider_name text in
  let customer_name := customer_name text in
  {| Parties.service_provider :=
       if truthy_opt Str.truthy service_provider_name then
         Some (PartyInfo.init
                 [("name", service_provider_name);
                  ("email", first emails);
                  ("phone", first phones);
                  ("address", option_map collapse_spaces (first addresses));
                  ("tax_id", first tax_ids)])
       else None;
     Parties.customer :=
       if truthy_opt Str.truthy customer_name then
         Some (PartyInfo.init
                 [("name", customer_name);
                  ("email", second emails);
                  ("phone", second phones);
                  ("address", option_map collapse_spaces (second addresses));
                  ("tax_id", second tax_ids)])
       else None;
     Parties.authorized_representatives := None |}.

End Parties.

(** ** [_extract_financial_details] *)

(** [float(x.replace(',', ''))] *)
Definition to_amount (x : string) : result float :=
  Num.py_float (Str.replace "," "" x).

Definition letters_spaces : atom := cls [R "A" "Z"; R "a" "z"; Sp].

(** [([A-Za-z\s]+(?:Consulting|...|Management))[\s\-:]*\$(amount)/?(hour|fixed|month)?] *)
Definition service_rate_pattern : pattern :=
  compile IGNORECASE
    (seq [Grp 1 (Cat (plus letters_spaces)
                   (words ["Consulting"; "Assessment"; "Training"; "Support";
                           "Service"; "Management"]));
          star (cls [Sp; C "-"; C ":"]); One (Lit "$"); Grp 2 Patterns.amount;
          opt (Lit "/"); Alt (Grp 3 (words ["hour"; "fixed"; "month"])) Eps]).

(** [([A-Za-z\s]+):\s*([0-9]+)\s*hours?\s*\(\$(amount)\)] *)
Definition hourly_pattern : pattern :=
  compile IGNORECASE
    (seq [Grp 1 (plus letters_spaces); One (Lit ":"); star Patterns.sp;
          Grp 2 (plus Patterns.d09); star Patterns.sp; str "hour"; opt (Lit "s");
          star Patterns.sp; One (Lit "("); One (Lit "$"); Grp 3 Patterns.amount;
          One (Lit ")")]).

Definition space_word : atom := cls [Sp; Wd].
Definition space_colon : atom := cls [Sp; C ":"].

(** [(?:Monthly|Per Month)[\s\w]*Total[\s:]*\$(amount)] *)
Definition monthly_pattern : pattern :=
  compile IGNORECASE
    (seq [words ["Monthly"; "Per Month"]; star space_word; str "Total";
          star space_colon; One (Lit "$"); Grp 1 Patterns.amount]).

(** [(?:Setup|Initial|Project)[\s\w]*Fee[\s:]*\$(amount)] *)
Definition setup_pattern : pattern :=
  compile IGNORECASE
    (seq [words ["Setup"; "Initial"; "Project"]; star space_word; str "Fee";
          star space_colon; One (Lit "$"); Grp 1 Patterns.amount]).

(** [(?:Annual|Yearly)[\s\w]*(?:Value|Total|Amount)[\s:]*\$(amount)] *)
Definition annual_pattern : pattern :=
  compile IGNORECASE
    (seq [words ["Annual"; "Yearly"]; star space_word;
          words ["Value"; "Total"; "Amount"]; star space_colon; One (Lit "$");
          Grp 1 Patterns.amount]).

(** The body of the loop over [service_matches] (lines 225-236). *)
Definition service_item (m : string * string * string) : result LineItem.t :=
  let '(service, rate, unit) := m in
  let service_name := collapse_spaces service in
  unit_price <- to_amount rate ;;
  let unit_type := if Str.truthy unit then Str.lower unit else "hour" in
  Ok {| LineItem.service := Some service_name;
        LineItem.unit_price := Some unit_price;
        LineItem.unit := Some unit_type;
        LineItem.quantity := Some 1%Z;
        LineItem.monthly_total :=
          if String.eqb unit_type "fixed" then Some unit_price else None |}.

(** The body of the loop over [hourly_matches] (lines 242-249).  The
    keywords are evaluated in the order they are written; [unit_price] is
    declared [Optional[float]], so the [int] 0 of the guard is stored as the
    float 0.0. *)
Definition hourly_item (m : string * string * string) : result LineItem.t :=
  let '(service, hours, total) := m in
  n <- Num.py_int hours ;;
  unit_price <-
    (if (0 <? n)%Z then
       t <- to_amount total ;; Num.truediv t n
     else Ok 0%float) ;;
  quantity <- Num.py_int hours ;;
  monthly_total <- to_amount total ;;
  Ok {| LineItem.service := Some (collapse_spaces service);
        LineItem.unit_price := Some unit_price;
        LineItem.unit := Some "hour";
        LineItem.quantity := Some quantity;
        LineItem.monthly_total := Some monthly_total |}.

(** [for item in line_items: if item.unit == "fixed": one_time_costs[item.service] = item.unit_price] *)
Definition add_fixed_fees (line_items : list LineItem.t) (costs : Dict.t float)
  : Dict.t float :=
  fold_left
    (fun d item =>
       match LineItem.unit item, LineItem.service item, LineItem.unit_price item with
       | Some u, Some service, Some price =>
           if String.eqb u "fixed" then Dict.set service price d else d
       | _, _, _ => d
       end)
    line_items costs.

(** [{label: float(matches[0].replace(',', ''))} if matches else {}] *)
Definition first_amount (label : string) (matches : list string)
  : result (Dict.t float) :=
  match matches with
  | m :: _ => v <- to_amount m ;; Ok [(label, v)]
  | [] => Ok []
  end.

Definition total (costs : Dict.t float) : Num.num :=
  match costs with
  | [] => Num.Int 0
  | _ => Num.sum (Dict.values costs)
  end.

(** [int(term_matches[0]) if term_matches else 12] *)
Definition contract_months (text : string) : result Z :=
  match findall Patterns.contract_term text with
  | t :: _ => Num.py_int t
  | [] => Ok 12%Z
  end.

(** The lists [monthly_amounts], [annual_amounts], [hourly_rates] and
    [fixed_fees] of lines 213-216 are computed and never read; they are left
    out.  [amounts] (line 210) is not read either, but computing it may
    raise. *)
Definition _extract_financial_details (text : string) : result FinancialDetails.t :=
  _amounts <- mapM to_amount (findall Patterns.currency_amount text) ;;
  items_a <- mapM service_item (findall3 service_rate_pattern text) ;;
  items_b <- mapM hourly_item (findall3 hourly_pattern text) ;;
  let line_items := items_a ++ items_b in
  monthly_costs <- first_amount "Monthly Total" (findall monthly_pattern text) ;;
  setup <- first_amount "Setup Fee" (findall setup_pattern text) ;;
  let one_time_costs := add_fixed_fees line_items setup in
  let total_monthly := total monthly_costs in
  let total_one_time := total one_time_costs in
  annual_contract_value <-
    match findall annual_pattern text with
    | a :: _ => v <- to_amount a ;; Ok (Some (Num.Float v))
    | [] =>
        if Num.gt0 total_monthly then
          contract_months <- contract_months text ;;
          v <- Num.mul total_monthly contract_months ;;
          Ok (Some v)
        else Ok None
    end ;;
  Ok {| FinancialDetails.line_items := nonempty line_items;
        FinancialDetails.monthly_costs := nonempty monthly_costs;
        FinancialDetails.one_time_costs := nonempty one_time_costs;
        FinancialDetails.total_monthly := Some total_monthly;
        FinancialDetails.total_one_time := Some total_one_time;
        FinancialDetails.annual_contract_value := annual_contract_value;
        FinancialDetails.currency := Some "USD" |}.

(** ** [_extract_payment_structure] *)

(** [(?:days?|months?)] *)
Definition days_or_months : regex :=
  Alt (Cat (str "day") (opt (Lit "s"))) (Cat (str "month") (opt (Lit "s"))).

(** [[0-9.]+%] *)
Definition percentage : regex :=
  Cat (plus (cls [R "0" "9"; C "."])) (One (Lit "%")).

(** [(?:payment|due)[\s\w]*(\d+)[\s]*(?:days?|months?)] *)
Definition alt_terms_pattern : pattern :=
  compile IGNORECASE
    (seq [words ["payment"; "due"]; star space_word; Grp 1 (plus Patterns.dg);
          star Patterns.sp; days_or_months]).

(** [(?:billed|invoiced|charged)[\s\w]*(?:monthly|quarterly|annually|yearly)] *)
Definition schedule_pattern : pattern :=
  compile IGNORECASE
    (seq [words ["billed"; "invoiced"; "charged"]; star space_word;
          words ["monthly"; "quarterly"; "annually"; "yearly"]]).

Definition monthly_re := compile IGNORECASE (words ["monthly"; "per month"]).
Definition quarterly_re := compile IGNORECASE (words ["quarterly"; "per quarter"]).
Definition annually_re := compile IGNORECASE (words ["annually"; "yearly"; "per year"]).

(** [(?:late fee|penalty|interest)[\s\w]*([0-9.]+%)] *)
Definition late_fee_pattern : pattern :=
  compile IGNORECASE
    (seq [words ["late fee"; "penalty"; "interest"]; star space_word; Grp 1 percentage]).

(** [(?:discount|early payment)[\s\w]*([0-9.]+%)] *)
Definition discount_pattern : pattern :=
  compile IGNORECASE
    (seq [words ["discount"; "early payment"]; star space_word; Grp 1 percentage]).

(** [(?:bank|financial institution)[\s:]*([A-Za-z\s&]+)] *)
Definition bank_name_pattern : pattern :=
  compile IGNORECASE
    (seq [words ["bank"; "financial institution"]; star space_colon;
          Grp 1 (plus (cls [R "A" "Z"; R "a" "z"; Sp; C "&"]))]).

(** [(?:account|acct)[\s#:]*([A-Za-z0-9-]+)] *)
Definition account_pattern : pattern :=
  compile IGNORECASE
    (seq [words ["account"; "acct"]; star (cls [Sp; C "#"; C ":"]);
          Grp 1 (plus (cls [R "A" "Z"; R "a" "z"; R "0" "9"; C "-"]))]).

(** [(?:routing|aba)[\s#:]*([0-9]{9})] *)
Definition routing_pattern : pattern :=
  compile IGNORECASE
    (seq [words ["routing"; "aba"]; star (cls [Sp; C "#"; C ":"]);
          Grp 1 (times Patterns.d09 9)]).

(** [(?:swift|bic)[\s:]*([A-Z0-9]{8,11})] *)
Definition swift_pattern : pattern :=
  compile IGNORECASE
    (seq [words ["swift"; "bic"]; star space_colon;
          Grp 1 (Rep (cls [R "A" "Z"; R "0" "9"]) 8 (Some 11))]).

(** [payment.discount_terms = ...] (line 341): [PaymentStructure] declares
    no field [discount_terms], and a pydantic model refuses the assignment
    of an undeclared attribute with a [ValueError]. *)
Definition _extract_payment_structure (text : string) : result PaymentStructure.t :=
  let payment_terms :=
    match findall Patterns.payment_terms text with
    | m :: _ => Some ("Net " ++ m ++ " days")%string
    | [] =>
        match findall alt_terms_pattern text with
        | m :: _ => Some ("Net " ++ m ++ " days")%string
        | [] => None
        end
    end in
  let payment_method :=
    option_map Str.strip (first (findall Patterns.payment_method text)) in
  let payment_schedule :=
    match findall0 schedule_pattern text with
    | m :: _ => Some m
    | [] =>
        if found monthly_re text then Some "Monthly recurring billing"
        else if found quarterly_re text then Some "Quarterly billing"
        else if found annually_re text then Some "Annual billing"
        else None
    end in
  let late_payment_fee :=
    option_map (fun m => PaymentStructure.FeeStr (m ++ " per month on overdue amounts")%string)
      (first (findall late_fee_pattern text)) in
  _discount <-
    match findall discount_pattern text with
    | _ :: _ => Raise ValueError
    | [] => Ok tt
    end ;;
  let bank_matches := findall bank_name_pattern text in
  let account_matches := findall account_pattern text in
  let routing_matches := findall routing_pattern text in
  let swift_matches := findall swift_pattern text in
  let banking_info :=
    if truthy_list bank_matches || truthy_list account_matches
       || truthy_list routing_matches
    then Some (BankingInfo.init
                 [("bank_name", option_map Str.strip (first bank_matches));
                  ("account_number", first account_matches);
                  ("routing_number", first routing_matches);
                  ("swift_code", first swift_matches)])
    else None in
  Ok {| PaymentStructure.payment_terms := payment_terms;
        PaymentStructure.payment_schedule := payment_schedule;
        PaymentStructure.payment_due_date := None;
        PaymentStructure.payment_method := payment_method;
        PaymentStructure.late_payment_terms := None;
        PaymentStructure.late_payment_fee := late_payment_fee;
        PaymentStructure.banking_info := banking_info |}.

(** ** [_extract_account_info] *)

(** [(?:billing|accounting|finance)[\s\w]*(?:phone|tel)[\s:]*(\+?1?[-.\s]?\(?[0-9]{3}\)?[-.\s]?[0-9]{3}[-.\s]?[0-9]{4})] *)
Definition phone_pattern : pattern :=
  let sep := cls [C "-"; C "."; Sp] in
  compile IGNORECASE
    (seq [words ["billing"; "accounting"; "finance"]; star space_word;
          words ["phone"; "tel"]; star space_colon;
          Grp 1 (seq [opt (Lit "+"); opt (Lit "1"); opt sep; opt (Lit "(");
                      times Patterns.d09 3; opt (Lit ")"); opt sep;
                      times Patterns.d09 3; opt sep; times Patterns.d09 4])]).

(** [(?:billing contact|accounts receivable|finance contact)[\s:]*([A-Za-z\s]+)] *)
Definition contact_pattern : pattern :=
  compile IGNORECASE
    (seq [words ["billing contact"; "accounts receivable"; "finance contact"];
          star space_colon; Grp 1 (plus letters_spaces)]).

Definition _extract_account_info (text : string) : AccountInfo.t :=
  let account_matches := findall Patterns.account_number text in
  let emails := findall Patterns.email text in
  let billing_phones := findall phone_pattern text in
  let contact_matches := findall contact_pattern text in
  {| AccountInfo.account_number := first account_matches;
     AccountInfo.billing_contact :=
       if truthy_list emails || truthy_list billing_phones || truthy_list contact_matches
       then Some (BillingContact.init
                    [("name", option_map Str.strip (first contact_matches));
                     ("email", first emails);
                     ("phone", first billing_phones)])
       else None |}.

(** ** [_extract_revenue_classification] *)

(** [recurring|subscription|monthly|quarterly|annual] *)
Definition recurring_re : pattern :=
  compile IGNORECASE (words ["recurring"; "subscription"; "monthly"; "quarterly"; "annual"]).

(** [one.?time|single payment|lump sum] *)
Definition one_time_re : pattern :=
  compile IGNORECASE
    (alts [seq [str "one"; opt Dot; str "time"]; str "single payment"; str "lump sum"]).

(** [(?:termination|cancellation)[\s\w]*([0-9]+)[\s]*(?:days?|months?)] *)
Definition termination_pattern : pattern :=
  compile IGNORECASE
    (seq [words ["termination"; "cancellation"]; star space_word;
          Grp 1 (plus Patterns.d09); star Patterns.sp; days_or_months]).

(** [(?:price increase|adjustment)[\s\w]*([0-9.]+%)] *)
Definition pricing_pattern : pattern :=
  compile IGNORECASE
    (seq [words ["price increase"; "adjustment"]; star space_word; Grp 1 percentage]).

Definition _extract_revenue_classification (text : string) : RevenueClassification.t :=
  {| RevenueClassification.contract_term :=
       option_map (fun m => m ++ " months")%string (first (findall Patterns.contract_term text));
     RevenueClassification.auto_renewal :=
       option_map (fun m => m ++ "-month terms")%string (first (findall Patterns.auto_renewal text));
     RevenueClassification.type :=
       if found recurring_re text then Some "recurring"
       else if found one_time_re text then Some "one-time"
       else Some "mixed";
     RevenueClassification.billing_cycle :=
       if found monthly_re text then Some "monthly"
       else if found quarterly_re text then Some "quarterly"
       else if found annually_re text then Some "annual"
       else None;
     RevenueClassification.termination_notice :=
       option_map (fun m => m ++ " days written notice")%string
         (first (findall termination_pattern text));
     RevenueClassification.pricing_adjustments :=
       option_map (fun m => "Limited to " ++ m ++ " annually")%string
         (first (findall pricing_pattern text)) |}.

(** ** [_extract_sla_terms] *)

(** [(?:w1|w2)[\s\w]*([0-9]+)[\s]*(?:u1s?|u2s?)] *)
Definition tier_pattern (w1 w2 u1 u2 : string) : pattern :=
  compile IGNORECASE
    (seq [words [w1; w2]; star space_word; Grp 1 (plus Patterns.d09);
          star Patterns.sp;
          Alt (Cat (str u1) (opt (Lit "s"))) (Cat (str u2) (opt (Lit "s")))]).

Definition critical_pattern := tier_pattern "critical" "emergency" "hour" "minute".
Definition high_pattern := tier_pattern "high priority" "urgent" "hour" "minute".
Definition medium_pattern := tier_pattern "medium" "normal" "hour" "minute".
Definition low_pattern := tier_pattern "low priority" "routine" "hour" "day".

(** [(?:system response|response time)[\s\w]*([0-9.]+)[\s]*(?:seconds?|ms)] *)
Definition response_time_pattern : pattern :=
  compile IGNORECASE
    (seq [words ["system response"; "response time"]; star space_word;
          Grp 1 (plus (cls [R "0" "9"; C "."])); star Patterns.sp;
          Alt (Cat (str "second") (opt (Lit "s"))) (str "ms")]).

(** [(?:backup success|backup rate)[\s\w]*([0-9.]+%)] *)
Definition backup_pattern : pattern :=
  compile IGNORECASE
    (seq [words ["backup success"; "backup rate"]; star space_word; Grp 1 percentage]).

(** [(?:service credit|penalty)[\s\w]*([0-9.]+%)[\s\w]*(?:below|under)[\s]*([0-9.]+%)] *)
Definition credit_pattern : pattern :=
  compile IGNORECASE
    (seq [words ["service credit"; "penalty"]; star space_word; Grp 1 percentage;
          star space_word; words ["below"; "under"]; star Patterns.sp;
          Grp 2 percentage]).

(** [f"{matches[0]} hours" if matches else default] *)
Definition tier (matches : list string) (default : string) : string :=
  match matches with
  | m :: _ => (m ++ " hours")%string
  | [] => default
  end.

(** The keywords of the constructor call of lines 456-461. *)
Definition response_times_kwargs (text : string) : kwargs (option string) :=
  let critical_matches := findall critical_pattern text in
  let high_matches := findall high_pattern text in
  let medium_matches := findall medium_pattern text in
  let low_matches := findall low_pattern text in
  [("critical", Some (tier critical_matches "1 hour"));
   ("high", Some (tier high_matches "4 hours"));
   ("medium", Some (tier medium_matches "8 hours"));
   ("low", Some (tier low_matches "24 hours"))].

(** The list [response_time_matches] of line 445 is never read; it is left
    out. *)
Definition _extract_sla_terms (text : string) : SLATerms.t :=
  let response_perf := findall response_time_pattern text in
  let backup_perf := findall backup_pattern text in
  let performance_metrics : kwargs (option string) :=
    (match response_perf with
     | m :: _ => [("system_response_time", Some ("< " ++ m ++ " seconds")%string)]
     | [] => []
     end) ++
    (match backup_perf with
     | m :: _ => [("backup_success_rate", Some m)]
     | [] => []
     end) in
  let service_credits :=
    List.map
      (fun m : string * string =>
         let '(credit_percent, threshold) := m in
         ServiceCredits.init
           [("threshold", Some ("< " ++ threshold ++ " uptime")%string);
            ("credit_percentage", Some (credit_percent ++ " monthly fee credit")%string);
            ("description", Some ("Service credit for uptime below " ++ threshold)%string)])
      (findall2 credit_pattern text) in
  {| SLATerms.uptime_commitment :=
       option_map (fun m => m ++ " uptime guarantee")%string
         (first (findall Patterns.uptime text));
     SLATerms.response_times := Some (ResponseTimes.init (response_times_kwargs text));
     SLATerms.performance_metrics :=
       match performance_metrics with
       | [] => None
       | _ => Some (PerformanceMetrics.init performance_metrics)
       end;
     SLATerms.service_credits := Some (SLATerms.CreditList service_credits) |}.

(** ** [_analyze_gaps] *)

(** [l.append(x)] when the test holds. *)
Definition append_if (test : bool) (x : string) (l : list string) : list string :=
  if test then l ++ [x] else l.

(** [not p or not p.name] for an optional party [p]. *)
Definition no_name (p : option PartyInfo.t) : bool :=
  match p with
  | Some i => negb (truthy_opt Str.truthy (PartyInfo.name i))
  | None => true
  end.

(** [p and not p.email] for an optional party [p]. *)
Definition no_email (p : option PartyInfo.t) : bool :=
  match p with
  | Some i => negb (truthy_opt Str.truthy (PartyInfo.email i))
  | None => false
  end.

Definition _analyze_gaps (parties : Parties.t) (financial_details : FinancialDetails.t)
    (payment_structure : PaymentStructure.t) (sla_terms : SLATerms.t) : GapAnalysis.t :=
  let missing_fields := [] in
  let incomplete_fields := [] in
  let missing_fields :=
    append_if (no_name (Parties.service_provider parties)) "service_provider_name"
      missing_fields in
  let missing_fields :=
    append_if (no_name (Parties.customer parties)) "customer_name" missing_fields in
  let incomplete_fields :=
    append_if (no_email (Parties.service_provider parties)) "service_provider_contact"
      incomplete_fields in
  let incomplete_fields :=
    append_if (no_email (Parties.customer parties)) "customer_contact" incomplete_fields in
  let missing_fields :=
    append_if
      (negb (truthy_opt Num.truthy (FinancialDetails.annual_contract_value financial_details)))
      "annual_contract_value" missing_fields in
  let missing_fields :=
    append_if
      (negb (truthy_opt truthy_list (FinancialDetails.monthly_costs financial_details)) &&
       negb (truthy_opt truthy_list (FinancialDetails.one_time_costs financial_details)))
      "cost_breakdown" missing_fields in
  let missing_fields :=
    append_if
      (negb (truthy_opt Str.truthy (PaymentStructure.payment_terms payment_structure)))
      "payment_terms" missing_fields in
  let incomplete_fields :=
    append_if
      (negb (truthy_opt Str.truthy (PaymentStructure.payment_method payment_structure)))
      "payment_method" incomplete_fields in
  let missing_fields :=
    append_if (negb (truthy_opt Str.truthy (SLATerms.uptime_commitment sla_terms)))
      "uptime_commitment" missing_fields in
  let missing_fields :=
    append_if (negb (truthy_opt truthy_model (SLATerms.response_times sla_terms)))
      "response_times" missing_fields in
  let notes := [] in
  let notes :=
    if truthy_list missing_fields then
      notes ++ [("Contract is missing " ++ Str.of_nat (List.length missing_fields)
                 ++ " critical fields")%string]
    else notes in
  let notes :=
    if truthy_list incomplete_fields then
      notes ++ [("Contract has " ++ Str.of_nat (List.length incomplete_fields)
                 ++ " incomplete sections")%string]
    else notes in
  let notes :=
    if negb (truthy_list missing_fields) && negb (truthy_list incomplete_fields) then
      notes ++ ["Contract appears to be comprehensive with all major sections present"]
    else notes in
  {| GapAnalysis.missing_fields := Some missing_fields;
     GapAnalysis.incomplete_fields := Some incomplete_fields;
     GapAnalysis.notes :=
       if truthy_list notes then Some (Str.join "; " notes) else None |}.

(** ** [calculate_confidence_score] *)

Local Open Scope Z_scope.

(** [score += points] when the test holds. *)
Definition add_if (test : bool) (points : Z) (score : Z) : Z :=
  if test then score + points else score.

(** [p and p.name] for an optional party [p]. *)
Definition has_name (p : option PartyInfo.t) : bool :=
  match p with
  | Some i => truthy_opt Str.truthy (PartyInfo.name i)
  | None => false
  end.

(** [p and p.email] for an optional party [p]. *)
Definition has_email (p : option PartyInfo.t) : bool :=
  match p with
  | Some i => truthy_opt Str.truthy (PartyInfo.email i)
  | None => false
  end.

Definition calculate_confidence_score (extracted_data : ExtractedData.t) : Z :=
  let score := 0 in
  (* Financial completeness: 30 points *)
  let score :=
    match ExtractedData.financial_details extracted_data with
    | Some fd =>
        let score :=
          add_if (truthy_opt Num.truthy (FinancialDetails.annual_contract_value fd)) 10
            score in
        let score :=
          add_if (truthy_opt truthy_list (FinancialDetails.monthly_costs fd) ||
                  truthy_opt truthy_list (FinancialDetails.one_time_costs fd)) 10 score in
        add_if (truthy_opt truthy_list (FinancialDetails.line_items fd)) 10 score
    | None => score
    end in
  (* Party identification: 25 points *)
  let score :=
    match ExtractedData.parties extracted_data with
    | Some ps =>
        let score := add_if (has_name (Parties.service_provider ps)) 10 score in
        let score := add_if (has_name (Parties.customer ps)) 10 score in
        add_if (has_email (Parties.service_provider ps) || has_email (Parties.customer ps))
          5 score
    | None => score
    end in
  (* Payment terms clarity: 20 points *)
  let score :=
    match ExtractedData.payment_structure extracted_data with
    | Some pay =>
        let score :=
          add_if (truthy_opt Str.truthy (PaymentStructure.payment_terms pay)) 10 score in
        let score :=
          add_if (truthy_opt Str.truthy (PaymentStructure.payment_method pay)) 5 score in
        add_if (truthy_opt Str.truthy (PaymentStructure.payment_schedule pay)) 5 score
    | None => score
    end in
  (* SLA definition: 15 points *)
  let score :=
    match ExtractedData.sla_terms extracted_data with
    | Some sla =>
        let score :=
          add_if (truthy_opt Str.truthy (SLATerms.uptime_commitment sla)) 5 score in
        let score :=
          add_if (truthy_opt truthy_model (SLATerms.response_times sla)) 5 score in
        add_if (truthy_opt truthy_model (SLATerms.performance_metrics sla)) 5 score
    | None => score
    end in
  (* Contact information: 10 points *)
  let score :=
    match ExtractedData.account_info extracted_data with
    | Some acct =>
        match AccountInfo.billing_contact acct with
        | Some bc =>
            let score :=
              add_if (truthy_opt Str.truthy (BillingContact.email bc)) 5 score in
            add_if (truthy_opt Str.truthy (BillingContact.phone bc)) 5 score
        | None => score
        end
    | None => score
    end in
  Z.min score 100.

Local Close Scope Z_scope.

(** ** [parse_contract] *)

(** [except Exception as e: raise ValueError(...)] *)
Definition reraise_value_error {A : Type} (m : result A) : result A :=
  match m with
  | Ok a => Ok a
  | Raise _ => Raise ValueError
  end.

Section Pipeline.

Variable set_iteration : list string -> list string.

(** [_extract_text_from_pdf]: the text PyPDF2 reads from the document, or
    the [ValueError] raised when it cannot. *)
Variable _extract_text_from_pdf : list Byte.byte -> result string.

(** The keywords of the constructor call of lines 626-634, for the text of
    the document. *)
Definition parse_contract_kwargs (text : string) : result (kwargs ExtractedData.arg) :=
  let parties := _extract_parties set_iteration text in
  financial_details <- _extract_financial_details text ;;
  payment_structure <- _extract_payment_structure text ;;
  let account_info := _extract_account_info text in
  let revenue_classification := _extract_revenue_classification text in
  let sla_terms := _extract_sla_terms text in
  let gap_analysis := _analyze_gaps parties financial_details payment_structure sla_terms in
  Ok [("parties", ExtractedData.OfParties parties);
      ("financial_details", ExtractedData.OfFinancialDetails financial_details);
      ("payment_structure", ExtractedData.OfPaymentStructure payment_structure);
      ("account_info", ExtractedData.OfAccountInfo account_info);
      ("revenue_classification", ExtractedData.OfRevenueClassification revenue_classification);
      ("sla_terms", ExtractedData.OfSLATerms sla_terms);
      ("gap_analysis", ExtractedData.OfGapAnalysis gap_analysis)].

Definition parse_contract (pdf_content : list Byte.byte) : result ExtractedData.t :=
  reraise_value_error
    (text <- _extract_text_from_pdf pdf_content ;;
     kw <- parse_contract_kwargs text ;;
     ExtractedData.init kw).

End Pipeline.

End PDFParser.

(* ------------------------------------------------------------------ *)
(** * The stored documents ([models.py]) *)

(** A date and time, as a number of seconds. *)
Definition datetime : Type := Z.

(** A document of the collection [contracts]
    ([ContractModel(...).dict(by_alias=True)]). *)
Module ContractModel.
Record t : Type := {
  _id : string;
  filename : string;
  file_path : string;
  status : string;
  progress : Z;
  upload_date : datetime;
  error_message : option string;
  file_size : Z;
  content_hash : string }.
End ContractModel.

(** A document of the collection [contract_data]
    ([ContractDataModel(...).dict(by_alias=True)]); [confidence_score] is
    declared [float], and the constructor converts the [int] it is given. *)
Module ContractDataModel.
Record t : Type := {
  _id : string;
  contract_id : string;
  extracted_data : ExtractedData.t;
  confidence_score : float;
  processing_date : datetime;
  gap_analysis : option GapAnalysis.t }.
End ContractDataModel.

(* ------------------------------------------------------------------ *)
(** * The response models ([schemas.py]) *)

(** An entry of the list of contracts: the keys of the dictionary
    [contract_item] of the service, which are the fields of
    [ContractListItem]. *)
Module ContractListItem.
Record t : Type := {
  contract_id : string;
  filename : string;
  status : string;
  upload_date : datetime;
  file_size : Z;
  confidence_score : option float }.
End ContractListItem.

(** A page of the list of contracts: the keys of the dictionary
    [get_contracts_list] returns, which are the fields of
    [ContractListResponse]. *)
Module ContractListResponse.
Record t : Type := {
  contracts : list ContractListItem.t;
  total : Z;
  page : Z;
  page_size : Z;
  total_pages : Z }.
End ContractListResponse.

Module ContractDataResponse.
Record t : Type := {
  contract_id : string;
  extracted_data : ExtractedData.t;
  confidence_score : float;
  processing_date : datetime;
  status : string }.
End ContractDataResponse.

Module ErrorResponse.
Record t : Type := {
  error : string;
  detail : string;
  status_code : Z }.
End ErrorResponse.

(* ------------------------------------------------------------------ *)
(** * [class ContractService]

    The two collections are the lists of their documents, in the order of
    their insertion.  A filter finds, and [update_one] changes, the first
    document that passes it.  Failures of the connection to the database
    are left out. *)

Module ContractService.

Import PDFParser.

(** An exception: the name of its class and its message, [str(e)]. *)
Record exception : Type := { type_name : string; message : string }.

Definition name_of (e : exn) : string :=
  match e with
  | ValueError => "ValueError"
  | OverflowError => "OverflowError"
  | ZeroDivisionError => "ZeroDivisionError"
  | ValidationError => "ValidationError"
  end.

Record database : Type := {
  contracts_collection : list ContractModel.t;
  contract_data_collection : list ContractDataModel.t }.

(** A coroutine of the service reads and changes the collections, and
    returns or raises; what it has written stays written when it raises. *)
Definition io (A : Type) : Type := database -> (A + exception) * database.

Definition ret {A : Type} (a : A) : io A := fun db => (inl a, db).

Definition raise {A : Type} (e : exception) : io A := fun db => (inr e, db).

Definition io_bind {A B : Type} (m : io A) (k : A -> io B) : io B :=
  fun db =>
    match m db with
    | (inl a, db') => k a db'
    | (inr e, db') => (inr e, db')
    end.

(** [try: m  except Exception as e: h e] *)
Definition try_except {A : Type} (m : io A) (h : exception -> io A) : io A :=
  fun db =>
    match m db with
    | (inl a, db') => (inl a, db')
    | (inr e, db') => h e db'
    end.

Declare Scope io_scope.
Delimit Scope io_scope with io.
Notation "x <- m ;; k" := (io_bind m (fun x => k))
  (at level 61, m at next level, right associativity) : io_scope.
Notation "m ;; k" := (io_bind m (fun _ => k))
  (at level 61, right associativity) : io_scope.

(** The values of a dictionary the service builds. *)
Inductive value : Type :=
| VNone
| VStr (s : string)
| VInt (z : Z)
| VFloat (f : float)
| VDate (d : datetime)
| VData (d : ExtractedData.t).

(** The filters [{"_id": contract_id}] and [{"contract_id": contract_id}]. *)
Definition by_id (contract_id : string) (c : ContractModel.t) : bool :=
  String.eqb (ContractModel._id c) contract_id.

Definition by_contract_id (contract_id : string) (d : ContractDataModel.t) : bool :=
  String.eqb (ContractDataModel.contract_id d) contract_id.

(** [collection.find_one(filter)] *)
Definition find_one {A : Type} (filter : A -> bool) (collection : list A) : option A :=
  List.find filter collection.

(** [collection.update_one(filter, {"$set": ...})], where [set] applies the
    assignments to a document. *)
Fixpoint update_one {A : Type} (filter : A -> bool) (set : A -> A) (collection : list A)
  : list A :=
  match collection with
  | [] => []
  | doc :: rest =>
      if filter doc then set doc :: rest else doc :: update_one filter set rest
  end.

(** One assignment of a ["$set"] to a contract document; the service
    assigns the status, the progress and the error message. *)
Definition set_field (doc : ContractModel.t) (assignment : string * value)
  : ContractModel.t :=
  let '(key, v) := assignment in
  match v with
  | VStr s =>
      if String.eqb key "status" then
        {| ContractModel._id := ContractModel._id doc;
           ContractModel.filename := ContractModel.filename doc;
           ContractModel.file_path := ContractModel.file_path doc;
           ContractModel.status := s;
           ContractModel.progress := ContractModel.progress doc;
           ContractModel.upload_date := ContractModel.upload_date doc;
           ContractModel.error_message := ContractModel.error_message doc;
           ContractModel.file_size := ContractModel.file_size doc;
           ContractModel.content_hash := ContractModel.content_hash doc |}
      else if String.eqb key "error_message" then
        {| ContractModel._id := ContractModel._id doc;
           ContractModel.filename := ContractModel.filename doc;
           ContractModel.file_path := ContractModel.file_path doc;
           ContractModel.status := ContractModel.status doc;
           ContractModel.progress := ContractModel.progress doc;
           ContractModel.upload_date := ContractModel.upload_date doc;
           ContractModel.error_message := Some s;
           ContractModel.file_size := ContractModel.file_size doc;
           ContractModel.content_hash := ContractModel.content_hash doc |}
      else doc
  | VInt z =>
      if String.eqb key "progress" then
        {| ContractModel._id := ContractModel._id doc;
           ContractModel.filename := ContractModel.filename doc;
           ContractModel.file_path := ContractModel.file_path doc;
           ContractModel.status := ContractModel.status doc;
           ContractModel.progress := z;
           ContractModel.upload_date := ContractModel.upload_date doc;
           ContractModel.error_message := ContractModel.error_message doc;
           ContractModel.file_size := ContractModel.file_size doc;
           ContractModel.content_hash := ContractModel.content_hash doc |}
      else doc
  | _ => doc
  end.

(** The dictionary [update_data] of [update_contract_status] (lines 76-82):
    a progress is written whenever one is given, an error message only when
    it is not empty. *)
Definition update_data (status : string) (progress : option Z)
    (error_message : option string) : Dict.t value :=
  let update_data := [("status", VStr status)] in
  let update_data :=
    match progress with
    | Some p => Dict.set "progress" (VInt p) update_data
    | None => update_data
    end in
  match error_message with
  | Some m => if Str.truthy m then Dict.set "error_message" (VStr m) update_data
              else update_data
  | None => update_data
  end.

Definition update_contract_status (contract_id status : string) (progress : option Z)
    (error_message : option string) : io unit :=
  fun db =>
    (inl tt,
     {| contracts_collection :=
          update_one (by_id contract_id)
            (fun doc => fold_left set_field (update_data status progress error_message) doc)
            (contracts_collection db);
        contract_data_collection := contract_data_collection db |}).

(** [collection.find_one({"_id": contract_id})] on the contracts. *)
Definition find_contract (contract_id : string) : io (option ContractModel.t) :=
  fun db => (inl (find_one (by_id contract_id) (contracts_collection db)), db).

Section Processing.

Variable set_iteration : list string -> list string.
Variable _extract_text_from_pdf : list Byte.byte -> result string.

(** The message of the exception an extractor or the reader raised, which
    [parse_contract] puts after "Failed to parse contract: ". *)
Variable inner_message : list Byte.byte -> string.

(** [aiofiles.open(path, 'rb')] and [f.read()]: the content of the file, or
    the exception raised. *)
Variable read_file : string -> list Byte.byte + exception.

(** [datetime.utcnow()] and [str(ObjectId())] at the time of the call. *)
Variable utcnow : datetime.
Variable object_id : string.

(** The exception [insert_one] raises for a document it cannot store, if it
    raises one. *)
Variable insert_error : ContractDataModel.t -> option exception.

(** [pdf_parser.parse_contract(file_content)], with the message of the
    [ValueError] it raises. *)
Definition parse (file_content : list Byte.byte) : io ExtractedData.t :=
  match parse_contract set_iteration _extract_text_from_pdf file_content with
  | Ok extracted_data => ret extracted_data
  | Raise e =>
      raise {| type_name := name_of e;
               message := "Failed to parse contract: " ++ inner_message file_content |}
  end.

(** [contract_data_collection.insert_one(document)] *)
Definition insert_one (document : ContractDataModel.t) : io unit :=
  fun db =>
    match insert_error document with
    | Some e => (inr e, db)
    | None =>
        (inl tt,
         {| contracts_collection := contracts_collection db;
            contract_data_collection := contract_data_collection db ++ [document] |})
    end.

Local Open Scope io_scope.

Definition process_contract (contract_id : string) : io unit :=
  try_except
    (update_contract_status contract_id "processing" (Some 10%Z) None ;;
     contract <- find_contract contract_id ;;
     match contract with
     | None =>
         raise {| type_name := "ValueError";
                  message := "Contract " ++ contract_id ++ " not found" |}
     | Some contract =>
         file_content <-
           (match read_file (ContractModel.file_path contract) with
            | inl content => ret content
            | inr e => raise e
            end) ;;
         update_contract_status contract_id "processing" (Some 30%Z) None ;;
         extracted_data <- parse file_content ;;
         update_contract_status contract_id "processing" (Some 70%Z) None ;;
         let confidence_score := calculate_confidence_score extracted_data in
         let contract_data :=
           {| ContractDataModel._id := object_id;
              ContractDataModel.contract_id := contract_id;
              ContractDataModel.extracted_data := extracted_data;
              ContractDataModel.confidence_score := Num.float_of_Z confidence_score;
              ContractDataModel.processing_date := utcnow;
              ContractDataModel.gap_analysis := None |} in
         insert_one contract_data ;;
         update_contract_status contract_id "completed" (Some 100%Z) None
     end)
    (fun e =>
       update_contract_status contract_id "failed" None (Some (message e)) ;;
       raise e).

End Processing.

(** [get_contract_status]: the dictionary it returns has the five keys
    below, and no key "filename". *)
Definition get_contract_status (contract_id : string) (db : database)
  : option (Dict.t value) :=
  match find_one (by_id contract_id) (contracts_collection db) with
  | None => None
  | Some contract =>
      Some [("contract_id", VStr contract_id);
            ("status", VStr (ContractModel.status contract));
            ("progress", VInt (ContractModel.progress contract));
            ("error_message",
              match ContractModel.error_message contract with
              | Some m => VStr m
              | None => VNone
              end);
            ("upload_date", VDate (ContractModel.upload_date contract))]
  end.

Definition get_contract_data (contract_id : string) (db : database)
  : option (Dict.t value) :=
  match find_one (by_id contract_id) (contracts_collection db) with
  | None => None
  | Some contract =>
      if negb (String.eqb (ContractModel.status contract) "completed") then None
      else
        match find_one (by_contract_id contract_id) (contract_data_collection db) with
        | None => None
        | Some contract_data =>
            Some [("contract_id", VStr contract_id);
                  ("extracted_data", VData (ContractDataModel.extracted_data contract_data));
                  ("confidence_score",
                    VFloat (ContractDataModel.confidence_score contract_data));
                  ("processing_date",
                    VDate (ContractDataModel.processing_date contract_data));
                  ("status", VStr (ContractModel.status contract))]
        end
  end.


(** ** [get_contracts_list] *)

(** The query is [{}] or [{"status": status_filter}]. *)
Definition satisfies (query : Dict.t string) (doc : ContractModel.t) : bool :=
  match Dict.get "status" query with
  | Some s => String.eqb (ContractModel.status doc) s
  | None => true
  end.

(** The dictionary [contract_item] of a contract (lines 191-204). *)
Definition contract_item (db : database) (contract : ContractModel.t)
  : ContractListItem.t :=
  {| ContractListItem.contract_id := ContractModel._id contract;
     ContractListItem.filename := ContractModel.filename contract;
     ContractListItem.status := ContractModel.status contract;
     ContractListItem.upload_date := ContractModel.upload_date contract;
     ContractListItem.file_size := ContractModel.file_size contract;
     ContractListItem.confidence_score :=
       if String.eqb (ContractModel.status contract) "completed" then
         match find_one (by_contract_id (ContractModel._id contract))
                 (contract_data_collection db) with
         | Some contract_data => Some (ContractDataModel.confidence_score contract_data)
         | None => None
         end
       else None |}.

Section Listing.

(** [find(query).sort("upload_date", -1).skip(skip).limit(limit)] read by
    [to_list(length=limit)], on the documents that satisfy the query: the
    documents of the page, or the exception the driver raises. *)
Variable to_list : list ContractModel.t -> Z -> Z -> result (list ContractModel.t).

Local Open Scope Z_scope.

Definition get_contracts_list (page page_size : Z) (status_filter : option string)
    (db : database) : result ContractListResponse.t :=
  let skip := (page - 1) * page_size in
  let query : Dict.t string :=
    match status_filter with
    | Some s => if Str.truthy s then [("status", s)] else []
    | None => []
    end in
  let matching := List.filter (satisfies query) (contracts_collection db) in
  let total := Z.of_nat (List.length matching) in
  (contracts <- to_list matching skip page_size ;;
   let contract_list := List.map (contract_item db) contracts in
   if page_size =? 0 then Raise ZeroDivisionError
   else
     Ok {| ContractListResponse.contracts := contract_list;
           ContractListResponse.total := total;
           ContractListResponse.page := page;
           ContractListResponse.page_size := page_size;
           ContractListResponse.total_pages := (total + page_size - 1) / page_size |})%py.

End Listing.

End ContractService.

(* ------------------------------------------------------------------ *)
(** * The endpoints of [main.py] that read the service *)

Module Main.

Import ContractService.

(** [HTTPException(status_code, detail)] *)
Record HTTPException : Type := { status_code : Z; detail : string }.

(** The [ContractDataResponse] built from the keywords of the dictionary:
    the five fields are required. *)
Definition contract_data_response (contract_data : Dict.t value)
  : option ContractDataResponse.t :=
  match Dict.get "contract_id" contract_data, Dict.get "extracted_data" contract_data,
        Dict.get "confidence_score" contract_data,
        Dict.get "processing_date" contract_data, Dict.get "status" contract_data with
  | Some (VStr contract_id), Some (VData extracted_data), Some (VFloat confidence_score),
    Some (VDate processing_date), Some (VStr status) =>
      Some {| ContractDataResponse.contract_id := contract_id;
              ContractDataResponse.extracted_data := extracted_data;
              ContractDataResponse.confidence_score := confidence_score;
              ContractDataResponse.processing_date := processing_date;
              ContractDataResponse.status := status |}
  | _, _, _, _, _ => None
  end.

Definition internal_server_error : HTTPException :=
  {| status_code := 500; detail := "Internal server error" |}.

(** The coroutine [get_contract_data] of the route
    [/contracts/{contract_id}]: the model it returns, or the
    [HTTPException] it raises.  [except HTTPException: raise] lets the three
    exceptions of the body through, and [except Exception] turns any other
    into the 500. *)
Definition get_contract_data (contract_id : string) (db : database)
  : ContractDataResponse.t + HTTPException :=
  match ContractService.get_contract_data contract_id db with
  | None =>
      match get_contract_status contract_id db with
      | None => inr {| status_code := 404; detail := "Contract not found" |}
      | Some status_data =>
          match Dict.get "status" status_data with
          | Some (VStr status) =>
              if negb (String.eqb status "completed") then
                inr {| status_code := 400;
                       detail := "Contract processing not completed. Current status: "
                                 ++ status |}
              else inr {| status_code := 404; detail := "Contract data not found" |}
          | _ => inr internal_server_error
          end
      end
  | Some contract_data =>
      match contract_data_response contract_data with
      | Some response => inl response
      | None => inr internal_server_error
      end
  end.


Section Download.

(** [os.path.exists] *)
Variable exists_ : string -> bool.


End Download.

(** [@app.exception_handler(HTTPException)]: the handler of the application
    for the exceptions the routes raise.  [exc.detail] is a [str] in every
    [raise] of the module, so [str(exc.detail)] is [exc.detail]. *)
Definition http_exception_handler (exc : HTTPException) : ErrorResponse.t :=
  {| ErrorResponse.error := detail exc;
     ErrorResponse.detail := detail exc;
     ErrorResponse.status_code := status_code exc |}.

(** A route under the handler: what the coroutine returns, or what the
    handler returns for the exception the coroutine raises.  The handler
    returns a pydantic model and no [Response]: the status line the
    framework sends for it is not the [status_code] of the model, and is not
    described here. *)
Definition handled {A : Type} (r : A + HTTPException) : A + ErrorResponse.t :=
  match r with
  | inl a => inl a
  | inr exc => inr (http_exception_handler exc)
  end.

End Main.

Import Re.
Import PDFParser.

(* ------------------------------------------------------------------ *)
(** * Response times (C1) *)

Module ResponseTimesFacts.

(** The record the claim describes: the four tiers populated. *)
Definition populated (critical high medium low : string) : ResponseTimes.t :=
  {| ResponseTimes.critical_issues := Some critical;
     ResponseTimes.high_priority := Some high;
     ResponseTimes.medium_priority := Some medium;
     ResponseTimes.low_priority := Some low |}.

Definition unpopulated : ResponseTimes.t :=
  {| ResponseTimes.critical_issues := None;
     ResponseTimes.high_priority := None;
     ResponseTimes.medium_priority := None;
     ResponseTimes.low_priority := None |}.

(** A keyword list that uses none of the names and aliases of the model
    leaves every field at its default. *)
Lemma init_foreign_keywords (a b c d : option string) :
  ResponseTimes.init [("critical", a); ("high", b); ("medium", c); ("low", d)]
  = unpopulated.
Proof. reflexivity. Qed.

(** Had the call used the declared names, the four values would be kept. *)
Lemma init_declared_names (a b c d : string) :
  ResponseTimes.init
    [("critical_issues", Some a); ("high_priority", Some b);
     ("medium_priority", Some c); ("low_priority", Some d)]
  = populated a b c d.
Proof. reflexivity. Qed.

(** When no tier pattern matches, the call is made with the four defaults. *)
Lemma kwargs_defaults (text : string) :
  findall critical_pattern text = [] ->
  findall high_pattern text = [] ->
  findall medium_pattern text = [] ->
  findall low_pattern text = [] ->
  response_times_kwargs text =
    [("critical", Some "1 hour"); ("high", Some "4 hours");
     ("medium", Some "8 hours"); ("low", Some "24 hours")].
Proof.
  intros Hc Hh Hm Hl. unfold response_times_kwargs.
  rewrite Hc, Hh, Hm, Hl. reflexivity.
Qed.

(** C1, on the code: for the empty text no tier pattern matches and the
    constructor is called with the defaults "1 hour", "4 hours", "8 hours",
    "24 hours" under the keywords critical, high, medium, low; the model
    declares critical_issues, high_priority, medium_priority, low_priority,
    so the record that is returned has none of the four tiers populated, for
    the empty text and for every other text. *)
Theorem response_times_never_populated :
  response_times_kwargs "" =
    [("critical", Some "1 hour"); ("high", Some "4 hours");
     ("medium", Some "8 hours"); ("low", Some "24 hours")]
  /\ SLATerms.response_times (_extract_sla_terms "") = Some unpopulated
  /\ SLATerms.response_times (_extract_sla_terms "")
     <> Some (populated "1 hour" "4 hours" "8 hours" "24 hours")
  /\ forall text, SLATerms.response_times (_extract_sla_terms text) = Some unpopulated.
Proof.
  split; [reflexivity|].
  split; [reflexivity|].
  split; [discriminate|].
  intros text. reflexivity.
Qed.

End ResponseTimesFacts.

(* ------------------------------------------------------------------ *)
(** * The confidence score (C2, C10) *)

Module Score.

Local Open Scope Z_scope.

(** A row of the weight table: a check on the record and its points. *)
Record row : Type := { check : ExtractedData.t -> bool; points : Z }.

(** The reading of "present" in the claim: the field is not [None]. *)
Definition present {A : Type} (x : option A) : bool :=
  match x with Some _ => true | None => false end.

(** [x.f] through an optional sub-record [x]. *)
Definition via {A B : Type} (x : option A) (f : A -> option B) : option B :=
  match x with Some a => f a | None => None end.

Section Table.

(** What counts as present, for a number, a dict of costs, the list of line
    items and a string. *)
Variable has_num : option Num.num -> bool.
Variable has_costs : option (Dict.t float) -> bool.
Variable has_items : option (list LineItem.t) -> bool.
Variable has_str : option string -> bool.

Definition party_name (p : ExtractedData.t -> option Parties.t)
    (who : Parties.t -> option PartyInfo.t) (d : ExtractedData.t) : option string :=
  via (via (p d) who) PartyInfo.name.

Definition party_email (who : Parties.t -> option PartyInfo.t) (d : ExtractedData.t)
  : option string :=
  via (via (ExtractedData.parties d) who) PartyInfo.email.

Definition billing (f : BillingContact.t -> option string) (d : ExtractedData.t)
  : option string :=
  via (via (ExtractedData.account_info d) AccountInfo.billing_contact) f.

(** The weight table of the specification, row by row. *)
Definition table : list row :=
  [ {| check := fun d =>
         has_num (via (ExtractedData.financial_details d)
                    FinancialDetails.annual_contract_value);
       points := 10 |};
    {| check := fun d =>
         has_costs (via (ExtractedData.financial_details d) FinancialDetails.monthly_costs)
         || has_costs (via (ExtractedData.financial_details d)
                         FinancialDetails.one_time_costs);
       points := 10 |};
    {| check := fun d =>
         has_items (via (ExtractedData.financial_details d) FinancialDetails.line_items);
       points := 10 |};
    {| check := fun d =>
         has_str (party_name ExtractedData.parties Parties.service_provider d);
       points := 10 |};
    {| check := fun d => has_str (party_name ExtractedData.parties Parties.customer d);
       points := 10 |};
    {| check := fun d =>
         has_str (party_email Parties.service_provider d)
         || has_str (party_email Parties.customer d);
       points := 5 |};
    {| check := fun d =>
         has_str (via (ExtractedData.payment_structure d) PaymentStructure.payment_terms);
       points := 10 |};
    {| check := fun d =>
         has_str (via (ExtractedData.payment_structure d) PaymentStructure.payment_method);
       points := 5 |};
    {| check := fun d =>
         has_str (via (ExtractedData.payment_structure d)
                    PaymentStructure.payment_schedule);
       points := 5 |};
    {| check := fun d =>
         has_str (via (ExtractedData.sla_terms d) SLATerms.uptime_commitment);
       points := 5 |};
    {| check := fun d => present (via (ExtractedData.sla_terms d) SLATerms.response_times);
       points := 5 |};
    {| check := fun d =>
         present (via (ExtractedData.sla_terms d) SLATerms.performance_metrics);
       points := 5 |};
    {| check := fun d => has_str (billing BillingContact.email d); points := 5 |};
    {| check := fun d => has_str (billing BillingContact.phone d); points := 5 |} ].

(** The sum of the matched rows. *)
Fixpoint matched (rows : list row) (d : ExtractedData.t) : Z :=
  match rows with
  | [] => 0
  | r :: rows' => (if check r d then points r else 0) + matched rows' d
  end.

(** The sum of the matched rows, clamped to [0, 100]. *)
Definition table_score (d : ExtractedData.t) : Z :=
  Z.max 0 (Z.min 100 (matched table d)).

End Table.

(** The score as the claim states it: a field counts when it is not [None]. *)
Definition claimed_score : ExtractedData.t -> Z :=
  table_score present present present present.

(** The score with the truth value of each field in place of its presence: a
    number counts when it is not zero, a dict, a list or a string when it is
    not empty. *)
Definition truthy_score : ExtractedData.t -> Z :=
  table_score (truthy_opt Num.truthy) (truthy_opt truthy_list) (truthy_opt truthy_list)
    (truthy_opt Str.truthy).

Definition no_data : ExtractedData.t :=
  {| ExtractedData.parties := None;
     ExtractedData.account_info := None;
     ExtractedData.financial_details := None;
     ExtractedData.payment_structure := None;
     ExtractedData.revenue_classification := None;
     ExtractedData.sla_terms := None |}.

(** A record whose only content is an annual contract value of 0.0. *)
Definition zero_value_contract : ExtractedData.t :=
  {| ExtractedData.parties := None;
     ExtractedData.account_info := None;
     ExtractedData.financial_details :=
       Some {| FinancialDetails.line_items := None;
               FinancialDetails.monthly_costs := None;
               FinancialDetails.one_time_costs := None;
               FinancialDetails.total_monthly := Some (Num.Int 0);
               FinancialDetails.total_one_time := Some (Num.Int 0);
               FinancialDetails.annual_contract_value := Some (Num.Float 0);
               FinancialDetails.currency := Some "USD" |};
     ExtractedData.payment_structure := None;
     ExtractedData.revenue_classification := None;
     ExtractedData.sla_terms := None |}.

(** The financial extractor yields such details: an explicit annual value of
    zero is stored as 0.0. *)
Example zero_value_extracted :
  _extract_financial_details "Annual Contract Value: $0"
  = Ok {| FinancialDetails.line_items := None;
          FinancialDetails.monthly_costs := None;
          FinancialDetails.one_time_costs := None;
          FinancialDetails.total_monthly := Some (Num.Int 0);
          FinancialDetails.total_one_time := Some (Num.Int 0);
          FinancialDetails.annual_contract_value := Some (Num.Float 0);
          FinancialDetails.currency := Some "USD" |}.
Proof. vm_compute. reflexivity. Qed.

(** C2 as stated fails: the annual contract value 0.0 is present, the claim
    gives its row 10 points, the code gives the record 0. *)
Lemma present_zero_value_not_counted :
  calculate_confidence_score zero_value_contract = 0
  /\ claimed_score zero_value_contract = 10
  /\ calculate_confidence_score zero_value_contract <> claimed_score zero_value_contract.
Proof.
  split; [vm_compute; reflexivity|].
  split; [vm_compute; reflexivity|].
  vm_compute. discriminate.
Qed.

Lemma add_if_plus (b : bool) (p s : Z) : add_if b p s = s + (if b then p else 0).
Proof. destruct b; unfold add_if; lia. Qed.

Lemma points_bounds (b : bool) (p : Z) : 0 <= p -> 0 <= (if b then p else 0) <= p.
Proof. destruct b; lia. Qed.

Ltac bound_points :=
  repeat match goal with
         | |- context [if ?b then ?p else 0] =>
             let H := fresh "H" in
             assert (H : 0 <= (if b then p else 0) <= p) by (apply points_bounds; lia);
             generalize dependent (if b then p else 0); intros
         end.

(** C2, amended: for every ExtractedData record the score is the sum of the
    matched rows of the weight table, clamped to [0, 100], where a row is
    matched when its field is true in the sense of Python (not None and not
    zero or empty; a sub-record that is a model instance is true whenever it
    is not None); the result is an integer in [0, 100]. *)
Theorem score_is_truthy_table (d : ExtractedData.t) :
  calculate_confidence_score d = truthy_score d
  /\ 0 <= calculate_confidence_score d <= 100.
Proof.
  assert (E : calculate_confidence_score d = truthy_score d).
  { unfold calculate_confidence_score, truthy_score, table_score.
    destruct d as [[[[sp|] [cu|] ar]|] [[an [bc|]]|] [fd|] [pay|] rev [[up [rt|] [pm|] sc]|]];
      cbn [matched table check points ExtractedData.parties ExtractedData.account_info
             ExtractedData.financial_details ExtractedData.payment_structure
             ExtractedData.sla_terms party_name party_email billing via
             Parties.service_provider Parties.customer AccountInfo.billing_contact
             SLATerms.uptime_commitment SLATerms.response_times
             SLATerms.performance_metrics has_name has_email truthy_opt truthy_model
             present orb];
      unfold truthy_model; rewrite ?add_if_plus; bound_points; lia. }
  split; [exact E|].
  rewrite E. unfold truthy_score, table_score. lia.
Qed.

(** C10: two records that agree on every field except revenue_classification
    have the same score. *)
Theorem score_ignores_revenue_classification (d1 d2 : ExtractedData.t) :
  ExtractedData.parties d1 = ExtractedData.parties d2 ->
  ExtractedData.account_info d1 = ExtractedData.account_info d2 ->
  ExtractedData.financial_details d1 = ExtractedData.financial_details d2 ->
  ExtractedData.payment_structure d1 = ExtractedData.payment_structure d2 ->
  ExtractedData.sla_terms d1 = ExtractedData.sla_terms d2 ->
  calculate_confidence_score d1 = calculate_confidence_score d2.
Proof.
  intros Hp Ha Hf Hs Hl. unfold calculate_confidence_score.
  rewrite Hp, Ha, Hf, Hs, Hl. reflexivity.
Qed.

Definition recurring_revenue : RevenueClassification.t :=
  {| RevenueClassification.type := Some "recurring";
     RevenueClassification.contract_term := Some "24 months";
     RevenueClassification.billing_cycle := Some "monthly";
     RevenueClassification.auto_renewal := None;
     RevenueClassification.termination_notice := None;
     RevenueClassification.pricing_adjustments := None |}.

Definition with_revenue (r : option RevenueClassification.t) (d : ExtractedData.t)
  : ExtractedData.t :=
  {| ExtractedData.parties := ExtractedData.parties d;
     ExtractedData.account_info := ExtractedData.account_info d;
     ExtractedData.financial_details := ExtractedData.financial_details d;
     ExtractedData.payment_structure := ExtractedData.payment_structure d;
     ExtractedData.revenue_classification := r;
     ExtractedData.sla_terms := ExtractedData.sla_terms d |}.

Lemma score_ignores_revenue_classification_witness :
  with_revenue (Some recurring_revenue) zero_value_contract
    <> with_revenue None zero_value_contract
  /\ calculate_confidence_score (with_revenue (Some recurring_revenue) zero_value_contract)
     = calculate_confidence_score (with_revenue None zero_value_contract).
Proof.
  split; [discriminate|].
  apply (score_ignores_revenue_classification
           (with_revenue (Some recurring_revenue) zero_value_contract)
           (with_revenue None zero_value_contract)); reflexivity.
Defined.

End Score.

(* ------------------------------------------------------------------ *)
(** * The party extractor (C8, C9) *)

Module PartiesFacts.

Lemma first_nth {A : Type} (l : list A) : first l = nth_error l 0.
Proof. destruct l; reflexivity. Qed.

Lemma second_nth {A : Type} (l : list A) : second l = nth_error l 1.
Proof. destruct l as [|x [|y l]]; reflexivity. Qed.

Section Facts.

Variable set_iteration : list string -> list string.

(** The service provider's record is built from the resolved name and the
    first contact details. *)
Lemma service_provider_inv (text : string) (sp : PartyInfo.t) :
  Parties.service_provider (_extract_parties set_iteration text) = Some sp ->
  truthy_opt Str.truthy (service_provider_name set_iteration text) = true
  /\ sp = PartyInfo.init
            [("name", service_provider_name set_iteration text);
             ("email", first (findall0 emails_re text));
             ("phone", first (findall0 phones_re text));
             ("address", option_map collapse_spaces (first (findall0 addresses_re text)));
             ("tax_id", first (findall tax_ids_re text))].
Proof.
  unfold _extract_parties. cbn [Parties.service_provider].
  destruct (truthy_opt Str.truthy (service_provider_name set_iteration text));
    [|discriminate].
  intros H. injection H as <-. split; reflexivity.
Qed.

(** The customer's record is built from the resolved name and the second
    contact details. *)
Lemma customer_inv (text : string) (cu : PartyInfo.t) :
  Parties.customer (_extract_parties set_iteration text) = Some cu ->
  truthy_opt Str.truthy (customer_name set_iteration text) = true
  /\ cu = PartyInfo.init
            [("name", customer_name set_iteration text);
             ("email", second (findall0 emails_re text));
             ("phone", second (findall0 phones_re text));
             ("address", option_map collapse_spaces (second (findall0 addresses_re text)));
             ("tax_id", second (findall tax_ids_re text))].
Proof.
  unfold _extract_parties. cbn [Parties.customer].
  destruct (truthy_opt Str.truthy (customer_name set_iteration text));
    [|discriminate].
  intros H. injection H as <-. split; reflexivity.
Qed.

Lemma truthy_name (n : option string) :
  truthy_opt Str.truthy n = true -> exists s, n = Some s /\ s <> "".
Proof.
  destruct n as [[|c s]|]; cbn; try discriminate.
  intros _. exists (String c s). split; [reflexivity|discriminate].
Qed.

(** C8, amended: when both names are resolved, the service provider's record
    holds the first email, the first phone and the first tax ID found in the
    text and the first address with its runs of whitespace collapsed, each
    when there is one and None otherwise; the customer's record holds the
    second of each in the same way, each when there are two. *)
Theorem contacts_are_positional (text : string) (sp cu : PartyInfo.t) :
  Parties.service_provider (_extract_parties set_iteration text) = Some sp ->
  Parties.customer (_extract_parties set_iteration text) = Some cu ->
  let emails := findall0 emails_re text in
  let phones := findall0 phones_re text in
  let addresses := findall0 addresses_re text in
  let tax_ids := findall tax_ids_re text in
  (PartyInfo.email sp = nth_error emails 0
   /\ PartyInfo.phone sp = nth_error phones 0
   /\ PartyInfo.address sp = option_map collapse_spaces (nth_error addresses 0)
   /\ PartyInfo.tax_id sp = nth_error tax_ids 0)
  /\ (PartyInfo.email cu = nth_error emails 1
      /\ PartyInfo.phone cu = nth_error phones 1
      /\ PartyInfo.address cu = option_map collapse_spaces (nth_error addresses 1)
      /\ PartyInfo.tax_id cu = nth_error tax_ids 1).
Proof.
  intros Hsp Hcu.
  apply service_provider_inv in Hsp. destruct Hsp as [_ ->].
  apply customer_inv in Hcu. destruct Hcu as [_ ->].
  cbv zeta. rewrite <- !first_nth, <- !second_nth.
  repeat split; reflexivity.
Qed.

(** C9: a party record that the extractor returns, for the service provider
    or for the customer, has a name, and the name is not empty. *)
Theorem returned_party_has_name (text : string) (p : PartyInfo.t) :
  Parties.service_provider (_extract_parties set_iteration text) = Some p
  \/ Parties.customer (_extract_parties set_iteration text) = Some p ->
  exists n, PartyInfo.name p = Some n /\ n <> "".
Proof.
  intros [H|H].
  - apply service_provider_inv in H. destruct H as [Ht ->].
    apply truthy_name in Ht. destruct Ht as [s [Hs Hne]].
    exists s. split; [|exact Hne]. rewrite <- Hs. reflexivity.
  - apply customer_inv in H. destruct H as [Ht ->].
    apply truthy_name in Ht. destruct Ht as [s [Hs Hne]].
    exists s. split; [|exact Hne]. rewrite <- Hs. reflexivity.
Qed.

End Facts.

(** An iteration order for the examples: the distinct names in the order of
    their last occurrence. *)
Definition some_order (l : list string) : list string := nodup string_dec l.

Definition nl : string := String newline "".

(** Two labelled parties, two emails and an address broken over two lines. *)
Definition two_parties : string :=
  "Consultant:" ++ nl ++ "Acme Consulting LLC" ++ nl
  ++ "Client:" ++ nl ++ "Beta Corp Inc" ++ nl
  ++ "Contact a@acme.com or b@beta.org" ++ nl
  ++ "12 Main" ++ nl ++ "Street, Springfield 62701".

Definition acme : PartyInfo.t :=
  {| PartyInfo.name := Some "Acme Consulting LLC";
     PartyInfo.address := Some "12 Main Street, Springfield 62701";
     PartyInfo.phone := None;
     PartyInfo.email := Some "a@acme.com";
     PartyInfo.tax_id := None;
     PartyInfo.account_number := None |}.

Definition beta : PartyInfo.t :=
  {| PartyInfo.name := Some "Beta Corp Inc";
     PartyInfo.address := None;
     PartyInfo.phone := None;
     PartyInfo.email := Some "b@beta.org";
     PartyInfo.tax_id := None;
     PartyInfo.account_number := None |}.

Example two_parties_extracted :
  _extract_parties some_order two_parties
  = {| Parties.service_provider := Some acme;
       Parties.customer := Some beta;
       Parties.authorized_representatives := None |}.
Proof. vm_compute. reflexivity. Qed.

(** C8 as stated fails: both names are resolved, the first address found in
    the text runs over a line break, and the service provider's record does
    not hold it as found. *)
Lemma first_address_is_rewritten :
  exists sp cu a,
    Parties.service_provider (_extract_parties some_order two_parties) = Some sp
    /\ Parties.customer (_extract_parties some_order two_parties) = Some cu
    /\ nth_error (findall0 addresses_re two_parties) 0 = Some a
    /\ a = ("12 Main" ++ nl ++ "Street, Springfield 62701")%string
    /\ PartyInfo.address sp = Some "12 Main Street, Springfield 62701"
    /\ PartyInfo.address sp <> Some a.
Proof.
  exists acme, beta, ("12 Main" ++ nl ++ "Street, Springfield 62701")%string.
  rewrite two_parties_extracted.
  split; [reflexivity|]. split; [reflexivity|].
  split; [vm_compute; reflexivity|]. split; [reflexivity|].
  split; [reflexivity|]. vm_compute. discriminate.
Qed.

Lemma contacts_are_positional_witness :
  PartyInfo.email acme = nth_error (findall0 emails_re two_parties) 0
  /\ PartyInfo.email beta = nth_error (findall0 emails_re two_parties) 1
  /\ PartyInfo.address beta = None.
Proof.
  assert (Hsp : Parties.service_provider (_extract_parties some_order two_parties)
                = Some acme) by (rewrite two_parties_extracted; reflexivity).
  assert (Hcu : Parties.customer (_extract_parties some_order two_parties)
                = Some beta) by (rewrite two_parties_extracted; reflexivity).
  pose proof (contacts_are_positional some_order two_parties acme beta Hsp Hcu) as H.
  cbv zeta in H. destruct H as [[He _] [He' _]].
  split; [exact He|]. split; [exact He'|]. reflexivity.
Defined.

Lemma returned_party_has_name_witness :
  exists n, PartyInfo.name beta = Some n /\ n <> "".
Proof.
  apply (returned_party_has_name some_order two_parties beta).
  right. rewrite two_parties_extracted. reflexivity.
Defined.

End PartiesFacts.

(* ------------------------------------------------------------------ *)
(** * The orchestrator and the gap analysis (C3, C5) *)

Module PipelineFacts.

Import PartiesFacts.

(** A document reader that yields the given text. *)
Definition reads (text : string) : list Byte.byte -> result string :=
  fun _ => Ok text.




Section Facts.

Variable set_iteration : list string -> list string.
Variable _extract_text_from_pdf : list Byte.byte -> result string.

(** The record the orchestrator builds from the six sub-records. *)
Definition aggregate (text : string) (fd : FinancialDetails.t)
    (pay : PaymentStructure.t) : ExtractedData.t :=
  {| ExtractedData.parties := Some (_extract_parties set_iteration text);
     ExtractedData.account_info := Some (_extract_account_info text);
     ExtractedData.financial_details := Some fd;
     ExtractedData.payment_structure := Some pay;
     ExtractedData.revenue_classification := Some (_extract_revenue_classification text);
     ExtractedData.sla_terms := Some (_extract_sla_terms text) |}.

(** C3, amended: for every input, the record parse_contract returns is the
    aggregate of the six sub-records, each as its extractor returns it on the
    text of the document (and parse_contract raises ValueError when the text
    cannot be read or an extractor raises); the fields of the record are the
    six declared ones, so the confidence score is not in it: it is what
    calculate_confidence_score computes from the returned record. *)
Theorem parse_contract_aggregates (pdf_content : list Byte.byte) :
  parse_contract set_iteration _extract_text_from_pdf pdf_content
  = reraise_value_error
      (text <- _extract_text_from_pdf pdf_content ;;
       fd <- _extract_financial_details text ;;
       pay <- _extract_payment_structure text ;;
       Ok (aggregate text fd pay))
  /\ forall d : ExtractedData.t,
       Dict.keys (ExtractedData.to_dict d) = ExtractedData.model_fields
       /\ ~ In "confidence_score" (Dict.keys (ExtractedData.to_dict d)).
Proof.
  split.
  - unfold parse_contract, parse_contract_kwargs.
    destruct (_extract_text_from_pdf pdf_content) as [text|e]; [|reflexivity].
    cbn [bind].
    destruct (_extract_financial_details text) as [fd|e]; [|reflexivity].
    cbn [bind].
    destruct (_extract_payment_structure text) as [pay|e]; reflexivity.
  - intros d. split; [reflexivity|].
    cbn. intros H.
    repeat (destruct H as [H|H]; [discriminate H|]). exact H.
Qed.


End Facts.

(** C3 as stated fails: for a document without text parse_contract returns a
    record, and neither the gap analysis nor the confidence score is in it. *)
Lemma no_gap_analysis_in_record :
  exists d,
    parse_contract some_order (reads "") [] = Ok d
    /\ ~ In "gap_analysis" (Dict.keys (ExtractedData.to_dict d))
    /\ ~ In "confidence_score" (Dict.keys (ExtractedData.to_dict d)).
Proof.
  destruct (parse_contract some_order (reads "") []) as [d|e] eqn:E;
    [|vm_compute in E; discriminate E].
  exists d. split; [reflexivity|].
  split; cbn; intros H; repeat (destruct H as [H|H]; [discriminate H|]); exact H.
Qed.


End PipelineFacts.

(* ------------------------------------------------------------------ *)
(** * What a match of a pattern consists of *)

Module MatchFacts.

(** [s] is [w] followed by [s']. *)
Definition splits (s w s' : string) : Prop := s = (w ++ s')%string.

(** All the characters of [w] satisfy [ok]. *)
Fixpoint all (ok : ascii -> bool) (w : string) : bool :=
  match w with
  | EmptyString => true
  | String c w' => ok c && all ok w'
  end.

(** [reps ok lo hi p s p' s']: a run of characters satisfying [ok], of a
    length within [lo] and [hi], leads from [s] to [s']. *)
Inductive reps (ok : ascii -> bool)
  : nat -> option nat -> option ascii -> string -> option ascii -> string -> Prop :=
| reps_stop (hi : option nat) (p : option ascii) (s : string) :
    reps ok 0 hi p s p s
| reps_step (lo : nat) (hi : option nat) (p : option ascii) (c : ascii) (s : string)
    (p' : option ascii) (s' : string) :
    ok c = true -> hi_open hi = true ->
    reps ok (pred lo) (option_map pred hi) (Some c) s p' s' ->
    reps ok lo hi p (String c s) p' s'.

(** [matches fl r p s cs p' s' cs']: the pattern [r] matches from the
    position [(p, s)] to the position [(p', s')], taking the captures from
    [cs] to [cs']. *)
Inductive matches (fl : flags)
  : regex -> option ascii -> string -> caps -> option ascii -> string -> caps -> Prop :=
| m_eps (p : option ascii) (s : string) (cs : caps) :
    matches fl Eps p s cs p s cs
| m_one (a : atom) (p : option ascii) (c : ascii) (s : string) (cs : caps) :
    atom_ok fl a c = true ->
    matches fl (One a) p (String c s) cs (Some c) s cs
| m_rep (a : atom) (lo : nat) (hi : option nat) (p : option ascii) (s : string)
    (cs : caps) (p' : option ascii) (s' : string) :
    reps (atom_ok fl a) lo hi p s p' s' ->
    matches fl (Rep a lo hi) p s cs p' s' cs
| m_cat (r1 r2 : regex) (p : option ascii) (s : string) (cs : caps)
    (p1 : option ascii) (s1 : string) (cs1 : caps)
    (p2 : option ascii) (s2 : string) (cs2 : caps) :
    matches fl r1 p s cs p1 s1 cs1 ->
    matches fl r2 p1 s1 cs1 p2 s2 cs2 ->
    matches fl (Cat r1 r2) p s cs p2 s2 cs2
| m_alt_l (r1 r2 : regex) (p : option ascii) (s : string) (cs : caps)
    (p' : option ascii) (s' : string) (cs' : caps) :
    matches fl r1 p s cs p' s' cs' ->
    matches fl (Alt r1 r2) p s cs p' s' cs'
| m_alt_r (r1 r2 : regex) (p : option ascii) (s : string) (cs : caps)
    (p' : option ascii) (s' : string) (cs' : caps) :
    matches fl r2 p s cs p' s' cs' ->
    matches fl (Alt r1 r2) p s cs p' s' cs'
| m_grp (i : nat) (r : regex) (p : option ascii) (s : string) (cs : caps)
    (p' : option ascii) (s' : string) (cs' : caps) :
    matches fl r p s cs p' s' cs' ->
    matches fl (Grp i r) p s cs p' s'
      ((i, Str.take (String.length s - String.length s') s) :: cs')
| m_bol (p : option ascii) (s : string) (cs : caps) :
    at_bol fl p = true -> matches fl Bol p s cs p s cs
| m_eol (p : option ascii) (s : string) (cs : caps) :
    at_eol fl s = true -> matches fl Eol p s cs p s cs
| m_wordb (p : option ascii) (s : string) (cs : caps) :
    xorb (is_word_opt p) (is_word_opt (head s)) = true ->
    matches fl WordB p s cs p s cs.

Lemma rep_sound (ok : ascii -> bool) (cs : caps) (k : cont) (res : string * caps)
    (s : string) :
  forall lo hi p,
    rep ok lo hi p s cs k = Some res ->
    exists p' s', reps ok lo hi p s p' s' /\ k p' s' cs = Some res.
Proof.
  induction s as [|c s IH]; intros lo hi p H; cbn [rep] in H.
  - destruct lo; [|discriminate H].
    exists p, EmptyString. split; [constructor|exact H].
  - destruct (ok c && hi_open hi) eqn:E.
    + apply andb_prop in E. destruct E as [Eok Ehi].
      destruct (rep ok (pred lo) (option_map pred hi) (Some c) s cs k) as [r|] eqn:Er.
      * injection H as <-. apply IH in Er. destruct Er as [p' [s' [Hr Hk]]].
        exists p', s'. split; [|exact Hk]. apply reps_step; assumption.
      * destruct lo; [|discriminate H].
        exists p, (String c s). split; [constructor|exact H].
    + destruct lo; [|discriminate H].
      exists p, (String c s). split; [constructor|exact H].
Qed.

(** What the matcher finds is a match. *)
Lemma exec_sound (fl : flags) (r : regex) :
  forall p s cs k res,
    exec fl r p s cs k = Some res ->
    exists p' s' cs', matches fl r p s cs p' s' cs' /\ k p' s' cs' = Some res.
Proof.
  induction r as [|a|a lo hi|r1 IH1 r2 IH2|r1 IH1 r2 IH2|i r IH| | |];
    intros p s cs k res H; cbn [exec] in H.
  - exists p, s, cs. split; [constructor|exact H].
  - destruct s as [|c s]; [discriminate H|].
    destruct (atom_ok fl a c) eqn:E; [|discriminate H].
    exists (Some c), s, cs. split; [constructor; exact E|exact H].
  - apply rep_sound in H. destruct H as [p' [s' [Hr Hk]]].
    exists p', s', cs. split; [constructor; exact Hr|exact Hk].
  - apply IH1 in H. destruct H as [p1 [s1 [cs1 [H1 H]]]].
    apply IH2 in H. destruct H as [p2 [s2 [cs2 [H2 H]]]].
    exists p2, s2, cs2. split; [econstructor; eassumption|exact H].
  - destruct (exec fl r1 p s cs k) as [x|] eqn:E.
    + injection H as <-. apply IH1 in E. destruct E as [p' [s' [cs' [H1 H]]]].
      exists p', s', cs'. split; [apply m_alt_l; exact H1|exact H].
    + apply IH2 in H. destruct H as [p' [s' [cs' [H2 H]]]].
      exists p', s', cs'. split; [apply m_alt_r; exact H2|exact H].
  - apply IH in H. destruct H as [p' [s' [cs' [H1 H]]]].
    eexists p', s', _. split; [apply m_grp; exact H1|exact H].
  - destruct (at_bol fl p) eqn:E; [|discriminate H].
    exists p, s, cs. split; [constructor; exact E|exact H].
  - destruct (at_eol fl s) eqn:E; [|discriminate H].
    exists p, s, cs. split; [constructor; exact E|exact H].
  - destruct (xorb (is_word_opt p) (is_word_opt (head s))) eqn:E; [|discriminate H].
    exists p, s, cs. split; [constructor; exact E|exact H].
Qed.

(** A run is a prefix of characters that satisfy the test, at least [lo] of
    them. *)
Lemma reps_split (ok : ascii -> bool) (lo : nat) (hi : option nat)
    (p : option ascii) (s : string) (p' : option ascii) (s' : string) :
  reps ok lo hi p s p' s' ->
  exists w, splits s w s' /\ all ok w = true /\ (lo <= String.length w)%nat.
Proof.
  induction 1 as [hi p s|lo hi p c s p' s' Hok Hhi _ IH].
  - exists EmptyString. split; [reflexivity|]. split; [reflexivity|]. cbn. lia.
  - destruct IH as [w [Hs [Ha Hl]]].
    exists (String c w). unfold splits in *. rewrite Hs.
    split; [reflexivity|]. cbn [all String.length]. rewrite Hok, Ha.
    split; [reflexivity|]. lia.
Qed.

Lemma length_append (a b : string) :
  String.length (a ++ b) = (String.length a + String.length b)%nat.
Proof. induction a as [|c a IH]; cbn; [reflexivity|]. rewrite IH. reflexivity. Qed.

Lemma take_append (w s' : string) :
  Str.take (String.length (w ++ s') - String.length s') (w ++ s')%string = w.
Proof.
  rewrite length_append.
  replace (String.length w + String.length s' - String.length s')%nat
    with (String.length w) by lia.
  induction w as [|c w IH]; cbn.
  - destruct s'; reflexivity.
  - rewrite IH. reflexivity.
Qed.

(** [(a{lo,hi})] captures a run of characters of the class. *)
Lemma grp_rep_inv (fl : flags) (i : nat) (a : atom) (lo : nat) (hi : option nat)
    (p : option ascii) (s : string) (cs : caps)
    (p' : option ascii) (s' : string) (cs' : caps) :
  matches fl (Grp i (Rep a lo hi)) p s cs p' s' cs' ->
  exists w,
    cs' = (i, w) :: cs /\ all (atom_ok fl a) w = true /\ (lo <= String.length w)%nat.
Proof.
  intros H. inversion H as [| | | | | |i0 r0 p0 s0 cs0 p0' s0' cs0' Hr| | |]; subst.
  inversion Hr as [| |a0 lo0 hi0 p1 s1 cs1 p1' s1' Hreps| | | | | | |]; subst.
  apply reps_split in Hreps. destruct Hreps as [w [Hs [Ha Hl]]].
  exists w. unfold splits in Hs. subst s. rewrite take_append.
  split; [reflexivity|]. split; assumption.
Qed.

Lemma cat_inv (fl : flags) (r1 r2 : regex) (p : option ascii) (s : string) (cs : caps)
    (p2 : option ascii) (s2 : string) (cs2 : caps) :
  matches fl (Cat r1 r2) p s cs p2 s2 cs2 ->
  exists p1 s1 cs1,
    matches fl r1 p s cs p1 s1 cs1 /\ matches fl r2 p1 s1 cs1 p2 s2 cs2.
Proof.
  intros H. inversion H; subst. eexists _, _, _. split; eassumption.
Qed.

(** The numbers of the groups of a pattern. *)
Fixpoint groups (r : regex) : list nat :=
  match r with
  | Cat r1 r2 | Alt r1 r2 => groups r1 ++ groups r2
  | Grp i r1 => i :: groups r1
  | _ => []
  end.

(** A match leaves the captures of the groups it does not contain. *)
Lemma group_kept (fl : flags) (i : nat) (r : regex) (p : option ascii) (s : string)
    (cs : caps) (p' : option ascii) (s' : string) (cs' : caps) :
  matches fl r p s cs p' s' cs' ->
  ~ In i (groups r) -> group i cs' = group i cs.
Proof.
  induction 1 as [ | | |r1 r2 p s cs p1 s1 cs1 p2 s2 cs2 _ IH1 _ IH2
                  |r1 r2 p s cs p' s' cs' _ IH|r1 r2 p s cs p' s' cs' _ IH
                  |j r p s cs p' s' cs' _ IH| | | ];
    cbn [groups]; intros Hn; try reflexivity.
  - rewrite IH2, IH1; [reflexivity| |]; intros Hin; apply Hn, in_or_app; tauto.
  - apply IH. intros Hin. apply Hn, in_or_app. tauto.
  - apply IH. intros Hin. apply Hn, in_or_app. tauto.
  - cbn [group]. destruct (Nat.eqb i j) eqn:E.
    + apply Nat.eqb_eq in E. subst j. exfalso. apply Hn. left. reflexivity.
    + apply IH. intros Hin. apply Hn. right. exact Hin.
Qed.

(** The matches [finditer] lists are matches at some position of the text. *)
Lemma scan_in (pat : pattern) (x : string * caps) (s : string) :
  forall prev skip,
    In x (scan pat prev s skip) -> exists prev' s', match_here pat prev' s' = Some x.
Proof.
  induction s as [|c s IH]; intros prev skip H.
  - destruct skip; cbn [scan] in H; [|destruct H].
    destruct (match_here pat prev EmptyString) as [[m cs]|] eqn:E; [|destruct H].
    destruct H as [<-|[]]. exists prev, EmptyString. exact E.
  - destruct skip; cbn [scan] in H; [|exact (IH _ _ H)].
    destruct (match_here pat prev (String c s)) as [[m cs]|] eqn:E.
    + destruct H as [<-|H]; [exists prev, (String c s); exact E|exact (IH _ _ H)].
    + exact (IH _ _ H).
Qed.

(** A match at a position, as the relation sees it. *)
Lemma match_here_sound (pat : pattern) (prev : option ascii) (s m : string) (cs : caps) :
  match_here pat prev s = Some (m, cs) ->
  exists p' s', matches (p_flags pat) (p_re pat) prev s [] p' s' cs.
Proof.
  unfold match_here. intros H.
  destruct (exec (p_flags pat) (p_re pat) prev s [] (fun _ s1 cs1 => Some (s1, cs1)))
    as [[s1 cs1]|] eqn:E; [|discriminate H].
  injection H as _ <-.
  apply exec_sound in E. destruct E as [p' [s' [cs' [Hm Hk]]]].
  injection Hk as _ <-. exists p', s'. exact Hm.
Qed.

(** A non-empty string of digits is read by [int]. *)
Lemma read_all_digits (w : string) :
  all Str.is_digit w = true ->
  forall acc n, exists z, Num.read_digits acc n w = (z, (n + String.length w)%nat, EmptyString).
Proof.
  induction w as [|c w IH]; intros Ha acc n; cbn [Num.read_digits String.length].
  - exists acc. rewrite Nat.add_0_r. reflexivity.
  - cbn [all] in Ha. apply andb_prop in Ha. destruct Ha as [Hc Hw]. rewrite Hc.
    destruct (IH Hw (10 * acc + Num.digit_val c)%Z (S n)) as [z Hz].
    exists z. rewrite Hz. f_equal. f_equal. lia.
Qed.

(** The number a string of digits writes. *)
Definition int_value (w : string) : Z := fst (fst (Num.read_digits 0 0 w)).

(** [int] of a non-empty string of digits: its value when the digits are
    within the limit, and [ValueError] when they are more. *)
Lemma py_int_digits (w : string) :
  all Str.is_digit w = true -> (1 <= String.length w)%nat ->
  Num.py_int w
  = if (N.of_nat (String.length w) <=? Num.int_max_str_digits)%N
    then Ok (int_value w) else Raise ValueError.
Proof.
  intros Ha Hl. unfold Num.py_int, int_value.
  destruct (read_all_digits w Ha 0%Z 0%nat) as [z Hz]. rewrite Hz.
  destruct w as [|c w]; [cbn in Hl; lia|]. reflexivity.
Qed.

(** The class [[0-9]] holds the decimal digits, with or without
    [IGNORECASE]. *)
Lemma d09_digit (fl : flags) (c : ascii) :
  atom_ok fl Patterns.d09 c = Str.is_digit c.
Proof.
  unfold Patterns.d09, cls. cbn [atom_ok existsb item_ok xorb].
  rewrite orb_false_r. unfold Str.is_digit.
  destruct (Str.between "0" "9" c) eqn:E; [reflexivity|].
  cbn [orb]. destruct (icase fl); [|reflexivity]. cbn [andb].
  unfold Str.swap_case, Str.is_upper, Str.is_lower, Str.between, Str.code in *.
  change (N_of_ascii "0") with 48%N in *. change (N_of_ascii "9") with 57%N in *.
  change (N_of_ascii "A") with 65%N. change (N_of_ascii "Z") with 90%N.
  change (N_of_ascii "a") with 97%N. change (N_of_ascii "z") with 122%N.
  destruct ((65 <=? N_of_ascii c)%N && (N_of_ascii c <=? 90)%N) eqn:Eu.
  - apply andb_prop in Eu. destruct Eu as [E1 E2].
    apply N.leb_le in E1. apply N.leb_le in E2.
    rewrite N_ascii_embedding by lia.
    apply andb_false_iff. right. apply N.leb_gt. lia.
  - destruct ((97 <=? N_of_ascii c)%N && (N_of_ascii c <=? 122)%N) eqn:El; [|exact E].
    apply andb_prop in El. destruct El as [E1 E2].
    apply N.leb_le in E1. apply N.leb_le in E2.
    rewrite N_ascii_embedding by lia.
    apply andb_false_iff. right. apply N.leb_gt. lia.
Qed.

Lemma all_ext (f g : ascii -> bool) (w : string) :
  (forall c, f c = g c) -> all f w = all g w.
Proof.
  intros H. induction w as [|c w IH]; cbn [all]; [reflexivity|].
  rewrite H, IH. reflexivity.
Qed.

(** In every match of the hourly pattern the hours are a non-empty string of
    digits. *)
Lemma hourly_hours_digits (text service hours total : string) :
  In (service, hours, total) (findall3 hourly_pattern text) ->
  all Str.is_digit hours = true /\ (1 <= String.length hours)%nat.
Proof.
  unfold findall3, finditer. intros H.
  apply in_map_iff in H. destruct H as [[m cs] [E H]].
  cbn [snd] in E. injection E as _ Eh _.
  apply scan_in in H. destruct H as [prev [s H]].
  apply match_here_sound in H. destruct H as [p' [s' H]].
  unfold hourly_pattern in H. cbn [p_flags p_re seq] in H.
  apply cat_inv in H. destruct H as [p1 [s1 [cs1 [_ H]]]].
  apply cat_inv in H. destruct H as [p2 [s2 [cs2 [_ H]]]].
  apply cat_inv in H. destruct H as [p3 [s3 [cs3 [_ H]]]].
  apply cat_inv in H. destruct H as [p4 [s4 [cs4 [Hg H]]]].
  unfold plus in Hg. apply grp_rep_inv in Hg. destruct Hg as [w [-> [Ha Hl]]].
  apply (group_kept _ 2) in H.
  - cbn [group Nat.eqb] in H. unfold group_str in Eh. rewrite H in Eh. subst w.
    split; [|exact Hl].
    rewrite <- Ha. apply all_ext. intros c. symmetry. apply d09_digit.
  - cbn. intros [E|[]]. discriminate E.
Qed.

End MatchFacts.

(* ------------------------------------------------------------------ *)
(** * The financial extractor, step by step *)

Module FinancialFacts.

Local Open Scope Z_scope.

Lemma bind_ok {A B : Type} (m : result A) (f : A -> result B) (b : B) :
  bind m f = Ok b -> exists a, m = Ok a /\ f a = Ok b.
Proof.
  destruct m as [a|e]; cbn; intros H; [|discriminate H].
  exists a. split; [reflexivity|exact H].
Qed.

Lemma mapM_ok {A B : Type} (f : A -> result B) (l : list A) (ys : list B) :
  mapM f l = Ok ys -> Forall2 (fun x y => f x = Ok y) l ys.
Proof.
  revert ys. induction l as [|x l IH]; cbn [mapM]; intros ys H.
  - injection H as <-. constructor.
  - apply bind_ok in H. destruct H as [y [Hy H]].
    apply bind_ok in H. destruct H as [ys' [Hys H]].
    injection H as <-. constructor; [exact Hy|]. apply IH. exact Hys.
Qed.

Lemma digit_val_nonneg (c : ascii) : Str.is_digit c = true -> 0 <= Num.digit_val c.
Proof.
  unfold Str.is_digit, Str.between, Num.digit_val. intros H.
  apply andb_prop in H. destruct H as [H _].
  apply N.leb_le in H. change (Str.code "0") with 48%N in H. lia.
Qed.

Lemma read_digits_nonneg (s : string) :
  forall acc n, 0 <= acc -> 0 <= fst (fst (Num.read_digits acc n s)).
Proof.
  induction s as [|c s IH]; intros acc n Hacc; cbn [Num.read_digits].
  - exact Hacc.
  - destruct (Str.is_digit c) eqn:Hd; [|exact Hacc].
    apply IH. pose proof (digit_val_nonneg c Hd). lia.
Qed.

(** [int] of a string of digits is not negative. *)
Lemma py_int_nonneg (s : string) (n : Z) : Num.py_int s = Ok n -> 0 <= n.
Proof.
  unfold Num.py_int. pose proof (read_digits_nonneg s 0 0 (Z.le_refl 0)) as H.
  destruct (Num.read_digits 0 0 s) as [[z k] r]. cbn [fst] in H.
  destruct k; [discriminate|]. destruct r; [|discriminate].
  destruct (N.of_nat (S k) <=? Num.int_max_str_digits)%N; [|discriminate].
  intros E. injection E as <-. exact H.
Qed.

(** The line item of a match of the hourly pattern, for the number of hours
    [n] and the total [t]. *)
Definition hourly_line_item (service : string) (n : Z) (t : float) : LineItem.t :=
  {| LineItem.service := Some (collapse_spaces service);
     LineItem.quantity := Some n;
     LineItem.unit := Some "hour";
     LineItem.unit_price := Some (if n =? 0 then 0%float else (t / Num.float_of_Z n)%float);
     LineItem.monthly_total := Some t |}.

(** The loop body on a match whose hours and total are read as [n] and [t]:
    the line item, unless [n] is too large for a float. *)
Lemma hourly_item_eq (service hours total : string) (n : Z) (t : float) :
  Num.py_int hours = Ok n ->
  to_amount total = Ok t ->
  hourly_item (service, hours, total)
  = if n <? Num.float_overflow then Ok (hourly_line_item service n t)
    else Raise OverflowError.
Proof.
  intros Hn Ht. pose proof (py_int_nonneg _ _ Hn) as Hpos.
  unfold hourly_item. rewrite Hn. cbn [bind]. rewrite Ht. cbn [bind].
  unfold hourly_line_item.
  destruct (0 <? n) eqn:E0.
  - apply Z.ltb_lt in E0. unfold Num.truediv, Num.int_to_float.
    rewrite Z.abs_eq by exact Hpos.
    destruct (n <? Num.float_overflow); cbn [bind]; [|reflexivity].
    destruct (n =? 0) eqn:E; [apply Z.eqb_eq in E; lia|]. reflexivity.
  - apply Z.ltb_ge in E0. assert (n = 0) by lia. subst n. reflexivity.
Qed.

(** What the loop body returns is such a line item. *)
Lemma hourly_item_ok (service hours total : string) (item : LineItem.t) :
  hourly_item (service, hours, total) = Ok item ->
  exists n t,
    Num.py_int hours = Ok n /\ to_amount total = Ok t
    /\ 0 <= n < Num.float_overflow
    /\ item = hourly_line_item service n t.
Proof.
  intros H.
  destruct (Num.py_int hours) as [n|e] eqn:Hn;
    [|unfold hourly_item in H; rewrite Hn in H; discriminate H].
  destruct (to_amount total) as [t|e] eqn:Ht.
  - rewrite (hourly_item_eq service hours total n t Hn Ht) in H.
    destruct (n <? Num.float_overflow) eqn:E; [|discriminate H].
    injection H as <-. exists n, t.
    apply Z.ltb_lt in E. pose proof (py_int_nonneg _ _ Hn).
    repeat split; try reflexivity; lia.
  - unfold hourly_item in H. rewrite Hn, Ht in H. cbn [bind] in H.
    destruct (0 <? n); cbn [bind] in H; discriminate H.
Qed.

(** The financial details, step by step, when the extractor returns. *)
Lemma extract_ok (text : string) (fd : FinancialDetails.t) :
  _extract_financial_details text = Ok fd ->
  exists items_a items_b monthly_costs setup acv,
    mapM service_item (findall3 service_rate_pattern text) = Ok items_a
    /\ mapM hourly_item (findall3 hourly_pattern text) = Ok items_b
    /\ first_amount "Monthly Total" (findall monthly_pattern text) = Ok monthly_costs
    /\ first_amount "Setup Fee" (findall setup_pattern text) = Ok setup
    /\ match findall annual_pattern text with
       | a :: _ => v <- to_amount a ;; Ok (Some (Num.Float v))
       | [] =>
           if Num.gt0 (total monthly_costs) then
             months <- contract_months text ;;
             v <- Num.mul (total monthly_costs) months ;; Ok (Some v)
           else Ok None
       end = Ok acv
    /\ fd = {| FinancialDetails.line_items := nonempty (items_a ++ items_b);
               FinancialDetails.monthly_costs := nonempty monthly_costs;
               FinancialDetails.one_time_costs :=
                 nonempty (add_fixed_fees (items_a ++ items_b) setup);
               FinancialDetails.total_monthly := Some (total monthly_costs);
               FinancialDetails.total_one_time :=
                 Some (total (add_fixed_fees (items_a ++ items_b) setup));
               FinancialDetails.annual_contract_value := acv;
               FinancialDetails.currency := Some "USD" |}.
Proof.
  unfold _extract_financial_details. intros H.
  apply bind_ok in H. destruct H as [amounts [_ H]].
  apply bind_ok in H. destruct H as [items_a [Ha H]].
  apply bind_ok in H. destruct H as [items_b [Hb H]].
  apply bind_ok in H. destruct H as [monthly_costs [Hm H]].
  apply bind_ok in H. destruct H as [setup [Hs H]].
  apply bind_ok in H. destruct H as [acv [Hv H]].
  injection H as <-.
  exists items_a, items_b, monthly_costs, setup, acv.
  repeat split; assumption.
Qed.

Definition ten_hours : string := "Consulting: 10 hours ($1000)".

(** [n] zeros. *)
Fixpoint zeros (n : nat) : string :=
  match n with
  | O => EmptyString
  | S n' => String "0" (zeros n')
  end.

(** The limit of [int] counts the leading zeros. *)
Example int_within_limit : Num.py_int (zeros 4300) = Ok 0.
Proof. vm_compute. reflexivity. Qed.

Example int_beyond_limit : Num.py_int (zeros 4301) = Raise ValueError.
Proof. vm_compute. reflexivity. Qed.

(** A number of hours of 310 digits: 10^309. *)
Definition huge_hours : string :=
  ("Consulting: 1" ++ zeros 309 ++ " hours ($1000)")%string.

(** C4 as stated fails: the pattern matches with N = 10^309, and the
    division total/N raises OverflowError, so the extractor raises. *)
Lemma division_overflows :
  findall3 hourly_pattern huge_hours
    = [("Consulting", String "1" (zeros 309), "1000")]
  /\ Num.py_int (String "1" (zeros 309)) = Ok (10 ^ 309)
  /\ hourly_item ("Consulting", String "1" (zeros 309), "1000") = Raise OverflowError
  /\ _extract_financial_details huge_hours = Raise OverflowError.
Proof.
  split; [vm_compute; reflexivity|].
  split; [vm_compute; reflexivity|].
  split; vm_compute; reflexivity.
Qed.

(** The number of months of the contract term: the first match of
    "Term/Duration/Contract Period: <N> months", and 12 without a match. *)
Definition term_is (text : string) (months : Z) : Prop :=
  match findall Patterns.contract_term text with
  | t :: _ => Num.py_int t = Ok months
  | [] => months = 12
  end.

(** A monthly total and a term of 24 months. *)
Definition two_years : string := "Monthly Service Total: $500 Term: 24 months".

Example annual_value_of_two_years :
  fmap FinancialDetails.annual_contract_value (_extract_financial_details two_years)
  = Ok (Some (Num.Float 12000)).
Proof. vm_compute. reflexivity. Qed.

(** The rule on further texts: an explicit annual value wins over the
    monthly total, and without a term the factor is 12. *)
Example annual_value_explicit :
  fmap FinancialDetails.annual_contract_value
    (_extract_financial_details
       "Monthly Total: $500 Term: 24 months Annual Contract Value: $7,000.50")
  = Ok (Some (Num.Float 7000.5)).
Proof. vm_compute. reflexivity. Qed.

Example annual_value_default_term :
  fmap FinancialDetails.annual_contract_value
    (_extract_financial_details "Monthly Total: $500")
  = Ok (Some (Num.Float 6000)).
Proof. vm_compute. reflexivity. Qed.

Example annual_value_absent :
  fmap FinancialDetails.annual_contract_value
    (_extract_financial_details "Setup Fee: $500 Term: 24 months")
  = Ok None.
Proof. vm_compute. reflexivity. Qed.

End FinancialFacts.

(* ------------------------------------------------------------------ *)
(** * Matching literal words (for C7) *)

Module WordFacts.

Definition is_some {A : Type} (o : option A) : bool :=
  match o with Some _ => true | None => false end.

(** Equality of two characters up to the case of the ASCII letters. *)
Definition ci_eq (a b : ascii) : bool :=
  Ascii.eqb (Str.fold_case a) (Str.fold_case b).

(** [s] starts with [w], up to case. *)
Fixpoint prefix_ci (w s : string) : bool :=
  match w, s with
  | EmptyString, _ => true
  | String a w', String b s' => ci_eq b a && prefix_ci w' s'
  | String _ _, EmptyString => false
  end.

(** Some suffix of [s] satisfies [here]: the text has an occurrence. *)
Fixpoint occurs (here : string -> bool) (s : string) : bool :=
  here s ||
  match s with
  | String _ s' => occurs here s'
  | EmptyString => false
  end.

(** [w] occurs in [s], up to case. *)
Definition contains_ci (w s : string) : bool := occurs (prefix_ci w) s.

(** The position after [n] characters of [s]: the character before it and
    the rest. *)
Fixpoint advance (n : nat) (prev : option ascii) (s : string) : option ascii * string :=
  match n, s with
  | S n', String c s' => advance n' (Some c) s'
  | _, _ => (prev, s)
  end.

Definition final : cont := fun _ s1 cs1 => Some (s1, cs1).

Lemma exec_str (w : string) :
  forall prev s cs k,
    exec IGNORECASE (str w) prev s cs k
    = if prefix_ci w s
      then k (fst (advance (String.length w) prev s))
             (snd (advance (String.length w) prev s)) cs
      else None.
Proof.
  induction w as [|c w IH]; intros prev s cs k.
  - reflexivity.
  - destruct w as [|d w].
    + cbn [str exec prefix_ci String.length advance].
      destruct s as [|x s]; [reflexivity|].
      cbn [atom_ok icase IGNORECASE]. fold (ci_eq x c).
      destruct (ci_eq x c); [|reflexivity].
      cbn [andb]. destruct s; reflexivity.
    + change (str (String c (String d w)))
        with (Cat (One (Lit c)) (str (String d w))).
      cbn [exec]. destruct s as [|x s]; [reflexivity|].
      cbn [atom_ok icase IGNORECASE]. fold (ci_eq x c).
      change (prefix_ci (String c (String d w)) (String x s))
        with (ci_eq x c && prefix_ci (String d w) s).
      destruct (ci_eq x c); [|reflexivity].
      rewrite IH. reflexivity.
Qed.

Lemma exec_str_final (w : string) (prev : option ascii) (s : string) :
  is_some (exec IGNORECASE (str w) prev s [] final) = prefix_ci w s.
Proof. rewrite exec_str. destruct (prefix_ci w s); reflexivity. Qed.

Lemma exec_alt_final (r1 r2 : regex) (prev : option ascii) (s : string) :
  is_some (exec IGNORECASE (Alt r1 r2) prev s [] final)
  = is_some (exec IGNORECASE r1 prev s [] final)
    || is_some (exec IGNORECASE r2 prev s [] final).
Proof. cbn [exec]. destruct (exec IGNORECASE r1 prev s [] final); reflexivity. Qed.

(** An alternation of literal words matches at a position exactly when one
    of the words starts there. *)
Lemma exec_words_final (w : string) (ws : list string) (prev : option ascii) (s : string) :
  is_some (exec IGNORECASE (words (w :: ws)) prev s [] final)
  = existsb (fun x => prefix_ci x s) (w :: ws).
Proof.
  revert w. induction ws as [|w' ws IH]; intros w.
  - cbn [words List.map alts existsb]. rewrite exec_str_final, orb_false_r. reflexivity.
  - change (words (w :: w' :: ws)) with (Alt (str w) (words (w' :: ws))).
    rewrite exec_alt_final, exec_str_final, IH. reflexivity.
Qed.

Lemma match_here_some (p : pattern) (prev : option ascii) (s : string) :
  is_some (match_here p prev s) = is_some (exec (p_flags p) (p_re p) prev s [] final).
Proof.
  unfold match_here, final.
  destruct (exec (p_flags p) (p_re p) prev s [] (fun _ s1 cs1 => Some (s1, cs1)))
    as [[s1 cs1]|]; reflexivity.
Qed.

(** A pattern whose matches at a position are decided by [here] is found in
    a text exactly when [here] holds somewhere in it. *)
Lemma found_occurs (p : pattern) (here : string -> bool) :
  (forall prev s, is_some (match_here p prev s) = here s) ->
  forall text, found p text = occurs here text.
Proof.
  intros H text. unfold found, search.
  change (match search_from p None text with Some _ => true | None => false end)
    with (is_some (search_from p None text)).
  generalize (@None ascii) as prev.
  induction text as [|c s IH]; intros prev; cbn [search_from occurs].
  - rewrite <- (H prev EmptyString).
    destruct (match_here p prev EmptyString); reflexivity.
  - rewrite <- (H prev (String c s)), <- (IH (Some c)).
    destruct (match_here p prev (String c s)); reflexivity.
Qed.

Lemma occurs_orb (f g : string -> bool) (s : string) :
  occurs (fun x => f x || g x) s = occurs f s || occurs g s.
Proof.
  induction s as [|c s IH]; cbn [occurs].
  - rewrite !orb_false_r. reflexivity.
  - rewrite IH. destruct (f (String c s)), (g (String c s)), (occurs f s), (occurs g s);
      reflexivity.
Qed.

Lemma occurs_ext (f g : string -> bool) (s : string) :
  (forall x, f x = g x) -> occurs f s = occurs g s.
Proof.
  intros H. induction s as [|c s IH]; cbn [occurs]; rewrite H; [reflexivity|].
  rewrite IH. reflexivity.
Qed.

Lemma occurs_false (s : string) : occurs (fun _ => false) s = false.
Proof. induction s as [|c s IH]; cbn [occurs]; [reflexivity|exact IH]. Qed.

(** One of the words occurs in the text exactly when some position starts
    one of the words. *)
Lemma occurs_existsb (ws : list string) (s : string) :
  occurs (fun x => existsb (fun w => prefix_ci w x) ws) s
  = existsb (fun w => contains_ci w s) ws.
Proof.
  induction ws as [|w ws IH]; cbn [existsb].
  - apply occurs_false.
  - rewrite occurs_orb, IH. reflexivity.
Qed.

(** A pattern that is an alternation of literal words is found in a text
    exactly when one of the words occurs in it, up to case. *)
Lemma found_words (w : string) (ws : list string) (text : string) :
  found (compile IGNORECASE (words (w :: ws))) text
  = existsb (fun x => contains_ci x text) (w :: ws).
Proof.
  rewrite (found_occurs _ (fun x => existsb (fun w' => prefix_ci w' x) (w :: ws))).
  - apply occurs_existsb.
  - intros prev s. rewrite match_here_some. apply exec_words_final.
Qed.

End WordFacts.

(* ------------------------------------------------------------------ *)
(** * Revenue classification (C7) *)

Module RevenueFacts.

Import WordFacts.

Definition recurring_words : list string :=
  ["recurring"; "subscription"; "monthly"; "quarterly"; "annual"].

(** The type as the claim states it: by the keywords of the two classes. *)
Definition claimed_type (text : string) : string :=
  if existsb (fun w => contains_ci w text) recurring_words then "recurring"
  else if existsb (fun w => contains_ci w text) ["one-time"; "single payment"; "lump sum"]
       then "one-time"
       else "mixed".

(** "one", then at most one character other than a newline, then "time",
    up to case, at the start of [s]. *)
Definition one_time_here (s : string) : bool :=
  prefix_ci "one" s &&
  match snd (advance 3 None s) with
  | String c r =>
      (negb (Ascii.eqb c newline) && prefix_ci "time" r) || prefix_ci "time" (String c r)
  | EmptyString => false
  end.

(** The type as the code decides it. *)
Definition decided_type (text : string) : string :=
  if existsb (fun w => contains_ci w text) recurring_words then "recurring"
  else if occurs one_time_here text
          || contains_ci "single payment" text || contains_ci "lump sum" text
       then "one-time"
       else "mixed".

Lemma advance_snd (n : nat) (p q : option ascii) (s : string) :
  snd (advance n p s) = snd (advance n q s).
Proof.
  revert p q s. induction n as [|n IH]; intros p q s; [reflexivity|].
  destruct s as [|c s]; [reflexivity|]. cbn [advance]. reflexivity.
Qed.

Lemma rep_none_left (ok : ascii -> bool) (prev : option ascii) (s : string)
    (cs : caps) (k : cont) :
  rep ok 0 (Some 0%nat) prev s cs k = k prev s cs.
Proof.
  destruct s as [|c s]; cbn [rep hi_open]; [reflexivity|].
  rewrite andb_false_r. reflexivity.
Qed.

(** [.?time] at a position. *)
Lemma exec_opt_dot_time (prev : option ascii) (s : string) :
  is_some (exec IGNORECASE (Cat (opt Dot) (str "time")) prev s [] final)
  = match s with
    | String c r =>
        (negb (Ascii.eqb c newline) && prefix_ci "time" r) || prefix_ci "time" (String c r)
    | EmptyString => false
    end.
Proof.
  unfold opt. cbn [exec].
  destruct s as [|c r].
  - cbn [rep]. rewrite exec_str_final. reflexivity.
  - cbn [rep hi_open atom_ok option_map pred]. rewrite andb_true_r.
    destruct (negb (Ascii.eqb c newline)).
    + rewrite rep_none_left.
      pose proof (exec_str_final "time" (Some c) r) as H1.
      pose proof (exec_str_final "time" prev (String c r)) as H2.
      destruct (exec IGNORECASE (str "time") (Some c) r [] final).
      * cbn [is_some] in H1. rewrite <- H1. reflexivity.
      * cbn [is_some] in H1. rewrite <- H1. cbn [andb orb]. exact H2.
    + cbn [andb orb]. apply exec_str_final.
Qed.

(** [one.?time|single payment|lump sum] at a position. *)
Lemma one_time_re_here (prev : option ascii) (s : string) :
  is_some (match_here one_time_re prev s)
  = one_time_here s || prefix_ci "single payment" s || prefix_ci "lump sum" s.
Proof.
  rewrite match_here_some. unfold one_time_re.
  cbn [p_flags p_re alts seq].
  rewrite !exec_alt_final, !exec_str_final, <- orb_assoc. f_equal.
  cbn [exec]. rewrite exec_str. unfold one_time_here.
  destruct (prefix_ci "one" s); [|reflexivity].
  cbn [andb]. rewrite (advance_snd 3 prev None).
  apply (exec_opt_dot_time (fst (advance (String.length "one") prev s))).
Qed.

Lemma found_one_time (text : string) :
  found one_time_re text
  = occurs one_time_here text
    || contains_ci "single payment" text || contains_ci "lump sum" text.
Proof.
  rewrite (found_occurs _ _ one_time_re_here).
  unfold contains_ci. rewrite !occurs_orb. reflexivity.
Qed.

(** C7, amended: the type is exactly one of "recurring", "one-time" and
    "mixed", it is never absent, and it is decided by priority: "recurring"
    if one of recurring, subscription, monthly, quarterly, annual occurs in
    the text (up to case); else "one-time" if "single payment" or "lump sum"
    occurs, or "one" and "time" separated by at most one character that is
    not a newline (as in one-time, one time, onetime); else "mixed".  A text
    with keywords of both classes is "recurring". *)
Theorem revenue_type_by_priority (text : string) :
  RevenueClassification.type (_extract_revenue_classification text)
  = Some (decided_type text)
  /\ In (decided_type text) ["recurring"; "one-time"; "mixed"]
  /\ (existsb (fun w => contains_ci w text) recurring_words = true ->
      RevenueClassification.type (_extract_revenue_classification text)
      = Some "recurring").
Proof.
  assert (E : RevenueClassification.type (_extract_revenue_classification text)
              = Some (decided_type text)).
  { unfold _extract_revenue_classification, decided_type.
    cbn [RevenueClassification.type].
    unfold recurring_re. unfold recurring_words.
    rewrite found_words, found_one_time.
    destruct (existsb (fun w => contains_ci w text)
                ["recurring"; "subscription"; "monthly"; "quarterly"; "annual"]);
      [reflexivity|].
    destruct (occurs one_time_here text || contains_ci "single payment" text
              || contains_ci "lump sum" text); reflexivity. }
  split; [exact E|]. split.
  - unfold decided_type.
    destruct (existsb (fun w => contains_ci w text) recurring_words); [cbn; tauto|].
    destruct (occurs one_time_here text || contains_ci "single payment" text
              || contains_ci "lump sum" text); cbn; tauto.
  - intros H. rewrite E. unfold decided_type. rewrite H. reflexivity.
Qed.

(** A text with keywords of both classes. *)
Definition both_classes : string := "A one-time setup fee, then monthly billing".

Lemma revenue_type_by_priority_witness :
  existsb (fun w => contains_ci w both_classes) recurring_words = true
  /\ contains_ci "one-time" both_classes = true
  /\ RevenueClassification.type (_extract_revenue_classification both_classes)
     = Some "recurring".
Proof.
  assert (H : existsb (fun w => contains_ci w both_classes) recurring_words = true)
    by (vm_compute; reflexivity).
  split; [exact H|]. split; [vm_compute; reflexivity|].
  exact (proj2 (proj2 (revenue_type_by_priority both_classes)) H).
Defined.

(** C7 as stated fails: in "onetime fee" no keyword of either class occurs,
    so the claim gives "mixed"; the code gives "one-time". *)
Lemma onetime_is_one_time :
  existsb (fun w => contains_ci w "onetime fee")
    (recurring_words ++ ["one-time"; "single payment"; "lump sum"]) = false
  /\ claimed_type "onetime fee" = "mixed"
  /\ RevenueClassification.type (_extract_revenue_classification "onetime fee")
     = Some "one-time"
  /\ RevenueClassification.type (_extract_revenue_classification "onetime fee")
     <> Some (claimed_type "onetime fee").
Proof.
  split; [vm_compute; reflexivity|].
  split; [vm_compute; reflexivity|].
  split; [vm_compute; reflexivity|].
  vm_compute. discriminate.
Qed.

End RevenueFacts.

(* ------------------------------------------------------------------ *)
(** * The gap analysis and the score together *)

Module GapFacts.

Local Open Scope Z_scope.

Lemma in_append_if_iff (x y : string) (b : bool) (l : list string) :
  In x (append_if b y l) <-> (b = true /\ x = y) \/ In x l.
Proof.
  unfold append_if. destruct b; split.
  - intros H. apply in_app_or in H. destruct H as [H|[H|[]]]; [right; exact H|].
    left. split; [reflexivity|]. symmetry. exact H.
  - intros [[_ ->]|H]; apply in_or_app; [right; left; reflexivity|left; exact H].
  - intros H. right. exact H.
  - intros [[H _]|H]; [discriminate H|exact H].
Qed.

Lemma append_if_nil (b : bool) (y : string) (l : list string) :
  append_if b y l = [] -> b = false /\ l = [].
Proof.
  unfold append_if. destruct b; intros H.
  - destruct l; discriminate H.
  - split; [reflexivity|exact H].
Qed.

(** The notes, from the two lists (lines 529-541). *)
Definition notes_of (missing_fields incomplete_fields : list string) : option string :=
  let notes := [] in
  let notes :=
    if truthy_list missing_fields then
      notes ++ [("Contract is missing " ++ Str.of_nat (List.length missing_fields)
                 ++ " critical fields")%string]
    else notes in
  let notes :=
    if truthy_list incomplete_fields then
      notes ++ [("Contract has " ++ Str.of_nat (List.length incomplete_fields)
                 ++ " incomplete sections")%string]
    else notes in
  let notes :=
    if negb (truthy_list missing_fields) && negb (truthy_list incomplete_fields) then
      notes ++ ["Contract appears to be comprehensive with all major sections present"]
    else notes in
  if truthy_list notes then Some (Str.join "; " notes) else None.

(** The report as its two lists and the notes made of them. *)
Lemma analyze_gaps_shape (parties : Parties.t) (fd : FinancialDetails.t)
    (pay : PaymentStructure.t) (sla : SLATerms.t) :
  exists missing incomplete,
    _analyze_gaps parties fd pay sla
    = {| GapAnalysis.missing_fields := Some missing;
         GapAnalysis.incomplete_fields := Some incomplete;
         GapAnalysis.notes := notes_of missing incomplete |}.
Proof. eexists. eexists. reflexivity. Qed.

Definition comprehensive : string :=
  "Contract appears to be comprehensive with all major sections present".

(** The notes are never None: there is a count for each list that is not
    empty, and the affirmative sentence exactly when both lists are empty. *)
Theorem notes_always_written (parties : Parties.t) (fd : FinancialDetails.t)
    (pay : PaymentStructure.t) (sla : SLATerms.t) :
  exists missing incomplete n,
    GapAnalysis.missing_fields (_analyze_gaps parties fd pay sla) = Some missing
    /\ GapAnalysis.incomplete_fields (_analyze_gaps parties fd pay sla) = Some incomplete
    /\ GapAnalysis.notes (_analyze_gaps parties fd pay sla) = Some n
    /\ n <> ""
    /\ (n = comprehensive <-> missing = [] /\ incomplete = []).
Proof.
  destruct (analyze_gaps_shape parties fd pay sla) as [m [i E]]. rewrite E.
  cbn [GapAnalysis.missing_fields GapAnalysis.incomplete_fields GapAnalysis.notes].
  exists m, i. unfold notes_of.
  destruct m as [|x m], i as [|y i]; cbn [truthy_list negb andb app Str.join];
    eexists; (split; [reflexivity|]); (split; [reflexivity|]); (split; [reflexivity|]).
  - split; [discriminate|]. split; [intros _; split; reflexivity|reflexivity].
  - split; [cbn; discriminate|].
    split; [cbn; intros H; discriminate H|intros [_ H]; discriminate H].
  - split; [cbn; discriminate|].
    split; [cbn; intros H; discriminate H|intros [H _]; discriminate H].
  - split; [cbn; discriminate|].
    split; [cbn; intros H; discriminate H|intros [H _]; discriminate H].
Qed.

(** What an empty list of missing fields says of the sub-records. *)
Lemma nothing_missing (parties : Parties.t) (fd : FinancialDetails.t)
    (pay : PaymentStructure.t) (sla : SLATerms.t) :
  GapAnalysis.missing_fields (_analyze_gaps parties fd pay sla) = Some [] ->
  no_name (Parties.service_provider parties) = false
  /\ no_name (Parties.customer parties) = false
  /\ truthy_opt Num.truthy (FinancialDetails.annual_contract_value fd) = true
  /\ (truthy_opt truthy_list (FinancialDetails.monthly_costs fd)
      || truthy_opt truthy_list (FinancialDetails.one_time_costs fd)) = true
  /\ truthy_opt Str.truthy (PaymentStructure.payment_terms pay) = true
  /\ truthy_opt Str.truthy (SLATerms.uptime_commitment sla) = true
  /\ truthy_opt truthy_model (SLATerms.response_times sla) = true.
Proof.
  unfold _analyze_gaps. cbn [GapAnalysis.missing_fields]. intros H.
  injection H as H.
  apply append_if_nil in H. destruct H as [H7 H].
  apply append_if_nil in H. destruct H as [H6 H].
  apply append_if_nil in H. destruct H as [H5 H].
  apply append_if_nil in H. destruct H as [H4 H].
  apply append_if_nil in H. destruct H as [H3 H].
  apply append_if_nil in H. destruct H as [H2 H].
  apply append_if_nil in H. destruct H as [H1 _].
  apply negb_false_iff in H7. apply negb_false_iff in H6.
  apply negb_false_iff in H5. apply negb_false_iff in H3.
  repeat split; try assumption.
  destruct (truthy_opt truthy_list (FinancialDetails.monthly_costs fd));
    [reflexivity|].
  destruct (truthy_opt truthy_list (FinancialDetails.one_time_costs fd));
    [reflexivity|discriminate H4].
Qed.

(** What an empty list of incomplete fields says of the sub-records. *)
Lemma nothing_incomplete (parties : Parties.t) (fd : FinancialDetails.t)
    (pay : PaymentStructure.t) (sla : SLATerms.t) :
  GapAnalysis.incomplete_fields (_analyze_gaps parties fd pay sla) = Some [] ->
  no_email (Parties.service_provider parties) = false
  /\ no_email (Parties.customer parties) = false
  /\ truthy_opt Str.truthy (PaymentStructure.payment_method pay) = true.
Proof.
  unfold _analyze_gaps. cbn [GapAnalysis.incomplete_fields]. intros H.
  injection H as H.
  apply append_if_nil in H. destruct H as [H3 H].
  apply append_if_nil in H. destruct H as [H2 H].
  apply append_if_nil in H. destruct H as [H1 _].
  apply negb_false_iff in H3. repeat split; assumption.
Qed.

Lemma named_party (p : option PartyInfo.t) : no_name p = false -> has_name p = true.
Proof.
  destruct p as [i|]; cbn; [|discriminate]. intros H. apply negb_false_iff in H. exact H.
Qed.

Lemma reachable_party (p : option PartyInfo.t) :
  no_name p = false -> no_email p = false -> has_email p = true.
Proof.
  destruct p as [i|]; cbn; [|discriminate]. intros _ H.
  apply negb_false_iff in H. exact H.
Qed.

(** A record that earns every row of the score. *)
Definition full_party (name email : string) : PartyInfo.t :=
  {| PartyInfo.name := Some name;
     PartyInfo.address := None;
     PartyInfo.phone := None;
     PartyInfo.email := Some email;
     PartyInfo.tax_id := None;
     PartyInfo.account_number := None |}.

Definition full_parties : Parties.t :=
  {| Parties.service_provider := Some (full_party "Acme Consulting LLC" "a@acme.com");
     Parties.customer := Some (full_party "Beta Corp Inc" "b@beta.org");
     Parties.authorized_representatives := None |}.

Definition full_financial : FinancialDetails.t :=
  {| FinancialDetails.line_items :=
       Some [ {| LineItem.service := Some "Consulting";
                 LineItem.quantity := Some 10;
                 LineItem.unit := Some "hour";
                 LineItem.unit_price := Some 100%float;
                 LineItem.monthly_total := Some 1000%float |} ];
     FinancialDetails.monthly_costs := Some [("Monthly Total", 500%float)];
     FinancialDetails.one_time_costs := None;
     FinancialDetails.total_monthly := Some (Num.Float 500);
     FinancialDetails.total_one_time := Some (Num.Int 0);
     FinancialDetails.annual_contract_value := Some (Num.Float 6000);
     FinancialDetails.currency := Some "USD" |}.

Definition full_payment : PaymentStructure.t :=
  {| PaymentStructure.payment_terms := Some "Net 30 days";
     PaymentStructure.payment_schedule := Some "Monthly recurring billing";
     PaymentStructure.payment_due_date := None;
     PaymentStructure.payment_method := Some "Wire transfer";
     PaymentStructure.late_payment_terms := None;
     PaymentStructure.late_payment_fee := None;
     PaymentStructure.banking_info := None |}.

Definition full_sla : SLATerms.t :=
  {| SLATerms.uptime_commitment := Some "99.9% uptime guarantee";
     SLATerms.response_times := Some ResponseTimesFacts.unpopulated;
     SLATerms.performance_metrics :=
       Some {| PerformanceMetrics.system_response_time := Some "< 2 seconds";
               PerformanceMetrics.backup_success_rate := None;
               PerformanceMetrics.security_patch_deployment := None |};
     SLATerms.service_credits := Some (SLATerms.CreditList []) |}.

Definition full_account : AccountInfo.t :=
  {| AccountInfo.account_number := None;
     AccountInfo.billing_contact :=
       Some {| BillingContact.name := None;
               BillingContact.title := None;
               BillingContact.email := Some "billing@beta.org";
               BillingContact.phone := Some "(555) 123-4567" |} |}.

Definition full_contract : ExtractedData.t :=
  {| ExtractedData.parties := Some full_parties;
     ExtractedData.account_info := Some full_account;
     ExtractedData.financial_details := Some full_financial;
     ExtractedData.payment_structure := Some full_payment;
     ExtractedData.revenue_classification := None;
     ExtractedData.sla_terms := Some full_sla |}.

(** A record without account information and line items, otherwise full. *)
Definition bare_contract : ExtractedData.t :=
  {| ExtractedData.parties := Some full_parties;
     ExtractedData.account_info := None;
     ExtractedData.financial_details := Some full_financial;
     ExtractedData.payment_structure := Some full_payment;
     ExtractedData.revenue_classification := None;
     ExtractedData.sla_terms := Some full_sla |}.

(** A record whose gap analysis has nothing missing and nothing incomplete
    scores at least 70 of the 100 points: the remaining 30 (line items,
    payment schedule, performance metrics, billing email and phone) are not
    looked at by the gap analysis. *)
Theorem no_gaps_score_at_least_70 (d : ExtractedData.t) (parties : Parties.t)
    (fd : FinancialDetails.t) (pay : PaymentStructure.t) (sla : SLATerms.t) :
  ExtractedData.parties d = Some parties ->
  ExtractedData.financial_details d = Some fd ->
  ExtractedData.payment_structure d = Some pay ->
  ExtractedData.sla_terms d = Some sla ->
  GapAnalysis.missing_fields (_analyze_gaps parties fd pay sla) = Some [] ->
  GapAnalysis.incomplete_fields (_analyze_gaps parties fd pay sla) = Some [] ->
  70 <= calculate_confidence_score d.
Proof.
  intros Hp Hf Hs Hl Hm Hi.
  apply nothing_missing in Hm. destruct Hm as [M1 [M2 [M3 [M4 [M5 [M6 M7]]]]]].
  apply nothing_incomplete in Hi. destruct Hi as [I1 [_ I3]].
  pose proof (named_party _ M1) as N1. pose proof (named_party _ M2) as N2.
  pose proof (reachable_party _ M1 I1) as E1.
  unfold calculate_confidence_score. rewrite Hp, Hf, Hs, Hl.
  rewrite N1, N2, E1, M3, M4, M5, M6, M7, I3. cbn [orb].
  destruct (ExtractedData.account_info d) as [acct|];
    [destruct (AccountInfo.billing_contact acct) as [bc|]|];
    rewrite !Score.add_if_plus; cbv iota; Score.bound_points; lia.
Qed.

Lemma no_gaps_score_at_least_70_witness : 70 <= calculate_confidence_score bare_contract.
Proof.
  apply (no_gaps_score_at_least_70 bare_contract full_parties full_financial
           full_payment full_sla); reflexivity.
Defined.

(** Bounds the conditional points of the goal, leaving its premise. *)
Ltac bound_goal :=
  repeat match goal with
         | |- context [if ?b then ?p else 0] =>
             let B := fresh "B" in
             assert (B : 0 <= (if b then p else 0) <= p)
               by (apply Score.points_bounds; lia);
             generalize dependent (if b then p else 0); intros ? ?
         end.

Ltac must_hold b H :=
  let E := fresh "E" in
  revert H; destruct b eqn:E; intros H;
  [|exfalso; revert H; cbv iota; bound_goal; intros H; lia].

(** A score of 100 leaves nothing missing: the record has the four
    sub-records the gap analysis reads, and their list of missing fields is
    empty.  (The list of incomplete fields may still name a party without
    email: the score asks for the email of either party only.) *)
Theorem full_score_nothing_missing (d : ExtractedData.t) :
  calculate_confidence_score d = 100 ->
  exists parties fd pay sla,
    ExtractedData.parties d = Some parties
    /\ ExtractedData.financial_details d = Some fd
    /\ ExtractedData.payment_structure d = Some pay
    /\ ExtractedData.sla_terms d = Some sla
    /\ GapAnalysis.missing_fields (_analyze_gaps parties fd pay sla) = Some [].
Proof.
  unfold calculate_confidence_score.
  destruct d as [[[[sp|] [cu|] ar]|] [[an [bc|]]|] [fd|] [pay|] rev [[up [rt|] [pm|] sc]|]];
    cbn [ExtractedData.parties ExtractedData.account_info
           ExtractedData.financial_details ExtractedData.payment_structure
           ExtractedData.sla_terms Parties.service_provider Parties.customer
           AccountInfo.billing_contact SLATerms.uptime_commitment
           SLATerms.response_times SLATerms.performance_metrics has_name has_email
           truthy_opt orb];
    unfold truthy_model; rewrite ?Score.add_if_plus; intros H;
    try (exfalso; revert H; bound_goal; intros H; lia).
  must_hold (truthy_opt Num.truthy (FinancialDetails.annual_contract_value fd)) H.
  must_hold (truthy_opt truthy_list (FinancialDetails.monthly_costs fd)
             || truthy_opt truthy_list (FinancialDetails.one_time_costs fd)) H.
  must_hold (truthy_opt Str.truthy (PartyInfo.name sp)) H.
  must_hold (truthy_opt Str.truthy (PartyInfo.name cu)) H.
  must_hold (truthy_opt Str.truthy (PaymentStructure.payment_terms pay)) H.
  must_hold (truthy_opt Str.truthy up) H.
  eexists. exists fd, pay. eexists.
  split; [reflexivity|]. split; [reflexivity|]. split; [reflexivity|].
  split; [reflexivity|].
  unfold _analyze_gaps.
  cbn [GapAnalysis.missing_fields Parties.service_provider Parties.customer no_name
         SLATerms.uptime_commitment SLATerms.response_times truthy_opt].
  apply orb_prop in E0.
  rewrite E, E1, E2, E3, E4.
  destruct E0 as [E0|E0]; rewrite E0; cbn; rewrite ?andb_false_r; reflexivity.
Qed.

Lemma full_score_nothing_missing_witness :
  calculate_confidence_score full_contract = 100
  /\ exists parties fd pay sla,
       ExtractedData.parties full_contract = Some parties
       /\ ExtractedData.financial_details full_contract = Some fd
       /\ ExtractedData.payment_structure full_contract = Some pay
       /\ ExtractedData.sla_terms full_contract = Some sla
       /\ GapAnalysis.missing_fields (_analyze_gaps parties fd pay sla) = Some [].
Proof.
  assert (H : calculate_confidence_score full_contract = 100) by (vm_compute; reflexivity).
  split; [exact H|]. exact (full_score_nothing_missing full_contract H).
Defined.

End GapFacts.

(* ------------------------------------------------------------------ *)
(** * What the pipeline returns, and when it raises *)

Module PipelineExtras.

Import PartiesFacts.
Import PipelineFacts.

Local Open Scope Z_scope.

(** The fields reported missing, one by one. *)
Lemma missing_iff (parties : Parties.t) (fd : FinancialDetails.t)
    (pay : PaymentStructure.t) (sla : SLATerms.t) (x : string) :
  exists l,
    GapAnalysis.missing_fields (_analyze_gaps parties fd pay sla) = Some l
    /\ (In x l <->
        (no_name (Parties.service_provider parties) = true /\ x = "service_provider_name")
        \/ (no_name (Parties.customer parties) = true /\ x = "customer_name")
        \/ (negb (truthy_opt Num.truthy (FinancialDetails.annual_contract_value fd)) = true
            /\ x = "annual_contract_value")
        \/ (negb (truthy_opt truthy_list (FinancialDetails.monthly_costs fd))
            && negb (truthy_opt truthy_list (FinancialDetails.one_time_costs fd)) = true
            /\ x = "cost_breakdown")
        \/ (negb (truthy_opt Str.truthy (PaymentStructure.payment_terms pay)) = true
            /\ x = "payment_terms")
        \/ (negb (truthy_opt Str.truthy (SLATerms.uptime_commitment sla)) = true
            /\ x = "uptime_commitment")
        \/ (negb (truthy_opt truthy_model (SLATerms.response_times sla)) = true
            /\ x = "response_times")).
Proof.
  eexists. split; [reflexivity|].
  rewrite !GapFacts.in_append_if_iff. cbn [In]. tauto.
Qed.

Section Facts.

Variable set_iteration : list string -> list string.
Variable _extract_text_from_pdf : list Byte.byte -> result string.

(** In the gap analysis of extracted parties, a party's name is reported
    missing exactly when the extractor returned no record for that party. *)
Theorem missing_name_means_no_party (text : string) (fd : FinancialDetails.t)
    (pay : PaymentStructure.t) (sla : SLATerms.t) :
  exists l,
    GapAnalysis.missing_fields
      (_analyze_gaps (_extract_parties set_iteration text) fd pay sla) = Some l
    /\ (In "service_provider_name" l <->
        Parties.service_provider (_extract_parties set_iteration text) = None)
    /\ (In "customer_name" l <->
        Parties.customer (_extract_parties set_iteration text) = None).
Proof.
  destruct (missing_iff (_extract_parties set_iteration text) fd pay sla
              "service_provider_name") as [l [El Hs]].
  destruct (missing_iff (_extract_parties set_iteration text) fd pay sla
              "customer_name") as [l' [El' Hc]].
  rewrite El in El'. injection El' as <-.
  exists l. split; [exact El|]. split.
  - rewrite Hs. split.
    + intros [[H _]|[[_ H]|[[_ H]|[[_ H]|[[_ H]|[[_ H]|[_ H]]]]]]]; try discriminate H.
      destruct (Parties.service_provider (_extract_parties set_iteration text))
        as [p|] eqn:E; [|reflexivity].
      apply service_provider_inv in E. destruct E as [Ht ->].
      cbn in H. change (Dict.get "name" _) with (Some (service_provider_name set_iteration text)) in H.
      cbn in H. rewrite Ht in H. discriminate H.
    + intros H. left. rewrite H. split; reflexivity.
  - rewrite Hc. split.
    + intros [[_ H]|[[H _]|[[_ H]|[[_ H]|[[_ H]|[[_ H]|[_ H]]]]]]]; try discriminate H.
      destruct (Parties.customer (_extract_parties set_iteration text))
        as [p|] eqn:E; [|reflexivity].
      apply customer_inv in E. destruct E as [Ht ->].
      cbn in H. change (Dict.get "name" _) with (Some (customer_name set_iteration text)) in H.
      cbn in H. rewrite Ht in H. discriminate H.
    + intros H. right. left. rewrite H. split; reflexivity.
Qed.

(** What parse_contract returns, read backwards. *)
Lemma parse_contract_inv (pdf_content : list Byte.byte) (d : ExtractedData.t) :
  parse_contract set_iteration _extract_text_from_pdf pdf_content = Ok d ->
  exists text fd pay,
    _extract_text_from_pdf pdf_content = Ok text
    /\ _extract_financial_details text = Ok fd
    /\ _extract_payment_structure text = Ok pay
    /\ d = aggregate set_iteration text fd pay.
Proof.
  unfold parse_contract, parse_contract_kwargs.
  destruct (_extract_text_from_pdf pdf_content) as [text|e] eqn:Et; [|discriminate].
  cbn [bind].
  destruct (_extract_financial_details text) as [fd|e] eqn:Ef; [|discriminate].
  cbn [bind].
  destruct (_extract_payment_structure text) as [pay|e] eqn:Ep; [|discriminate].
  cbn. intros H. injection H as <-.
  exists text, fd, pay. repeat split; assumption.
Qed.

(** The score of the aggregate of the six sub-records of a text. *)
Lemma aggregate_score_bounds (text : string) (fd : FinancialDetails.t)
    (pay : PaymentStructure.t) :
  5 <= calculate_confidence_score (aggregate set_iteration text fd pay) <= 100.
Proof.
  unfold calculate_confidence_score, aggregate.
  cbn [ExtractedData.parties ExtractedData.account_info ExtractedData.financial_details
         ExtractedData.payment_structure ExtractedData.sla_terms].
  change (SLATerms.response_times (_extract_sla_terms text))
    with (Some (ResponseTimes.init (response_times_kwargs text))).
  cbn [truthy_opt].
  change (truthy_model (ResponseTimes.init (response_times_kwargs text))) with true.
  destruct (AccountInfo.billing_contact (_extract_account_info text));
    rewrite !Score.add_if_plus; cbv iota; Score.bound_points; lia.
Qed.

(** Every record parse_contract returns scores at least 5: the response
    times are always there to be counted, whatever the document says. *)
Theorem returned_record_scores_at_least_5 (pdf_content : list Byte.byte)
    (d : ExtractedData.t) :
  parse_contract set_iteration _extract_text_from_pdf pdf_content = Ok d ->
  5 <= calculate_confidence_score d <= 100.
Proof.
  intros H. apply parse_contract_inv in H.
  destruct H as [text [fd [pay [_ [_ [_ ->]]]]]].
  apply aggregate_score_bounds.
Qed.

(** The payment extractor raises exactly on the texts in which the discount
    pattern matches (the assignment to the undeclared discount_terms is
    refused), and parse_contract then raises ValueError for the document. *)
Theorem discount_terms_raise (text : string) :
  (findall discount_pattern text = [] ->
   exists pay, _extract_payment_structure text = Ok pay)
  /\ (findall discount_pattern text <> [] ->
      _extract_payment_structure text = Raise ValueError
      /\ forall pdf_content,
           _extract_text_from_pdf pdf_content = Ok text ->
           parse_contract set_iteration _extract_text_from_pdf pdf_content
           = Raise ValueError).
Proof.
  split.
  - intros H. unfold _extract_payment_structure. rewrite H. cbn [bind].
    eexists. reflexivity.
  - intros H.
    assert (E : _extract_payment_structure text = Raise ValueError).
    { unfold _extract_payment_structure.
      destruct (findall discount_pattern text); [contradiction H; reflexivity|].
      reflexivity. }
    split; [exact E|].
    intros pdf_content Ht. unfold parse_contract, parse_contract_kwargs.
    rewrite Ht. cbn [bind]. rewrite E.
    destruct (_extract_financial_details text); reflexivity.
Qed.

End Facts.

(** A text that offers a discount. *)
Definition early_discount : string := "Net 30 days, discount of 2% within 10 days".

Lemma discount_terms_raise_witness :
  findall discount_pattern early_discount = ["2%"]
  /\ _extract_payment_structure early_discount = Raise ValueError
  /\ parse_contract some_order (reads early_discount) [] = Raise ValueError.
Proof.
  assert (H : findall discount_pattern early_discount = ["2%"])
    by (vm_compute; reflexivity).
  assert (N : findall discount_pattern early_discount <> [])
    by (rewrite H; discriminate).
  destruct (proj2 (discount_terms_raise some_order (reads early_discount) early_discount) N)
    as [E P].
  split; [exact H|]. split; [exact E|]. apply P. reflexivity.
Defined.

Lemma returned_record_scores_at_least_5_witness :
  exists d,
    parse_contract some_order (reads two_parties) [] = Ok d
    /\ 5 <= calculate_confidence_score d <= 100.
Proof.
  destruct (parse_contract some_order (reads two_parties) []) as [d|e] eqn:E;
    [|vm_compute in E; discriminate E].
  exists d. split; [reflexivity|].
  exact (returned_record_scores_at_least_5 some_order (reads two_parties) [] d E).
Defined.

End PipelineExtras.

(* ------------------------------------------------------------------ *)
(** * What a greedy run leaves to the group that follows it *)

Module GreedyFacts.

Import MatchFacts.
Import WordFacts.

(** The character before the position reached after [w]. *)
Fixpoint lastp (p : option ascii) (w : string) : option ascii :=
  match w with
  | EmptyString => p
  | String c w' => lastp (Some c) w'
  end.

Lemma rep_none_stop (ok : ascii -> bool) (hi : option nat) (p : option ascii)
    (s : string) (cs : caps) (k : cont) :
  rep ok 0 hi p s cs k = None -> k p s cs = None.
Proof.
  destruct s as [|c s]; cbn [rep]; [intros H; exact H|].
  destruct (ok c && hi_open hi); [|intros H; exact H].
  destruct (rep ok (pred 0) (option_map pred hi) (Some c) s cs k);
    [discriminate|intros H; exact H].
Qed.

(** A star takes the longest run after which the rest of the pattern
    matches: one character further, the rest does not match. *)
Lemma rep_star_longest (ok : ascii -> bool) (cs : caps) (k : cont)
    (res : string * caps) (s : string) :
  forall p,
    rep ok 0 None p s cs k = Some res ->
    exists w s',
      splits s w s' /\ all ok w = true
      /\ k (lastp p w) s' cs = Some res
      /\ (forall c s'', s' = String c s'' -> ok c = true -> k (Some c) s'' cs = None).
Proof.
  induction s as [|c s IH]; intros p H.
  - cbn [rep] in H. exists EmptyString, EmptyString.
    split; [reflexivity|]. split; [reflexivity|]. split; [exact H|].
    intros c s'' E. discriminate E.
  - cbn [rep hi_open option_map pred] in H. rewrite andb_true_r in H.
    destruct (ok c) eqn:Eok.
    + destruct (rep ok 0 None (Some c) s cs k) as [r|] eqn:Er.
      * injection H as <-. apply IH in Er.
        destruct Er as [w [s' [Hs [Ha [Hk Hmax]]]]].
        exists (String c w), s'. unfold splits in *. rewrite Hs.
        split; [reflexivity|]. cbn [all lastp]. rewrite Eok, Ha.
        split; [reflexivity|]. split; [exact Hk|exact Hmax].
      * exists EmptyString, (String c s).
        split; [reflexivity|]. split; [reflexivity|]. split; [exact H|].
        intros c' s'' E _. injection E as <- <-.
        apply rep_none_stop in Er. exact Er.
    + exists EmptyString, (String c s).
      split; [reflexivity|]. split; [reflexivity|]. split; [exact H|].
      intros c' s'' E Hc. injection E as <- <-. rewrite Eok in Hc. discriminate Hc.
Qed.

Lemma rep_complete (ok : ascii -> bool) (lo : nat) (hi : option nat) (p : option ascii)
    (s : string) (p' : option ascii) (s' : string) (cs : caps) (k : cont) :
  reps ok lo hi p s p' s' -> k p' s' cs <> None -> rep ok lo hi p s cs k <> None.
Proof.
  induction 1 as [hi p s|lo hi p c s p' s' Hok Hhi _ IH]; intros Hk.
  - intros E. apply rep_none_stop in E. exact (Hk E).
  - cbn [rep]. rewrite Hok, Hhi. cbn [andb]. specialize (IH Hk).
    destruct (rep ok (pred lo) (option_map pred hi) (Some c) s cs k);
      [discriminate|exfalso; apply IH; reflexivity].
Qed.

(** Where there is a match, the matcher finds one. *)
Lemma exec_complete (fl : flags) (r : regex) (p : option ascii) (s : string) (cs : caps)
    (p' : option ascii) (s' : string) (cs' : caps) :
  matches fl r p s cs p' s' cs' ->
  forall k, k p' s' cs' <> None -> exec fl r p s cs k <> None.
Proof.
  induction 1 as [p s cs|a p c s cs Ha|a lo hi p s cs p' s' Hr
                 |r1 r2 p s cs p1 s1 cs1 p2 s2 cs2 _ IH1 _ IH2
                 |r1 r2 p s cs p' s' cs' _ IH|r1 r2 p s cs p' s' cs' _ IH
                 |i r p s cs p' s' cs' _ IH|p s cs Hb|p s cs He|p s cs Hw];
    intros k Hk; cbn [exec].
  - exact Hk.
  - rewrite Ha. exact Hk.
  - exact (rep_complete _ _ _ _ _ _ _ _ _ Hr Hk).
  - apply IH1. apply IH2. exact Hk.
  - destruct (exec fl r1 p s cs k) eqn:E; [discriminate|].
    exfalso. exact (IH k Hk E).
  - destruct (exec fl r1 p s cs k); [discriminate|]. apply IH. exact Hk.
  - apply IH. exact Hk.
  - rewrite Hb. exact Hk.
  - rewrite He. exact Hk.
  - rewrite Hw. exact Hk.
Qed.

(** A match does not depend on the captures it starts from. *)
Lemma matches_any_caps (fl : flags) (r : regex) (p : option ascii) (s : string)
    (cs : caps) (p' : option ascii) (s' : string) (cs' : caps) :
  matches fl r p s cs p' s' cs' ->
  forall cs0, exists cs0', matches fl r p s cs0 p' s' cs0'.
Proof.
  induction 1 as [p s cs|a p c s cs Ha|a lo hi p s cs p' s' Hr
                 |r1 r2 p s cs p1 s1 cs1 p2 s2 cs2 _ IH1 _ IH2
                 |r1 r2 p s cs p' s' cs' _ IH|r1 r2 p s cs p' s' cs' _ IH
                 |i r p s cs p' s' cs' _ IH|p s cs Hb|p s cs He|p s cs Hw];
    intros cs0.
  - exists cs0. constructor.
  - exists cs0. constructor. exact Ha.
  - exists cs0. constructor. exact Hr.
  - destruct (IH1 cs0) as [c1 H1]. destruct (IH2 c1) as [c2 H2].
    exists c2. econstructor; eassumption.
  - destruct (IH cs0) as [c1 H1]. exists c1. apply m_alt_l. exact H1.
  - destruct (IH cs0) as [c1 H1]. exists c1. apply m_alt_r. exact H1.
  - destruct (IH cs0) as [c1 H1]. eexists. apply m_grp. exact H1.
  - exists cs0. constructor. exact Hb.
  - exists cs0. constructor. exact He.
  - exists cs0. constructor. exact Hw.
Qed.

(** A run, with the position it ends at. *)
Lemma reps_run (ok : ascii -> bool) (lo : nat) (hi : option nat)
    (p : option ascii) (s : string) (p' : option ascii) (s' : string) :
  reps ok lo hi p s p' s' ->
  exists w,
    splits s w s' /\ all ok w = true /\ (lo <= String.length w)%nat /\ p' = lastp p w.
Proof.
  induction 1 as [hi p s|lo hi p c s p' s' Hok Hhi _ IH].
  - exists EmptyString. repeat split. cbn. lia.
  - destruct IH as [w [Hs [Ha [Hl Hp]]]].
    exists (String c w). unfold splits in *. rewrite Hs.
    split; [reflexivity|]. cbn [all String.length lastp]. rewrite Hok, Ha.
    split; [reflexivity|]. split; [lia|exact Hp].
Qed.

Lemma run_reps (ok : ascii -> bool) (w s' : string) :
  all ok w = true ->
  forall lo p, (lo <= String.length w)%nat -> reps ok lo None p (w ++ s') (lastp p w) s'.
Proof.
  induction w as [|c w IH]; intros Ha lo p Hl.
  - cbn in Hl. assert (lo = 0%nat) by lia. subst lo. constructor.
  - cbn [all] in Ha. apply andb_prop in Ha. destruct Ha as [Hc Hw].
    cbn [append lastp]. apply reps_step; [exact Hc|reflexivity|].
    apply (IH Hw). cbn [String.length] in Hl. lia.
Qed.

(** What a match consumes is a prefix of the text it starts at. *)
Lemma matches_splits (fl : flags) (r : regex) (p : option ascii) (s : string)
    (cs : caps) (p' : option ascii) (s' : string) (cs' : caps) :
  matches fl r p s cs p' s' cs' -> exists u, splits s u s'.
Proof.
  induction 1 as [p s cs|a p c s cs Ha|a lo hi p s cs p' s' Hr
                 |r1 r2 p s cs p1 s1 cs1 p2 s2 cs2 _ IH1 _ IH2
                 |r1 r2 p s cs p' s' cs' _ IH|r1 r2 p s cs p' s' cs' _ IH
                 |i r p s cs p' s' cs' _ IH|p s cs Hb|p s cs He|p s cs Hw];
    try (exists EmptyString; reflexivity); try exact IH.
  - exists (String c EmptyString). reflexivity.
  - apply reps_run in Hr. destruct Hr as [w [Hs _]]. exists w. exact Hs.
  - destruct IH1 as [u1 H1]. destruct IH2 as [u2 H2].
    exists (u1 ++ u2)%string. unfold splits in *. rewrite H1, H2.
    clear. induction u1 as [|c u1 IH]; cbn; [reflexivity|]. rewrite IH. reflexivity.
Qed.

Lemma append_assoc (a b c : string) : ((a ++ b) ++ c = a ++ (b ++ c))%string.
Proof. induction a as [|x a IH]; cbn; [reflexivity|]. rewrite IH. reflexivity. Qed.

Section AfterStar.

Variable fl : flags.
Variables A D : atom.
Variable i : nat.
Variable rest : regex.

Hypothesis group_not_in_rest : ~ In i (groups rest).

(** [A*(D+ G) rest], with the group numbered [i]: the group holds a run [w]
    of [D] followed by what [G] matches, and the run is a single character
    unless it starts with a character that [A] does not take: every
    character the star could take, it has taken. *)
Lemma star_leaves_one (G : regex) (p : option ascii) (s : string) (cs : caps)
    (res : string * caps) :
  ~ In i (groups G) ->
  exec fl (Cat (Rep A 0 None) (Cat (Grp i (Cat (Rep D 1 None) G)) rest)) p s cs final
  = Some res ->
  exists w g,
    group i (snd res) = Some (w ++ g)%string
    /\ all (atom_ok fl D) w = true
    /\ (1 <= String.length w)%nat
    /\ (forall c c2 w', w = String c (String c2 w') -> atom_ok fl A c = false)
    /\ exists pg pg' sg cg cg', matches fl G pg (g ++ sg) cg pg' sg cg'.
Proof.
  intros HG H.
  change (rep (atom_ok fl A) 0 None p s cs
            (fun p1 s1 cs1 =>
               exec fl (Cat (Grp i (Cat (Rep D 1 None) G)) rest) p1 s1 cs1 final)
          = Some res) in H.
  apply rep_star_longest in H. destruct H as [w0 [s' [_ [_ [Hk Hmax]]]]].
  apply exec_sound in Hk. destruct Hk as [p' [s2 [cs' [Hm Hf]]]].
  injection Hf as <-. cbn [snd].
  apply cat_inv in Hm. destruct Hm as [p1 [s1 [cs1 [Hg Hr]]]].
  inversion Hg as [| | | | | |i0 r0 p0 s0 cs0 p0' s0' cs0' Hin| | |]; subst.
  apply cat_inv in Hin. destruct Hin as [pa [sa [ca [Hrun HGm]]]].
  inversion Hrun as [| |a0 lo0 hi0 pr sr cr pr' sr' Hreps| | | | | | |]; subst.
  apply reps_run in Hreps. destruct Hreps as [w [Hs [Ha [Hl Hp]]]].
  destruct (matches_splits _ _ _ _ _ _ _ _ HGm) as [g Hgs].
  unfold splits in Hs, Hgs. subst sa. subst s'. subst pa.
  exists w, g.
  split.
  { rewrite (group_kept _ _ _ _ _ _ _ _ _ Hr group_not_in_rest).
    cbn [group]. rewrite Nat.eqb_refl.
    rewrite <- append_assoc, take_append. reflexivity. }
  split; [exact Ha|]. split; [exact Hl|]. split.
  - intros c c2 w' Ew. subst w.
    destruct (atom_ok fl A c) eqn:EA; [|reflexivity]. exfalso.
    cbn [all] in Ha. apply andb_prop in Ha. destruct Ha as [_ Ha'].
    specialize (Hmax c (String c2 w' ++ (g ++ s1))%string eq_refl EA).
    assert (Hrun' : matches fl (Rep D 1 None) (Some c)
                      (String c2 w' ++ (g ++ s1))%string ca
                      (lastp (Some c) (String c2 w')) (g ++ s1)%string ca).
    { apply m_rep.
      apply (run_reps (atom_ok fl D) (String c2 w') (g ++ s1) Ha' 1%nat (Some c)).
      cbn. lia. }
    pose proof (m_grp fl i _ _ _ _ _ _ _ (m_cat fl _ _ _ _ _ _ _ _ _ _ _ Hrun' HGm))
      as Hgrp.
    destruct (matches_any_caps _ _ _ _ _ _ _ _ Hr
                ((i, Str.take (String.length (String c2 w' ++ (g ++ s1))
                               - String.length s1)
                       (String c2 w' ++ (g ++ s1))%string) :: cs0')) as [cr Hend].
    refine (exec_complete _ _ _ _ _ _ _ _
              (m_cat fl _ _ _ _ _ _ _ _ _ _ _ Hgrp Hend) final _ Hmax).
    discriminate.
  - exists (lastp (lastp p w0) w), p1, s1, ca, cs0'. exact HGm.
Qed.

End AfterStar.



Lemma append_self (g s : string) : (g ++ s)%string = s -> g = EmptyString.
Proof.
  intros H. assert (L : String.length (g ++ s) = String.length s) by (rewrite H; reflexivity).
  rewrite length_append in L. destruct g; [reflexivity|]. cbn in L. lia.
Qed.

Lemma append_empty (w : string) : (w ++ "")%string = w.
Proof. induction w as [|c w IH]; cbn; [reflexivity|]. rewrite IH. reflexivity. Qed.

(** [A*(D+) rest] where the star takes every character of [D]: the group
    holds exactly one character. *)
Lemma star_leaves_one_char (fl : flags) (A D : atom) (i : nat) (rest : regex)
    (p : option ascii) (s : string) (cs : caps) (res : string * caps) :
  ~ In i (groups rest) ->
  (forall c, atom_ok fl D c = true -> atom_ok fl A c = true) ->
  exec fl (Cat (Rep A 0 None) (Cat (Grp i (Rep D 1 None)) rest)) p s cs final = Some res ->
  exists c, group i (snd res) = Some (String c "") /\ atom_ok fl D c = true.
Proof.
  intros Hrest Hsub H.
  change (exec fl (Cat (Rep A 0 None) (Cat (Grp i (Cat (Rep D 1 None) Eps)) rest))
            p s cs final = Some res) in H.
  apply (star_leaves_one fl A D i rest Hrest Eps) in H; [|intros []].
  destruct H as [w [g [Hg [Ha [Hl [Hone [pg [pg' [sg [cg [cg' HG]]]]]]]]]]].
  inversion HG as [p0 s0 cs0 E1 E2| | | | | | | | |]; subst.
  match goal with E : (g ++ sg)%string = sg |- _ => apply append_self in E; subst g end.
  rewrite append_empty in Hg.
  destruct w as [|c [|c2 w']].
  - cbn in Hl. lia.
  - exists c. split; [exact Hg|]. cbn [all] in Ha. apply andb_prop in Ha. tauto.
  - exfalso. cbn [all] in Ha. apply andb_prop in Ha. destruct Ha as [Hc _].
    specialize (Hone c c2 w' eq_refl). rewrite (Hsub c Hc) in Hone. discriminate Hone.
Qed.

Lemma fold_case_percent (c : ascii) : Str.fold_case c = "%"%char -> c = "%"%char.
Proof.
  unfold Str.fold_case, Str.is_upper, Str.between, Str.code.
  change (N_of_ascii "A") with 65%N. change (N_of_ascii "Z") with 90%N.
  destruct ((65 <=? N_of_ascii c)%N && (N_of_ascii c <=? 90)%N) eqn:E;
    [|intros H; exact H].
  apply andb_prop in E. destruct E as [E1 E2].
  apply N.leb_le in E1. apply N.leb_le in E2. intros H.
  apply (f_equal N_of_ascii) in H. rewrite N_ascii_embedding in H by lia.
  change (N_of_ascii "%") with 37%N in H. lia.
Qed.

(** [A*(D+%)]: the group holds a run [w] of [D] and the percent sign, and
    the run is a single character unless it starts with a character that the
    star does not take. *)
Lemma star_leaves_percent (fl : flags) (A D : atom) (i : nat)
    (p : option ascii) (s : string) (cs : caps) (res : string * caps) :
  exec fl (Cat (Rep A 0 None) (Grp i (Cat (Rep D 1 None) (One (Lit "%"))))) p s cs final
  = Some res ->
  exists w,
    group i (snd res) = Some (w ++ "%")%string
    /\ all (atom_ok fl D) w = true
    /\ (1 <= String.length w)%nat
    /\ (forall c c2 w', w = String c (String c2 w') -> atom_ok fl A c = false).
Proof.
  intros H.
  change (exec fl (Cat (Rep A 0 None)
                     (Cat (Grp i (Cat (Rep D 1 None) (One (Lit "%")))) Eps))
            p s cs final = Some res) in H.
  apply (star_leaves_one fl A D i Eps) in H; [|intros []|intros []].
  destruct H as [w [g [Hg [Ha [Hl [Hone [pg [pg' [sg [cg [cg' HG]]]]]]]]]]].
  exists w. split; [|split; [exact Ha|split; [exact Hl|exact Hone]]].
  rewrite Hg. f_equal. f_equal.
  inversion HG as [|a0 p0 c0 s0 cs0 Hok Ea Ep Es Ec Ep' Es' Ec'| | | | | | | |].
  subst s0. clear Ea Ep Ec Ep' Ec'.
  assert (Eg : g = String c0 "").
  { destruct g as [|x g]; cbn in Es.
    - exfalso. assert (L : String.length (String c0 sg) = String.length sg)
        by (rewrite Es; reflexivity). cbn in L. lia.
    - injection Es as <- Es. symmetry in Es. apply append_self in Es.
      subst g. reflexivity. }
  subst g. f_equal.
  cbn [atom_ok] in Hok. destruct (icase fl).
  - apply Ascii.eqb_eq in Hok. apply fold_case_percent.
    rewrite Hok. reflexivity.
  - apply Ascii.eqb_eq in Hok. exact Hok.
Qed.

(** The results of [findall], as results of the matcher at some position
    of the text. *)
Lemma findall_exec (pat : pattern) (m text : string) :
  In m (findall pat text) ->
  exists prev s res,
    exec (p_flags pat) (p_re pat) prev s [] final = Some res
    /\ m = group_str 1 (snd res).
Proof.
  unfold findall, finditer. intros H.
  apply in_map_iff in H. destruct H as [[whole cs] [E H]]. cbn [snd] in E.
  apply scan_in in H. destruct H as [prev [s H]].
  unfold match_here in H. fold final in H.
  destruct (exec (p_flags pat) (p_re pat) prev s [] final) as [[s1 cs1]|] eqn:Ex;
    [|discriminate H].
  injection H as _ <-. exists prev, s, (s1, cs1). split; [exact Ex|].
  symmetry. exact E.
Qed.

Lemma exec_cat_sound (fl : flags) (r1 r2 : regex) (p : option ascii) (s : string)
    (cs : caps) (k : cont) (res : string * caps) :
  exec fl (Cat r1 r2) p s cs k = Some res ->
  exists p1 s1 cs1,
    matches fl r1 p s cs p1 s1 cs1 /\ exec fl r2 p1 s1 cs1 k = Some res.
Proof. cbn [exec]. intros H. apply exec_sound in H. exact H. Qed.

(** [\d] and [[0-9]] are taken by [[\s\w]]. *)
Lemma space_word_takes_digits (fl : flags) (c : ascii) :
  Str.is_digit c = true -> atom_ok fl space_word c = true.
Proof.
  intros H. unfold space_word, cls. cbn [atom_ok existsb item_ok xorb].
  unfold Str.is_word. rewrite H. cbn [orb]. rewrite orb_true_r. reflexivity.
Qed.

Lemma dg_digit (fl : flags) (c : ascii) : atom_ok fl Patterns.dg c = Str.is_digit c.
Proof.
  unfold Patterns.dg, cls. cbn [atom_ok existsb item_ok xorb].
  rewrite orb_false_r. reflexivity.
Qed.

(** [(?:w1|...)[\s\w]*(D+)rest] with [D] among the digits: every result of
    [findall] is a single digit. *)
Lemma words_star_digits (ws : list string) (D : atom) (rest : regex) (m text : string) :
  ~ In 1%nat (groups rest) ->
  (forall c, atom_ok IGNORECASE D c = Str.is_digit c) ->
  In m (findall
          (compile IGNORECASE
             (Cat (words ws) (Cat (star space_word) (Cat (Grp 1 (plus D)) rest))))
          text) ->
  exists d, Str.is_digit d = true /\ m = String d "".
Proof.
  intros Hrest HD H. apply findall_exec in H.
  destruct H as [prev [s [res [H ->]]]]. cbn [p_flags p_re] in H.
  apply exec_cat_sound in H. destruct H as [p1 [s1 [cs1 [_ H]]]].
  apply star_leaves_one_char in H; [|exact Hrest|].
  - destruct H as [d [Hg Hd]]. exists d. rewrite HD in Hd.
    split; [exact Hd|]. unfold group_str. rewrite Hg. reflexivity.
  - intros c Hc. rewrite HD in Hc. apply space_word_takes_digits. exact Hc.
Qed.

(** [(?:w1|...)[\s\w]*([0-9.]+%)]: every result of [findall] is one
    character and the percent sign, or starts with the point. *)
Lemma words_star_percent (ws : list string) (m text : string) :
  In m (findall
          (compile IGNORECASE
             (Cat (words ws) (Cat (star space_word) (Grp 1 percentage))))
          text) ->
  (exists c, m = String c "%") \/ (exists m', m = String "." m').
Proof.
  intros H. apply findall_exec in H.
  destruct H as [prev [s [res [H ->]]]]. cbn [p_flags p_re] in H.
  apply exec_cat_sound in H. destruct H as [p1 [s1 [cs1 [_ H]]]].
  unfold percentage, plus, star in H.
  apply star_leaves_percent in H. destruct H as [w [Hg [Ha [Hl Hone]]]].
  unfold group_str. rewrite Hg.
  destruct w as [|c [|c2 w']].
  - cbn in Hl. lia.
  - left. exists c. reflexivity.
  - right. specialize (Hone c c2 w' eq_refl).
    cbn [all] in Ha. apply andb_prop in Ha. destruct Ha as [Hc _].
    unfold cls in Hc. cbn [atom_ok existsb item_ok xorb icase IGNORECASE] in Hc.
    rewrite orb_false_r in Hc.
    unfold space_word, cls in Hone.
    cbn [atom_ok existsb item_ok xorb] in Hone. rewrite orb_false_r in Hone.
    apply orb_false_iff in Hone. destruct Hone as [_ Hw].
    unfold Str.is_word in Hw.
    apply orb_false_iff in Hw. destruct Hw as [Hw _].
    apply orb_false_iff in Hw. destruct Hw as [Hw _].
    apply orb_false_iff in Hw. destruct Hw as [Hdig _].
    unfold Str.is_digit in Hdig.
    replace (Str.between "0" "9" c) with false in Hc.
    replace (Str.between "0" "9" (Str.swap_case c)) with false in Hc.
    + cbn [orb andb] in Hc. apply Ascii.eqb_eq in Hc.
      exists (String c2 w' ++ "%")%string.
      assert (E : c = "."%char).
      { revert Hc. unfold Str.fold_case.
        destruct (Str.is_upper c) eqn:Eu; [|intros ->; reflexivity].
        unfold Str.is_upper, Str.between, Str.code in Eu.
        change (N_of_ascii "A") with 65%N in Eu. change (N_of_ascii "Z") with 90%N in Eu.
        apply andb_prop in Eu. destruct Eu as [E1 E2].
        apply N.leb_le in E1. apply N.leb_le in E2. intros H.
        apply (f_equal N_of_ascii) in H. unfold Str.code in H.
        rewrite N_ascii_embedding in H by lia. cbn in H. lia. }
      subst c. reflexivity.
    + symmetry. pose proof (d09_digit IGNORECASE (Str.swap_case c)) as Hd.
      pose proof (d09_digit IGNORECASE c) as Hd'.
      unfold Patterns.d09, cls in Hd'. cbn [atom_ok existsb item_ok xorb icase IGNORECASE] in Hd'.
      rewrite orb_false_r in Hd'. unfold Str.is_digit in Hd'.
      rewrite Hdig in Hd'. cbn [orb andb] in Hd'. exact Hd'.
Qed.

End GreedyFacts.

(* ------------------------------------------------------------------ *)
(** * What the extractors keep of a number that follows free text *)

Module CaptureFacts.

Import MatchFacts.
Import WordFacts.
Import GreedyFacts.

(** [pre(a{lo,hi})rest]: what group [i] holds after a match. *)
Lemma group_after (fl : flags) (i : nat) (a : atom) (lo : nat) (hi : option nat)
    (pre rest : regex) (p : option ascii) (s : string) (cs : caps)
    (p' : option ascii) (s' : string) (cs' : caps) :
  matches fl (Cat pre (Cat (Grp i (Rep a lo hi)) rest)) p s cs p' s' cs' ->
  ~ In i (groups rest) ->
  exists w,
    group i cs' = Some w /\ all (atom_ok fl a) w = true /\ (lo <= String.length w)%nat.
Proof.
  intros H Hrest.
  apply cat_inv in H. destruct H as [p1 [s1 [cs1 [_ H]]]].
  apply cat_inv in H. destruct H as [p2 [s2 [cs2 [Hg H]]]].
  apply grp_rep_inv in Hg. destruct Hg as [w [-> [Ha Hl]]].
  exists w. split; [|split; assumption].
  rewrite (group_kept fl i rest _ _ _ _ _ _ H Hrest).
  cbn [group]. rewrite Nat.eqb_refl. reflexivity.
Qed.

(** The results of [findall], as matches of the pattern. *)
Lemma findall_matches (pat : pattern) (m text : string) :
  In m (findall pat text) ->
  exists prev s p' s' cs',
    matches (p_flags pat) (p_re pat) prev s [] p' s' cs' /\ m = group_str 1 cs'.
Proof.
  intros H. apply findall_exec in H. destruct H as [prev [s [res [H ->]]]].
  apply exec_sound in H. destruct H as [p' [s' [cs' [H Hk]]]].
  injection Hk as <-. exists prev, s, p', s', cs'. split; [exact H|reflexivity].
Qed.

(** Every result of the pattern [Net\s+(\d+)\s+days?] is a non-empty string
    of digits. *)
Lemma net_days_digits (m text : string) :
  In m (findall Patterns.payment_terms text) ->
  all Str.is_digit m = true /\ (1 <= String.length m)%nat.
Proof.
  intros H. apply findall_matches in H.
  destruct H as [prev [s [p' [s' [cs' [H ->]]]]]].
  unfold Patterns.payment_terms in H. cbn [p_flags p_re seq] in H.
  apply cat_inv in H. destruct H as [p1 [s1 [cs1 [_ H]]]].
  apply group_after in H; [|cbn; tauto].
  destruct H as [w [Hg [Ha Hl]]].
  unfold group_str. rewrite Hg. split; [|exact Hl].
  rewrite <- Ha. apply all_ext. intros c. symmetry. apply dg_digit.
Qed.

(** Every result of the fallback pattern
    [(?:payment|due)[\s\w]*(\d+)[\s]*(?:days?|months?)] is one digit. *)
Lemma alt_terms_one_digit (m text : string) :
  In m (findall alt_terms_pattern text) ->
  exists d, Str.is_digit d = true /\ m = String d "".
Proof.
  unfold alt_terms_pattern. cbn [seq]. unfold plus.
  apply words_star_digits; [cbn; tauto|].
  intros c. apply dg_digit.
Qed.

(** The payment terms, when the extractor sets them, are "Net N days" for a
    non-empty string of digits N; when they come from the fallback pattern
    (no "Net N days" in the text), N is a single digit: the free text
    before the number takes all its digits but the last. *)
Theorem payment_terms_digits (text : string) (pay : PaymentStructure.t) (t : string) :
  _extract_payment_structure text = Ok pay ->
  PaymentStructure.payment_terms pay = Some t ->
  exists n,
    t = ("Net " ++ n ++ " days")%string
    /\ all Str.is_digit n = true
    /\ (1 <= String.length n)%nat
    /\ (findall Patterns.payment_terms text = [] -> String.length n = 1%nat).
Proof.
  unfold _extract_payment_structure.
  destruct (findall discount_pattern text); [|discriminate].
  cbn [bind]. intros H. injection H as <-. cbn [PaymentStructure.payment_terms].
  destruct (findall Patterns.payment_terms text) as [|m ms] eqn:E1.
  - destruct (findall alt_terms_pattern text) as [|m ms] eqn:E2; [discriminate|].
    intros H. injection H as <-.
    destruct (alt_terms_one_digit m text) as [d [Hd ->]]; [rewrite E2; left; reflexivity|].
    exists (String d ""). split; [reflexivity|]. cbn [all]. rewrite Hd.
    split; [reflexivity|]. split; [cbn; lia|]. reflexivity.
  - intros H. injection H as <-.
    destruct (net_days_digits m text) as [Ha Hl]; [rewrite E1; left; reflexivity|].
    exists m. split; [reflexivity|]. split; [exact Ha|]. split; [exact Hl|].
    discriminate.
Qed.

(** A text without "Net N days". *)
Definition due_in_30 : string := "Payment due within 30 days".

Lemma payment_terms_digits_witness :
  exists pay,
    _extract_payment_structure due_in_30 = Ok pay
    /\ PaymentStructure.payment_terms pay = Some "Net 0 days"
    /\ exists n,
         "Net 0 days" = ("Net " ++ n ++ " days")%string
         /\ all Str.is_digit n = true
         /\ (1 <= String.length n)%nat
         /\ (findall Patterns.payment_terms due_in_30 = [] -> String.length n = 1%nat).
Proof.
  destruct (_extract_payment_structure due_in_30) as [pay|e] eqn:E;
    [|vm_compute in E; discriminate E].
  assert (T : PaymentStructure.payment_terms pay = Some "Net 0 days").
  { vm_compute in E. injection E as <-. reflexivity. }
  exists pay. split; [reflexivity|]. split; [exact T|].
  exact (payment_terms_digits due_in_30 pay "Net 0 days" E T).
Defined.

(** Every result of [(?:termination|cancellation)[\s\w]*([0-9]+)[\s]*(?:days?|months?)]
    is one digit. *)
Lemma termination_one_digit (m text : string) :
  In m (findall termination_pattern text) ->
  exists d, Str.is_digit d = true /\ m = String d "".
Proof.
  unfold termination_pattern. cbn [seq]. unfold plus.
  apply words_star_digits; [cbn; tauto|].
  intros c. apply d09_digit.
Qed.

(** The termination notice, when the extractor sets it, keeps a single
    digit of the period: it is "d days written notice" for one digit d,
    whatever number the text gives. *)
Theorem termination_notice_one_digit (text n : string) :
  RevenueClassification.termination_notice (_extract_revenue_classification text)
  = Some n ->
  exists d, Str.is_digit d = true /\ n = String d " days written notice".
Proof.
  cbn [_extract_revenue_classification RevenueClassification.termination_notice].
  destruct (findall termination_pattern text) as [|m ms] eqn:E; [discriminate|].
  cbn [first option_map]. intros H. injection H as <-.
  destruct (termination_one_digit m text) as [d [Hd ->]]; [rewrite E; left; reflexivity|].
  exists d. split; [exact Hd|reflexivity].
Qed.

Definition notice_of_30 : string := "Termination requires 30 days notice".

Lemma termination_notice_one_digit_witness :
  RevenueClassification.termination_notice (_extract_revenue_classification notice_of_30)
  = Some "0 days written notice"
  /\ exists d, Str.is_digit d = true
               /\ "0 days written notice" = String d " days written notice".
Proof.
  assert (H : RevenueClassification.termination_notice
                (_extract_revenue_classification notice_of_30)
              = Some "0 days written notice") by (vm_compute; reflexivity).
  split; [exact H|].
  exact (termination_notice_one_digit notice_of_30 "0 days written notice" H).
Defined.

(** The late payment fee, when the extractor sets it, is the text
    "P per month on overdue amounts" where P is cut short: a single
    character and the percent sign, or a percentage that starts with the
    point (12% is kept as 2%, 1.5% as .5%). *)
Theorem late_fee_is_cut (text : string) (pay : PaymentStructure.t)
    (f : PaymentStructure.fee) :
  _extract_payment_structure text = Ok pay ->
  PaymentStructure.late_payment_fee pay = Some f ->
  exists m,
    f = PaymentStructure.FeeStr (m ++ " per month on overdue amounts")
    /\ ((exists c, m = String c "%") \/ (exists m', m = String "." m')).
Proof.
  unfold _extract_payment_structure.
  destruct (findall discount_pattern text); [|discriminate].
  cbn [bind]. intros H. injection H as <-. cbn [PaymentStructure.late_payment_fee].
  destruct (findall late_fee_pattern text) as [|m ms] eqn:E; [discriminate|].
  cbn [first option_map]. intros H. injection H as <-.
  exists m. split; [reflexivity|].
  apply (words_star_percent ["late fee"; "penalty"; "interest"] m text).
  change (In m (findall late_fee_pattern text)). rewrite E. left. reflexivity.
Qed.

Definition late_fee_text : string := "A late fee of 1.5% applies".

Lemma late_fee_is_cut_witness :
  exists pay,
    _extract_payment_structure late_fee_text = Ok pay
    /\ PaymentStructure.late_payment_fee pay
       = Some (PaymentStructure.FeeStr ".5% per month on overdue amounts")
    /\ exists m,
         PaymentStructure.FeeStr ".5% per month on overdue amounts"
         = PaymentStructure.FeeStr (m ++ " per month on overdue amounts")
         /\ ((exists c, m = String c "%") \/ (exists m', m = String "." m')).
Proof.
  destruct (_extract_payment_structure late_fee_text) as [pay|e] eqn:E;
    [|vm_compute in E; discriminate E].
  assert (T : PaymentStructure.late_payment_fee pay
              = Some (PaymentStructure.FeeStr ".5% per month on overdue amounts")).
  { vm_compute in E. injection E as <-. reflexivity. }
  exists pay. split; [reflexivity|]. split; [exact T|].
  exact (late_fee_is_cut late_fee_text pay _ E T).
Defined.

(** The pricing adjustment, when the extractor sets it, is
    "Limited to P annually" where P is cut short in the same way: a single
    character and the percent sign, or a percentage that starts with the
    point. *)
Theorem pricing_adjustment_is_cut (text a : string) :
  RevenueClassification.pricing_adjustments (_extract_revenue_classification text)
  = Some a ->
  exists m,
    a = ("Limited to " ++ m ++ " annually")%string
    /\ ((exists c, m = String c "%") \/ (exists m', m = String "." m')).
Proof.
  cbn [_extract_revenue_classification RevenueClassification.pricing_adjustments].
  destruct (findall pricing_pattern text) as [|m ms] eqn:E; [discriminate|].
  cbn [first option_map]. intros H. injection H as <-.
  exists m. split; [reflexivity|].
  apply (words_star_percent ["price increase"; "adjustment"] m text).
  change (In m (findall pricing_pattern text)). rewrite E. left. reflexivity.
Qed.

Definition increase_text : string := "Annual price increase capped at 10%".

Lemma pricing_adjustment_is_cut_witness :
  RevenueClassification.pricing_adjustments (_extract_revenue_classification increase_text)
  = Some "Limited to 0% annually"
  /\ exists m,
       "Limited to 0% annually" = ("Limited to " ++ m ++ " annually")%string
       /\ ((exists c, m = String c "%") \/ (exists m', m = String "." m')).
Proof.
  assert (H : RevenueClassification.pricing_adjustments
                (_extract_revenue_classification increase_text)
              = Some "Limited to 0% annually") by (vm_compute; reflexivity).
  split; [exact H|].
  exact (pricing_adjustment_is_cut increase_text "Limited to 0% annually" H).
Defined.

(** A character of [[0-9.]] that [[\s\w]] does not take is the point. *)
Lemma point_not_word (c : ascii) :
  atom_ok IGNORECASE (cls [R "0" "9"; C "."]) c = true ->
  atom_ok IGNORECASE space_word c = false ->
  c = "."%char.
Proof.
  destruct c as [[] [] [] [] [] [] [] []]; vm_compute; intros H1 H2;
    try discriminate H1; try discriminate H2; reflexivity.
Qed.

(** [(?:w1|...)[\s\w]*([0-9.]+)rest]: every result of [findall] is one
    character, or starts with the point. *)
Lemma words_star_decimal (ws : list string) (rest : regex) (m text : string) :
  ~ In 1%nat (groups rest) ->
  In m (findall
          (compile IGNORECASE
             (Cat (words ws)
                (Cat (star space_word)
                   (Cat (Grp 1 (plus (cls [R "0" "9"; C "."]))) rest))))
          text) ->
  String.length m = 1%nat \/ (exists m', m = String "." m').
Proof.
  intros Hrest H. apply findall_exec in H.
  destruct H as [prev [s [res [H ->]]]]. cbn [p_flags p_re] in H.
  apply exec_cat_sound in H. destruct H as [p1 [s1 [cs1 [_ H]]]].
  unfold plus, star in H.
  change (exec IGNORECASE
            (Cat (Rep space_word 0 None)
               (Cat (Grp 1 (Cat (Rep (cls [R "0" "9"; C "."]) 1 None) Eps)) rest))
            p1 s1 cs1 final = Some res) in H.
  apply (star_leaves_one IGNORECASE space_word (cls [R "0" "9"; C "."]) 1 rest Hrest Eps)
    in H; [|intros []].
  destruct H as [w [g [Hg [Ha [Hl [Hone [pg [pg' [sg [cg [cg' HG]]]]]]]]]]].
  assert (Eg : g = EmptyString).
  { inversion HG; subst.
    match goal with E : (g ++ sg)%string = sg |- _ => exact (append_self g sg E) end. }
  subst g. rewrite append_empty in Hg.
  unfold group_str. rewrite Hg.
  destruct w as [|c [|c2 w']].
  - cbn in Hl. lia.
  - left. reflexivity.
  - right. exists (String c2 w'). f_equal.
    cbn [all] in Ha. apply andb_prop in Ha. destruct Ha as [Hc _].
    exact (point_not_word c Hc (Hone c c2 w' eq_refl)).
Qed.

(** The performance metrics, when the extractor records them, hold cut
    values: the system response time is "< V seconds" where V is a single
    character or a value that starts with the point (2.5 is kept as .5), and
    the backup success rate is a single character and the percent sign or a
    percentage that starts with the point. *)
Theorem performance_metrics_are_cut (text : string) (pm : PerformanceMetrics.t) :
  SLATerms.performance_metrics (_extract_sla_terms text) = Some pm ->
  (forall t,
     PerformanceMetrics.system_response_time pm = Some t ->
     exists v,
       t = ("< " ++ v ++ " seconds")%string
       /\ (String.length v = 1%nat \/ exists v', v = String "." v'))
  /\ (forall r,
        PerformanceMetrics.backup_success_rate pm = Some r ->
        (exists c, r = String c "%") \/ (exists r', r = String "." r')).
Proof.
  cbn [_extract_sla_terms SLATerms.performance_metrics].
  assert (Hr : forall m, In m (findall response_time_pattern text) ->
                 String.length m = 1%nat \/ (exists m', m = String "." m')).
  { intros m. unfold response_time_pattern. cbn [seq].
    apply words_star_decimal. cbn. tauto. }
  assert (Hb : forall m, In m (findall backup_pattern text) ->
                 (exists c, m = String c "%") \/ (exists m', m = String "." m')).
  { intros m. apply (words_star_percent ["backup success"; "backup rate"]). }
  destruct (findall response_time_pattern text) as [|m1 l1];
    destruct (findall backup_pattern text) as [|m2 l2];
    cbn [app]; intros H; try discriminate H; injection H as <-;
    (split; [intros t Ht|intros r Hr']).
  - discriminate Ht.
  - injection Hr' as <-. apply Hb. left. reflexivity.
  - injection Ht as <-. exists m1. split; [reflexivity|]. apply Hr. left. reflexivity.
  - discriminate Hr'.
  - injection Ht as <-. exists m1. split; [reflexivity|]. apply Hr. left. reflexivity.
  - injection Hr' as <-. apply Hb. left. reflexivity.
Qed.

Definition metrics_text : string :=
  "System response time under 2.5 seconds. Backup success rate of 99.9%".

Definition cut_metrics : PerformanceMetrics.t :=
  {| PerformanceMetrics.system_response_time := Some "< .5 seconds";
     PerformanceMetrics.backup_success_rate := Some ".9%";
     PerformanceMetrics.security_patch_deployment := None |}.

Lemma performance_metrics_are_cut_witness :
  SLATerms.performance_metrics (_extract_sla_terms metrics_text) = Some cut_metrics
  /\ (exists v,
        "< .5 seconds" = ("< " ++ v ++ " seconds")%string
        /\ (String.length v = 1%nat \/ exists v', v = String "." v'))
  /\ ((exists c, ".9%" = String c "%") \/ (exists r', ".9%" = String "." r')).
Proof.
  assert (H : SLATerms.performance_metrics (_extract_sla_terms metrics_text)
              = Some cut_metrics) by (vm_compute; reflexivity).
  destruct (performance_metrics_are_cut metrics_text cut_metrics H) as [H1 H2].
  split; [exact H|]. split; [exact (H1 _ eq_refl)|exact (H2 _ eq_refl)].
Defined.

End CaptureFacts.

(* ------------------------------------------------------------------ *)
(** * Names and addresses are stored with single spaces *)

Module SpaceFacts.

Import WordFacts.

(** The pattern [\s+] of [collapse_spaces]. *)
Definition spaces : pattern := compile NOFLAGS (plus Patterns.sp).

Definition space_opt (c : option ascii) : bool :=
  match c with Some x => Str.is_space x | None => false end.

(** Every whitespace character of [t] is a plain space, and none is
    followed by another whitespace character. *)
Fixpoint single_spaced (t : string) : bool :=
  match t with
  | EmptyString => true
  | String c t' =>
      (negb (Str.is_space c) || (Ascii.eqb c " " && negb (space_opt (head t'))))
      && single_spaced t'
  end.

Lemma sp_space (c : ascii) : atom_ok NOFLAGS Patterns.sp c = Str.is_space c.
Proof.
  unfold Patterns.sp, cls. cbn [atom_ok existsb item_ok xorb].
  rewrite orb_false_r. reflexivity.
Qed.

(** A greedy run of whitespace with nothing after it in the pattern takes
    all the leading whitespace. *)
Lemma rep_space_final (ok : ascii -> bool) (s : string) :
  (forall c, ok c = Str.is_space c) ->
  forall p cs, rep ok 0 None p s cs final = Some (Str.lstrip s, cs).
Proof.
  intros Hok.
  induction s as [|c s IH]; intros p cs; cbn [rep Str.lstrip hi_open andb pred option_map].
  - reflexivity.
  - rewrite Hok. destruct (Str.is_space c); cbn [andb]; [|reflexivity].
    rewrite IH. reflexivity.
Qed.

Lemma lstrip_length (s : string) : (String.length (Str.lstrip s) <= String.length s)%nat.
Proof.
  induction s as [|c s IH]; cbn [Str.lstrip String.length]; [lia|].
  destruct (Str.is_space c); cbn [String.length]; lia.
Qed.

Lemma take_length (n : nat) (s : string) :
  (n <= String.length s)%nat -> String.length (Str.take n s) = n.
Proof.
  revert s. induction n as [|n IH]; intros s H; [destruct s; reflexivity|].
  destruct s as [|c s]; cbn [String.length] in H; [lia|].
  cbn [Str.take String.length]. rewrite IH by lia. reflexivity.
Qed.

(** The pattern matches where a whitespace character stands, and takes the
    whole run. *)
Lemma match_here_spaces (prev : option ascii) (s : string) :
  match_here spaces prev s
  = match s with
    | String c s' =>
        if Str.is_space c
        then Some (Str.take (S (String.length s' - String.length (Str.lstrip s'))) s, [])
        else None
    | EmptyString => None
    end.
Proof.
  unfold match_here, spaces, plus. cbn [p_flags p_re exec].
  destruct s as [|c s']; cbn [rep]; [reflexivity|].
  rewrite sp_space. cbn [hi_open andb pred option_map].
  destruct (Str.is_space c); cbn [andb]; [|reflexivity].
  change (fun (_ : option ascii) (s1 : string) (cs1 : caps) => Some (s1, cs1))
    with final.
  rewrite (rep_space_final _ s' sp_space). pose proof (lstrip_length s'). cbn [String.length].
  replace (S (String.length s') - String.length (Str.lstrip s'))%nat
    with (S (String.length s' - String.length (Str.lstrip s'))) by lia.
  reflexivity.
Qed.

(** Skipping the leading whitespace of [s] leaves the substitution at
    what comes after it. *)
Lemma sub_skip_spaces (repl : string) (s : string) :
  forall prev,
    exists prev',
      sub_from spaces repl prev s (String.length s - String.length (Str.lstrip s))
      = sub_from spaces repl prev' (Str.lstrip s) 0.
Proof.
  induction s as [|c s IH]; intros prev.
  - exists prev. reflexivity.
  - cbn [Str.lstrip]. destruct (Str.is_space c) eqn:E.
    + pose proof (lstrip_length s). cbn [String.length].
      replace (S (String.length s) - String.length (Str.lstrip s))%nat
        with (S (String.length s - String.length (Str.lstrip s))) by lia.
      cbn [sub_from]. apply IH.
    + exists prev. rewrite Nat.sub_diag. reflexivity.
Qed.

Lemma lstrip_head (s : string) : space_opt (head (Str.lstrip s)) = false.
Proof.
  induction s as [|c s IH]; cbn [Str.lstrip]; [reflexivity|].
  destruct (Str.is_space c) eqn:E; [exact IH|]. cbn [head space_opt]. exact E.
Qed.

(** The substitution of a space for every run of whitespace: the result is
    single-spaced, and starts as the text does when that is not with
    whitespace. *)
Lemma sub_spaces_single (n : nat) :
  forall s prev,
    (String.length s <= n)%nat ->
    single_spaced (sub_from spaces " " prev s 0) = true
    /\ (space_opt (head s) = false -> head (sub_from spaces " " prev s 0) = head s).
Proof.
  induction n as [|n IH]; intros s prev Hn.
  - destruct s; [|cbn in Hn; lia]. split; reflexivity.
  - destruct s as [|c s]; [split; reflexivity|].
    cbn [String.length] in Hn.
    cbn [sub_from]. rewrite match_here_spaces.
    destruct (Str.is_space c) eqn:E.
    + pose proof (lstrip_length s) as Hl.
      rewrite take_length by (cbn [String.length]; lia).
      destruct (sub_skip_spaces " " s (Some c)) as [prev' Es]. rewrite Es.
      destruct (IH (Str.lstrip s) prev' ltac:(lia)) as [H1 H2].
      split; [|cbn [head space_opt]; rewrite E; discriminate].
      cbn [append single_spaced]. rewrite H1, andb_true_r.
      rewrite (H2 (lstrip_head s)), lstrip_head. rewrite orb_true_r. reflexivity.
    + destruct (IH s (Some c) ltac:(lia)) as [H1 _].
      split; [|reflexivity].
      cbn [single_spaced]. rewrite E, H1. reflexivity.
Qed.

Lemma single_spaced_lstrip (t : string) :
  single_spaced t = true -> single_spaced (Str.lstrip t) = true.
Proof.
  induction t as [|c t IH]; cbn [Str.lstrip]; [reflexivity|].
  destruct (Str.is_space c); intros H; [|exact H].
  cbn [single_spaced] in H. apply andb_prop in H. apply IH. tauto.
Qed.

(** What [rstrip] leaves, when it leaves something, starts as the text
    does. *)
Lemma rstrip_head (t : string) :
  Str.rstrip t <> EmptyString -> head (Str.rstrip t) = head t.
Proof.
  destruct t as [|c t]; cbn [Str.rstrip]; [reflexivity|].
  destruct (Str.rstrip t); [destruct (Str.is_space c)|]; intros H;
    [contradiction H|reflexivity|]; reflexivity.
Qed.

Lemma single_spaced_rstrip (t : string) :
  single_spaced t = true -> single_spaced (Str.rstrip t) = true.
Proof.
  induction t as [|c t IH]; [reflexivity|].
  cbn [single_spaced]. intros H. apply andb_prop in H. destruct H as [Hc Ht].
  specialize (IH Ht). cbn [Str.rstrip].
  destruct (Str.rstrip t) as [|d u] eqn:E.
  - destruct (Str.is_space c) eqn:Ec; [reflexivity|].
    cbn [single_spaced]. rewrite Ec. reflexivity.
  - cbn [single_spaced] in IH |- *. rewrite IH, andb_true_r.
    assert (Hh : head t = Some d).
    { rewrite <- (rstrip_head t) by (rewrite E; discriminate). rewrite E. reflexivity. }
    rewrite Hh in Hc. exact Hc.
Qed.

Lemma rstrip_idem (t : string) : Str.rstrip (Str.rstrip t) = Str.rstrip t.
Proof.
  induction t as [|c t IH]; [reflexivity|].
  cbn [Str.rstrip]. destruct (Str.rstrip t) as [|d u] eqn:E.
  - destruct (Str.is_space c) eqn:Ec; [reflexivity|].
    cbn [Str.rstrip]. rewrite Ec. reflexivity.
  - cbn [Str.rstrip]. cbn [Str.rstrip] in IH. rewrite IH. reflexivity.
Qed.

Lemma lstrip_fix (t : string) : space_opt (head t) = false -> Str.lstrip t = t.
Proof.
  destruct t as [|c t]; cbn [head space_opt Str.lstrip]; [reflexivity|].
  intros ->. reflexivity.
Qed.

Lemma strip_idem (t : string) : Str.strip (Str.strip t) = Str.strip t.
Proof.
  unfold Str.strip.
  assert (H : space_opt (head (Str.rstrip (Str.lstrip t))) = false).
  { destruct (Str.rstrip (Str.lstrip t)) as [|d u] eqn:E; [reflexivity|].
    rewrite <- E, rstrip_head by (rewrite E; discriminate). apply lstrip_head. }
  rewrite (lstrip_fix _ H). apply rstrip_idem.
Qed.

(** A single-spaced text has no line break to replace and no run of
    whitespace to collapse. *)
Lemma replace_single (t : string) :
  single_spaced t = true -> Str.replace newline " " t = t.
Proof.
  induction t as [|c t IH]; [reflexivity|].
  cbn [single_spaced Str.replace]. intros H. apply andb_prop in H. destruct H as [Hc Ht].
  rewrite (IH Ht).
  destruct (Ascii.eqb c newline) eqn:E; [|reflexivity].
  apply Ascii.eqb_eq in E. subst c. vm_compute in Hc. discriminate Hc.
Qed.

Lemma sub_single (t : string) :
  single_spaced t = true -> forall prev, sub_from spaces " " prev t 0 = t.
Proof.
  induction t as [|c t IH]; intros H prev; [reflexivity|].
  cbn [single_spaced] in H. apply andb_prop in H. destruct H as [Hc Ht].
  cbn [sub_from]. rewrite match_here_spaces.
  destruct (Str.is_space c) eqn:E.
  - cbn [negb orb] in Hc. apply andb_prop in Hc. destruct Hc as [Hc Hn].
    apply Ascii.eqb_eq in Hc. subst c. apply negb_true_iff in Hn.
    rewrite (lstrip_fix t Hn), Nat.sub_diag.
    rewrite take_length by (cbn [String.length]; lia).
    rewrite (IH Ht). reflexivity.
  - rewrite (IH Ht). reflexivity.
Qed.

(** Whatever the text, what [collapse_spaces] returns, and so every
    address, service name and company name the extractors store, is
    single-spaced (its only whitespace is single plain spaces: no line
    break, no tab, no run of spaces) and has no whitespace at either end;
    collapsing it again changes nothing. *)
Theorem collapse_spaces_normalises (s : string) :
  single_spaced (collapse_spaces s) = true
  /\ Str.strip (collapse_spaces s) = collapse_spaces s
  /\ collapse_spaces (collapse_spaces s) = collapse_spaces s.
Proof.
  assert (H1 : single_spaced (collapse_spaces s) = true).
  { unfold collapse_spaces, Str.strip, sub. fold spaces.
    apply single_spaced_rstrip, single_spaced_lstrip.
    exact (proj1 (sub_spaces_single _ _ None (Nat.le_refl _))). }
  assert (H2 : Str.strip (collapse_spaces s) = collapse_spaces s).
  { unfold collapse_spaces. apply strip_idem. }
  split; [exact H1|]. split; [exact H2|].
  unfold collapse_spaces at 1. rewrite (replace_single _ H1).
  unfold sub. fold spaces. rewrite (sub_single _ H1). exact H2.
Qed.

(** The whitespace of a stored address, on an example. *)
Example collapse_spaces_address :
  collapse_spaces ("  12 Main" ++ String newline "   Street,  Springfield 62701 ")
  = "12 Main Street, Springfield 62701".
Proof. vm_compute. reflexivity. Qed.

End SpaceFacts.

(* ------------------------------------------------------------------ *)
(** * The names the party extractor picks without a label *)

Module PartyExtras.

Import PartiesFacts.

(** A name the loop over the customer patterns gives has passed its test. *)
Lemma customer_by_pattern_ok (pats : list pattern) (text : string)
    (provider : option string) (c : string) :
  customer_by_pattern pats text provider = Some c ->
  differs c provider = true /\ (5 <= String.length c)%nat.
Proof.
  induction pats as [|p pats IH]; cbn [customer_by_pattern]; [discriminate|].
  destruct (search p text) as [[m cs]|]; [|exact IH].
  destruct (differs (clean_company_name (group_str 1 cs)) provider
            && (5 <=? String.length (clean_company_name (group_str 1 cs)))%nat
            && negb (existsb
                       (fun term =>
                          Str.contains term (Str.lower (clean_company_name (group_str 1 cs))))
                       ["service provider"; "liability"; "shall"; "will"])) eqn:E;
    [|exact IH].
  intros H. injection H as <-.
  apply andb_prop in E. destruct E as [E _].
  apply andb_prop in E. destruct E as [E1 E2].
  split; [exact E1|]. apply Nat.leb_le. exact E2.
Qed.

Lemma valid_company_length (c : string) :
  valid_company c = true -> (5 <= String.length c)%nat.
Proof.
  unfold valid_company. intros H.
  apply andb_prop in H. destruct H as [H _].
  apply andb_prop in H. destruct H as [H _].
  apply Nat.leb_le. exact H.
Qed.

Lemma name_init (n : option string) (rest : kwargs (option string)) :
  PartyInfo.name (PartyInfo.init (("name", n) :: rest)) = n.
Proof. reflexivity. Qed.

Section Facts.

Variable set_iteration : list string -> list string.

Lemma valid_companies_valid (text c : string) :
  In c (valid_companies set_iteration text) -> valid_company c = true.
Proof.
  unfold valid_companies. intros H. apply filter_In in H. tauto.
Qed.

(** The customer name resolved in a text without a "Client:" label. *)
Lemma unlabelled_customer_name (text c : string) :
  search Patterns.client_company text = None ->
  customer_name set_iteration text = Some c ->
  c <> "" ->
  differs c (service_provider_name set_iteration text) = true
  /\ (5 <= String.length c)%nat.
Proof.
  intros Hc. unfold customer_name. rewrite Hc.
  set (chosen :=
         if (1 <? List.length (valid_companies set_iteration text))%nat
         then List.find
                (fun company => differs company (service_provider_name set_iteration text))
                (valid_companies set_iteration text)
         else None).
  assert (Hchosen : forall x, chosen = Some x ->
            differs x (service_provider_name set_iteration text) = true
            /\ (5 <= String.length x)%nat).
  { intros x. unfold chosen.
    destruct (1 <? List.length (valid_companies set_iteration text))%nat;
      [|discriminate].
    intros H. apply find_some in H. destruct H as [Hin Hd].
    split; [exact Hd|].
    apply valid_company_length. exact (valid_companies_valid text x Hin). }
  destruct (truthy_opt Str.truthy chosen) eqn:Et.
  - intros H _. exact (Hchosen c H).
  - destruct (customer_by_pattern customer_patterns text
                (service_provider_name set_iteration text)) as [c'|] eqn:Ep.
    + intros H _. injection H as <-.
      exact (customer_by_pattern_ok _ _ _ _ Ep).
    + intros H Hne. exfalso. rewrite H in Et. destruct c; [apply Hne; reflexivity|].
      discriminate Et.
Qed.

(** In a text without a "Client:" label, a customer returned beside a
    service provider is another company: the two names differ, and the
    customer's name has at least five characters. *)
Theorem unlabelled_customer_differs (text : string) (sp cu : PartyInfo.t) :
  search Patterns.client_company text = None ->
  Parties.service_provider (_extract_parties set_iteration text) = Some sp ->
  Parties.customer (_extract_parties set_iteration text) = Some cu ->
  PartyInfo.name cu <> PartyInfo.name sp
  /\ exists n, PartyInfo.name cu = Some n /\ (5 <= String.length n)%nat.
Proof.
  intros Hc Hsp Hcu.
  apply service_provider_inv in Hsp. destruct Hsp as [Hts ->].
  apply customer_inv in Hcu. destruct Hcu as [Htc ->].
  apply truthy_name in Htc. destruct Htc as [c [Ec Hne]].
  apply truthy_name in Hts. destruct Hts as [s [Es _]].
  destruct (unlabelled_customer_name text c Hc Ec Hne) as [Hd Hl].
  rewrite !name_init. rewrite Ec. split.
  - rewrite Es in Hd |- *. cbn [differs] in Hd. intros H. injection H as ->.
    rewrite String.eqb_refl in Hd. discriminate Hd.
  - exists c. split; [reflexivity|exact Hl].
Qed.

(** In a text with neither a "Consultant:" nor a "Service Provider:" label,
    the service provider returned is a company that passed the filter: at
    least five characters, none of the excluded terms (job titles, legal
    terms, "customer", "client", ...) and no leading "the", "this", "such"
    or "any". *)
Theorem unlabelled_provider_is_valid (text : string) (sp : PartyInfo.t) :
  search Patterns.consultant_company text = None ->
  search Patterns.service_provider text = None ->
  Parties.service_provider (_extract_parties set_iteration text) = Some sp ->
  exists n, PartyInfo.name sp = Some n /\ valid_company n = true.
Proof.
  intros H1 H2 Hsp.
  apply service_provider_inv in Hsp. destruct Hsp as [Ht ->].
  rewrite name_init.
  unfold service_provider_name in *. rewrite H1, H2 in *.
  destruct (valid_companies set_iteration text) as [|n l] eqn:E;
    [discriminate Ht|].
  exists n. split; [reflexivity|].
  apply (valid_companies_valid text). rewrite E. left. reflexivity.
Qed.

End Facts.

(** Two companies and no label. *)
Definition unlabelled : string :=
  "Agreement between Acme Consulting LLC, and Beta Corp Inc" ++ nl ++ "Payment due".

Definition unlabelled_provider : PartyInfo.t :=
  PartyInfo.init [("name", Some "Agreement between Acme Consulting LLC")].

Definition unlabelled_customer : PartyInfo.t :=
  PartyInfo.init [("name", Some "Beta Corp Inc")].

Example unlabelled_extracted :
  search Patterns.client_company unlabelled = None
  /\ search Patterns.consultant_company unlabelled = None
  /\ search Patterns.service_provider unlabelled = None
  /\ Parties.service_provider (_extract_parties some_order unlabelled)
     = Some unlabelled_provider
  /\ Parties.customer (_extract_parties some_order unlabelled)
     = Some unlabelled_customer.
Proof. vm_compute. repeat split; reflexivity. Qed.

Lemma unlabelled_customer_differs_witness :
  PartyInfo.name unlabelled_customer <> PartyInfo.name unlabelled_provider
  /\ exists n, PartyInfo.name unlabelled_customer = Some n /\ (5 <= String.length n)%nat.
Proof.
  destruct unlabelled_extracted as [Hc [_ [_ [Hsp Hcu]]]].
  exact (unlabelled_customer_differs some_order unlabelled
           unlabelled_provider unlabelled_customer Hc Hsp Hcu).
Defined.

Lemma unlabelled_provider_is_valid_witness :
  exists n, PartyInfo.name unlabelled_provider = Some n /\ valid_company n = true.
Proof.
  destruct unlabelled_extracted as [_ [H1 [H2 [Hsp _]]]].
  exact (unlabelled_provider_is_valid some_order unlabelled unlabelled_provider H1 H2 Hsp).
Defined.

End PartyExtras.

(* ------------------------------------------------------------------ *)
(** * The financial details: texts without an amount, and fixed fees *)

Module FinancialExtras.

Import MatchFacts.
Import FinancialFacts.
Import GreedyFacts.

(** The character [c] is in [s]. *)
Fixpoint has (c : ascii) (s : string) : bool :=
  match s with
  | EmptyString => false
  | String x s' => Ascii.eqb x c || has c s'
  end.

Lemma contains_char (c : ascii) (s : string) :
  Str.contains (String c "") s = has c s.
Proof.
  induction s as [|x s IH]; cbn [Str.contains Str.startswith has]; [reflexivity|].
  rewrite IH, andb_true_r, Ascii.eqb_sym. reflexivity.
Qed.

Lemma has_append (c : ascii) (a b : string) :
  has c (a ++ b) = has c a || has c b.
Proof.
  induction a as [|x a IH]; cbn [append has]; [reflexivity|].
  rewrite IH, orb_assoc. reflexivity.
Qed.

(** A pattern none of whose matches is without a dollar sign: the sign is
    on every path through it. *)
Fixpoint needs_dollar (r : regex) : bool :=
  match r with
  | One (Lit c) => Ascii.eqb c "$"
  | Cat r1 r2 => needs_dollar r1 || needs_dollar r2
  | Alt r1 r2 => needs_dollar r1 && needs_dollar r2
  | Grp _ r1 => needs_dollar r1
  | _ => false
  end.

Lemma dollar_only (fl : flags) (c : ascii) :
  atom_ok fl (Lit "$") c = true -> c = "$"%char.
Proof.
  cbn [atom_ok]. destruct (icase fl); intros H; apply Ascii.eqb_eq in H;
    [|exact H].
  change (Str.fold_case "$") with "$"%char in H. revert H.
  unfold Str.fold_case, Str.is_upper, Str.between, Str.code.
  change (N_of_ascii "A") with 65%N. change (N_of_ascii "Z") with 90%N.
  destruct ((65 <=? N_of_ascii c)%N && (N_of_ascii c <=? 90)%N) eqn:E;
    [|intros H; exact H].
  apply andb_prop in E. destruct E as [E1 E2].
  apply N.leb_le in E1. apply N.leb_le in E2. intros H.
  apply (f_equal N_of_ascii) in H. rewrite N_ascii_embedding in H by lia.
  change (N_of_ascii "$") with 36%N in H. lia.
Qed.

Lemma matches_need_dollar (fl : flags) (r : regex) (p : option ascii) (s : string)
    (cs : caps) (p' : option ascii) (s' : string) (cs' : caps) :
  matches fl r p s cs p' s' cs' ->
  needs_dollar r = true ->
  exists u, splits s u s' /\ has "$" u = true.
Proof.
  induction 1 as [p s cs|a p c s cs Ha|a lo hi p s cs p' s' Hr
                 |r1 r2 p s cs p1 s1 cs1 p2 s2 cs2 H1 IH1 H2 IH2
                 |r1 r2 p s cs p' s' cs' _ IH|r1 r2 p s cs p' s' cs' _ IH
                 |i r p s cs p' s' cs' _ IH|p s cs Hb|p s cs He|p s cs Hw];
    cbn [needs_dollar]; intros Hn; try discriminate Hn.
  - destruct a as [x| |]; try discriminate Hn.
    apply Ascii.eqb_eq in Hn. subst x. apply dollar_only in Ha. subst c.
    exists (String "$" ""). split; reflexivity.
  - destruct (matches_splits _ _ _ _ _ _ _ _ H1) as [u1 E1].
    destruct (matches_splits _ _ _ _ _ _ _ _ H2) as [u2 E2].
    unfold splits in *.
    apply orb_true_iff in Hn. destruct Hn as [Hn|Hn].
    + destruct (IH1 Hn) as [u [E Hu]].
      exists (u ++ u2)%string. rewrite E, E2, append_assoc, has_append, Hu.
      split; reflexivity.
    + destruct (IH2 Hn) as [u [E Hu]].
      exists (u1 ++ u)%string. rewrite E1, E, append_assoc, has_append, Hu, orb_true_r.
      split; reflexivity.
  - apply andb_prop in Hn. apply IH. tauto.
  - apply andb_prop in Hn. apply IH. tauto.
  - apply IH. exact Hn.
Qed.

(** The positions at which [scan] looks are the ends of the text. *)
Lemma scan_in_suffix (pat : pattern) (x : string * caps) (s : string) :
  forall prev skip,
    In x (scan pat prev s skip) ->
    exists prev' u s', splits s u s' /\ match_here pat prev' s' = Some x.
Proof.
  induction s as [|c s IH]; intros prev skip H.
  - destruct skip; cbn [scan] in H; [|destruct H].
    destruct (match_here pat prev EmptyString) as [[m cs]|] eqn:E; [|destruct H].
    destruct H as [<-|[]]. exists prev, EmptyString, EmptyString.
    split; [reflexivity|exact E].
  - assert (Hrec : forall prev' skip', In x (scan pat prev' s skip') ->
              exists prev'' u s', splits (String c s) u s'
                                  /\ match_here pat prev'' s' = Some x).
    { intros prev' skip' Hin. destruct (IH _ _ Hin) as [q [u [s' [E Hm]]]].
      exists q, (String c u), s'. unfold splits in *. rewrite E.
      split; [reflexivity|exact Hm]. }
    destruct skip; cbn [scan] in H; [|exact (Hrec _ _ H)].
    destruct (match_here pat prev (String c s)) as [[m cs]|] eqn:E.
    + destruct H as [<-|H]; [|exact (Hrec _ _ H)].
      exists prev, EmptyString, (String c s). split; [reflexivity|exact E].
    + exact (Hrec _ _ H).
Qed.

(** A pattern that needs a dollar sign has no match in a text without. *)
Lemma finditer_needs_dollar (pat : pattern) (text : string) :
  needs_dollar (p_re pat) = true ->
  has "$" text = false ->
  finditer pat text = [].
Proof.
  intros Hn Ht. destruct (finditer pat text) as [|x l] eqn:E; [reflexivity|].
  exfalso.
  assert (Hin : In x (scan pat None text 0))
    by (fold (finditer pat text); rewrite E; left; reflexivity).
  apply scan_in_suffix in Hin. destruct Hin as [prev [u [s' [Es Hm]]]].
  destruct x as [m cs].
  apply match_here_sound in Hm. destruct Hm as [p' [s'' Hm]].
  destruct (matches_need_dollar _ _ _ _ _ _ _ _ Hm Hn) as [w [Ew Hw]].
  unfold splits in *. rewrite Es, Ew, !has_append, Hw in Ht.
  rewrite orb_true_r in Ht. discriminate Ht.
Qed.

(** For a text without a dollar sign, the financial extractor returns
    (it does not raise) a record without data: no line items, no monthly and
    no one-time costs, both totals the integer 0, no annual contract value,
    and the currency "USD". *)
Theorem no_dollar_no_financials (text : string) :
  Str.contains "$" text = false ->
  _extract_financial_details text
  = Ok {| FinancialDetails.line_items := None;
          FinancialDetails.monthly_costs := None;
          FinancialDetails.one_time_costs := None;
          FinancialDetails.total_monthly := Some (Num.Int 0);
          FinancialDetails.total_one_time := Some (Num.Int 0);
          FinancialDetails.annual_contract_value := None;
          FinancialDetails.currency := Some "USD" |}.
Proof.
  intros H. rewrite contains_char in H.
  unfold _extract_financial_details, findall, findall3.
  rewrite (finditer_needs_dollar Patterns.currency_amount text eq_refl H).
  rewrite (finditer_needs_dollar service_rate_pattern text eq_refl H).
  rewrite (finditer_needs_dollar hourly_pattern text eq_refl H).
  rewrite (finditer_needs_dollar monthly_pattern text eq_refl H).
  rewrite (finditer_needs_dollar setup_pattern text eq_refl H).
  rewrite (finditer_needs_dollar annual_pattern text eq_refl H).
  reflexivity.
Qed.

(** Amounts without the sign. *)
Definition no_sign : string :=
  "Monthly Total: 500 USD. Consulting: 10 hours (1000 USD). Term: 24 months".

Lemma no_dollar_no_financials_witness :
  fmap FinancialDetails.total_monthly (_extract_financial_details no_sign)
  = Ok (Some (Num.Int 0))
  /\ fmap FinancialDetails.line_items (_extract_financial_details no_sign) = Ok None.
Proof.
  rewrite (no_dollar_no_financials no_sign); [|vm_compute; reflexivity].
  split; reflexivity.
Defined.

(** ** Amounts without a digit *)

Lemma rep_inv (fl : flags) (a : atom) (lo : nat) (hi : option nat) (p : option ascii)
    (s : string) (cs : caps) (p' : option ascii) (s' : string) (cs' : caps) :
  matches fl (Rep a lo hi) p s cs p' s' cs' ->
  cs' = cs
  /\ exists w, splits s w s' /\ all (atom_ok fl a) w = true /\ (lo <= String.length w)%nat.
Proof.
  intros H. inversion H as [| |a0 lo0 hi0 p0 s0 cs0 p0' s0' Hr| | | | | | |]; subst.
  split; [reflexivity|]. exact (reps_split _ _ _ _ _ _ _ Hr).
Qed.

(** What the pattern [[0-9,]+\.?[0-9]*] takes: digits and commas, points,
    digits. *)
Lemma amount_shape (fl : flags) (p : option ascii) (s : string) (cs : caps)
    (p' : option ascii) (s' : string) (cs' : caps) :
  matches fl Patterns.amount p s cs p' s' cs' ->
  cs' = cs
  /\ exists w1 wd w2,
       s = ((w1 ++ wd ++ w2) ++ s')%string
       /\ all (atom_ok fl (cls [R "0" "9"; C ","])) w1 = true
       /\ all (atom_ok fl (Lit ".")) wd = true
       /\ all (atom_ok fl Patterns.d09) w2 = true.
Proof.
  unfold Patterns.amount. cbn [seq]. intros H.
  apply cat_inv in H. destruct H as [p1 [s1 [cs1 [H1 H]]]].
  apply cat_inv in H. destruct H as [p2 [s2 [cs2 [H2 H3]]]].
  apply rep_inv in H1. destruct H1 as [-> [w1 [E1 [A1 _]]]].
  apply rep_inv in H2. destruct H2 as [-> [wd [E2 [A2 _]]]].
  apply rep_inv in H3. destruct H3 as [-> [w2 [E3 [A3 _]]]].
  split; [reflexivity|]. exists w1, wd, w2.
  unfold splits in *. subst s s1 s2.
  rewrite !append_assoc. repeat split; assumption.
Qed.

Lemma grp_inv (fl : flags) (i : nat) (r : regex) (p : option ascii) (s : string)
    (cs : caps) (p' : option ascii) (s' : string) (cs' : caps) :
  matches fl (Grp i r) p s cs p' s' cs' ->
  exists cs1,
    matches fl r p s cs p' s' cs1
    /\ cs' = (i, Str.take (String.length s - String.length s') s) :: cs1.
Proof.
  intros H. inversion H; subst. eexists. split; [eassumption|reflexivity].
Qed.

Lemma comma_only (c : ascii) :
  atom_ok IGNORECASE (cls [R "0" "9"; C ","]) c = true ->
  Str.is_digit c = false -> c = ","%char.
Proof.
  destruct c as [[] [] [] [] [] [] [] []]; vm_compute; intros H1 H2;
    try discriminate H1; try discriminate H2; reflexivity.
Qed.

Lemma point_only (c : ascii) : atom_ok IGNORECASE (Lit ".") c = true -> c = "."%char.
Proof.
  destruct c as [[] [] [] [] [] [] [] []]; vm_compute; intros H1;
    try discriminate H1; reflexivity.
Qed.

Lemma all_append (ok : ascii -> bool) (a b : string) :
  all ok (a ++ b) = all ok a && all ok b.
Proof.
  induction a as [|c a IH]; cbn [append all]; [reflexivity|].
  rewrite IH, andb_assoc. reflexivity.
Qed.

Definition no_digit (c : ascii) : bool := negb (Str.is_digit c).

(** [float] of an amount without a digit raises [ValueError]. *)
Lemma digitless_amount (w1 wd w2 : string) :
  all (atom_ok IGNORECASE (cls [R "0" "9"; C ","])) w1 = true ->
  all (atom_ok IGNORECASE (Lit ".")) wd = true ->
  all (atom_ok IGNORECASE Patterns.d09) w2 = true ->
  all no_digit (w1 ++ wd ++ w2) = true ->
  to_amount (w1 ++ wd ++ w2) = Raise ValueError.
Proof.
  intros A1 A2 A3 N. rewrite !all_append in N.
  apply andb_prop in N. destruct N as [N1 N]. apply andb_prop in N. destruct N as [_ N3].
  assert (E2 : w2 = EmptyString).
  { destruct w2 as [|c w2]; [reflexivity|]. exfalso.
    cbn [all] in A3, N3. apply andb_prop in A3. apply andb_prop in N3.
    destruct A3 as [A3 _]. destruct N3 as [N3 _].
    rewrite d09_digit in A3. unfold no_digit in N3. rewrite A3 in N3. discriminate N3. }
  subst w2. unfold to_amount.
  assert (E1 : forall rest, Str.replace "," "" (w1 ++ rest) = Str.replace "," "" rest).
  { intros rest. induction w1 as [|c w1 IH]; [reflexivity|].
    cbn [all] in A1, N1. apply andb_prop in A1. apply andb_prop in N1.
    destruct A1 as [Ac A1]. destruct N1 as [Nc N1].
    apply negb_true_iff in Nc. rewrite (comma_only c Ac Nc).
    cbn [append Str.replace]. rewrite Ascii.eqb_refl. cbn [append].
    exact (IH A1 N1). }
  rewrite E1. clear E1.
  destruct wd as [|c [|c2 r]].
  - reflexivity.
  - cbn [all] in A2. apply andb_prop in A2. destruct A2 as [Ac _].
    rewrite (point_only c Ac). reflexivity.
  - cbn [all] in A2. apply andb_prop in A2. destruct A2 as [Ac A2].
    apply andb_prop in A2. destruct A2 as [Ac2 _].
    rewrite (point_only c Ac), (point_only c2 Ac2).
    cbn [append Str.replace Ascii.eqb Bool.eqb].
    unfold Num.py_float. cbn [Num.read_digits Str.is_digit]. reflexivity.
Qed.

Lemma py_float_value_error (s : string) (e : exn) :
  Num.py_float s = Raise e -> e = ValueError.
Proof.
  unfold Num.py_float.
  destruct (Num.read_digits 0 0 s) as [[m n] [|c r]].
  - destruct n; intros H; [injection H as <-; reflexivity|discriminate H].
  - destruct (Ascii.eqb c "."); [|intros H; injection H as <-; reflexivity].
    destruct (Num.read_digits m 0 r) as [[m' n'] [|c' r']].
    + destruct (n + n')%nat; intros H; [injection H as <-; reflexivity|discriminate H].
    + intros H. injection H as <-. reflexivity.
Qed.

Lemma mapM_raises {A B : Type} (f : A -> result B) (l : list A) (x : A) :
  (forall y e, f y = Raise e -> e = ValueError) ->
  In x l -> f x = Raise ValueError -> mapM f l = Raise ValueError.
Proof.
  intros Hf. induction l as [|y l IH]; intros Hin Hx; [destruct Hin|].
  cbn [mapM]. destruct Hin as [->|Hin].
  - rewrite Hx. reflexivity.
  - destruct (f y) as [b|e] eqn:E; cbn [bind].
    + rewrite (IH Hin Hx). reflexivity.
    + rewrite (Hf y e E). reflexivity.
Qed.

Section Digitless.

Variable set_iteration : list string -> list string.
Variable _extract_text_from_pdf : list Byte.byte -> result string.

(** A text in which a dollar sign is followed by an amount without a digit
    (commas, or commas and a point) cannot be parsed: the financial
    extractor raises ValueError on the conversion of that amount, and
    parse_contract raises ValueError for the document. *)
Theorem digitless_amount_raises (text m : string) :
  In m (findall Patterns.currency_amount text) ->
  all no_digit m = true ->
  _extract_financial_details text = Raise ValueError
  /\ forall pdf_content,
       _extract_text_from_pdf pdf_content = Ok text ->
       parse_contract set_iteration _extract_text_from_pdf pdf_content = Raise ValueError.
Proof.
  intros Hin Hm.
  assert (Hraise : to_amount m = Raise ValueError).
  { apply CaptureFacts.findall_matches in Hin.
    destruct Hin as [prev [s [p' [s' [cs' [H ->]]]]]].
    unfold Patterns.currency_amount in H. cbn [p_flags p_re] in H.
    apply cat_inv in H. destruct H as [p1 [s1 [cs1 [_ H]]]].
    apply grp_inv in H. destruct H as [cs2 [H ->]].
    apply amount_shape in H. destruct H as [_ [w1 [wd [w2 [E [A1 [A2 A3]]]]]]].
    unfold group_str in *. cbn [group Nat.eqb] in *.
    rewrite E, take_append in *.
    exact (digitless_amount w1 wd w2 A1 A2 A3 Hm). }
  assert (E : _extract_financial_details text = Raise ValueError).
  { unfold _extract_financial_details.
    rewrite (mapM_raises to_amount _ m); [reflexivity| |exact Hin|exact Hraise].
    intros y e. unfold to_amount. apply py_float_value_error. }
  split; [exact E|].
  intros pdf_content Ht. unfold parse_contract, parse_contract_kwargs.
  rewrite Ht. cbn [bind]. rewrite E. reflexivity.
Qed.

End Digitless.

(** An amount left open. *)
Definition open_amount : string := "Setup Fee: $, to be agreed".

Lemma digitless_amount_raises_witness :
  findall Patterns.currency_amount open_amount = [","]
  /\ _extract_financial_details open_amount = Raise ValueError
  /\ parse_contract PartiesFacts.some_order (PipelineFacts.reads open_amount) []
     = Raise ValueError.
Proof.
  assert (F : findall Patterns.currency_amount open_amount = [","])
    by (vm_compute; reflexivity).
  assert (Hin : In "," (findall Patterns.currency_amount open_amount))
    by (rewrite F; left; reflexivity).
  destruct (digitless_amount_raises PartiesFacts.some_order
              (PipelineFacts.reads open_amount) open_amount "," Hin eq_refl) as [E P].
  split; [exact F|]. split; [exact E|]. apply P. reflexivity.
Defined.

(** ** Fixed fees *)

Lemma get_set_same {V : Type} (k : string) (v : V) (d : Dict.t V) :
  Dict.get k (Dict.set k v d) = Some v.
Proof.
  induction d as [|[k' v'] d IH]; cbn [Dict.set Dict.get].
  - rewrite String.eqb_refl. reflexivity.
  - destruct (String.eqb k k') eqn:E; cbn [Dict.get]; rewrite E; [reflexivity|exact IH].
Qed.

Lemma get_set_other {V : Type} (k k' : string) (v : V) (d : Dict.t V) :
  k' <> k -> Dict.get k' (Dict.set k v d) = Dict.get k' d.
Proof.
  intros Hne. induction d as [|[k0 v0] d IH]; cbn [Dict.set Dict.get].
  - destruct (String.eqb k' k) eqn:E; [apply String.eqb_eq in E; contradiction|reflexivity].
  - destruct (String.eqb k k0) eqn:E; cbn [Dict.get].
    + apply String.eqb_eq in E. subst k0.
      destruct (String.eqb k' k) eqn:E'; [apply String.eqb_eq in E'; contradiction|].
      reflexivity.
    + destruct (String.eqb k' k0); [reflexivity|exact IH].
Qed.

(** [p] is the unit price of a line item of [items] named [s] whose unit is
    "fixed". *)
Definition fixed_price (items : list LineItem.t) (s : string) (p : float) : Prop :=
  exists item,
    In item items
    /\ LineItem.unit item = Some "fixed"
    /\ LineItem.service item = Some s
    /\ LineItem.unit_price item = Some p.

Lemma add_fixed_fees_keeps (whole : list LineItem.t) (s : string) (l : list LineItem.t) :
  incl l whole ->
  forall d,
    (exists p, Dict.get s d = Some p /\ fixed_price whole s p) ->
    exists p, Dict.get s (add_fixed_fees l d) = Some p /\ fixed_price whole s p.
Proof.
  unfold add_fixed_fees.
  induction l as [|x l IH]; intros Hin d Hd; cbn [fold_left]; [exact Hd|].
  apply IH; [intros y Hy; apply Hin; right; exact Hy|].
  destruct (LineItem.unit x) as [u|] eqn:Eu; [|exact Hd].
  destruct (LineItem.service x) as [s'|] eqn:Es; [|exact Hd].
  destruct (LineItem.unit_price x) as [p'|] eqn:Ep; [|exact Hd].
  destruct (String.eqb u "fixed") eqn:E; [|exact Hd].
  apply String.eqb_eq in E. subst u.
  destruct (string_dec s s') as [<-|Hne].
  - exists p'. split; [apply get_set_same|].
    exists x. split; [apply Hin; left; reflexivity|]. repeat split; assumption.
  - rewrite (get_set_other s' s p' d Hne). exact Hd.
Qed.

Lemma add_fixed_fees_has (whole : list LineItem.t) (s : string) (p0 : float)
    (item : LineItem.t) (l : list LineItem.t) :
  incl l whole ->
  In item l ->
  LineItem.unit item = Some "fixed" ->
  LineItem.service item = Some s ->
  LineItem.unit_price item = Some p0 ->
  forall d,
    exists p, Dict.get s (add_fixed_fees l d) = Some p /\ fixed_price whole s p.
Proof.
  intros Hincl Hin Hu Hs Hp.
  induction l as [|x l IH]; [destruct Hin|].
  intros d. destruct Hin as [->|Hin].
  - change (add_fixed_fees (item :: l) d)
      with (add_fixed_fees l
              (match LineItem.unit item, LineItem.service item, LineItem.unit_price item with
               | Some u, Some service, Some price =>
                   if String.eqb u "fixed" then Dict.set service price d else d
               | _, _, _ => d
               end)).
    rewrite Hu, Hs, Hp. cbn [String.eqb Ascii.eqb Bool.eqb andb].
    apply add_fixed_fees_keeps; [intros y Hy; apply Hincl; right; exact Hy|].
    exists p0. split; [apply get_set_same|].
    exists item. split; [apply Hincl; left; reflexivity|]. repeat split; assumption.
  - apply IH; [intros y Hy; apply Hincl; right; exact Hy|exact Hin].
Qed.

Lemma service_item_fields (m : string * string * string) (item : LineItem.t) :
  service_item m = Ok item ->
  exists s p, LineItem.service item = Some s /\ LineItem.unit_price item = Some p.
Proof.
  destruct m as [[service rate] unit]. unfold service_item.
  destruct (to_amount rate) as [p|e]; [|discriminate].
  cbn [bind]. intros H. injection H as <-.
  eexists _, _. split; reflexivity.
Qed.

Lemma hourly_item_unit (m : string * string * string) (item : LineItem.t) :
  hourly_item m = Ok item -> LineItem.unit item = Some "hour".
Proof.
  destruct m as [[service hours] total]. intros H.
  apply hourly_item_ok in H. destruct H as [n [t [_ [_ [_ ->]]]]]. reflexivity.
Qed.

Lemma forall2_in_r {A B : Type} (R : A -> B -> Prop) (l : list A) (l' : list B) (y : B) :
  Forall2 R l l' -> In y l' -> exists x, R x y.
Proof.
  induction 1 as [|a b l l' Hab _ IH]; intros Hin; [destruct Hin|].
  destruct Hin as [<-|Hin]; [exists a; exact Hab|exact (IH Hin)].
Qed.

(** When the extractor returns, every line item whose unit is "fixed" is
    among the one-time costs: its service name is a key there, and the
    amount stored under it is the unit price of a fixed line item of that
    name. *)
Theorem fixed_items_are_one_time_costs (text : string) (fd : FinancialDetails.t)
    (items : list LineItem.t) (item : LineItem.t) :
  _extract_financial_details text = Ok fd ->
  FinancialDetails.line_items fd = Some items ->
  In item items ->
  LineItem.unit item = Some "fixed" ->
  exists s costs p,
    LineItem.service item = Some s
    /\ FinancialDetails.one_time_costs fd = Some costs
    /\ Dict.get s costs = Some p
    /\ fixed_price items s p.
Proof.
  intros H Hitems Hin Hu.
  apply extract_ok in H.
  destruct H as [items_a [items_b [monthly_costs [setup [acv [Ha [Hb [_ [_ [_ ->]]]]]]]]]].
  cbn [FinancialDetails.line_items FinancialDetails.one_time_costs] in *.
  assert (Ei : items = (items_a ++ items_b)%list).
  { destruct (items_a ++ items_b)%list; [discriminate Hitems|].
    injection Hitems as <-. reflexivity. }
  subst items. clear Hitems.
  assert (Hf : exists s p, LineItem.service item = Some s /\ LineItem.unit_price item = Some p).
  { apply in_app_or in Hin. destruct Hin as [Hin|Hin].
    - apply mapM_ok in Ha.
      destruct (forall2_in_r _ _ _ _ Ha Hin) as [m Hm].
      exact (service_item_fields m item Hm).
    - exfalso. apply mapM_ok in Hb.
      destruct (forall2_in_r _ _ _ _ Hb Hin) as [m Hm].
      apply hourly_item_unit in Hm. rewrite Hm in Hu. discriminate Hu. }
  destruct Hf as [s [p0 [Hs Hp]]].
  destruct (add_fixed_fees_has (items_a ++ items_b) s p0 item (items_a ++ items_b)
              (incl_refl _) Hin Hu Hs Hp setup) as [p [Hg Hfp]].
  exists s, (add_fixed_fees (items_a ++ items_b) setup), p.
  split; [exact Hs|]. split; [|split; assumption].
  destruct (add_fixed_fees (items_a ++ items_b) setup); [discriminate Hg|reflexivity].
Qed.

Definition fixed_fee_text : string := "Security Assessment: $5,000/fixed".

Definition assessment : LineItem.t :=
  {| LineItem.service := Some "Security Assessment";
     LineItem.quantity := Some 1%Z;
     LineItem.unit := Some "fixed";
     LineItem.unit_price := Some 5000%float;
     LineItem.monthly_total := Some 5000%float |}.

Lemma fixed_items_are_one_time_costs_witness :
  exists fd s costs p,
    _extract_financial_details fixed_fee_text = Ok fd
    /\ LineItem.service assessment = Some s
    /\ FinancialDetails.one_time_costs fd = Some costs
    /\ Dict.get s costs = Some p
    /\ fixed_price [assessment] s p.
Proof.
  destruct (_extract_financial_details fixed_fee_text) as [fd|e] eqn:E;
    [|vm_compute in E; discriminate E].
  assert (Hl : FinancialDetails.line_items fd = Some [assessment]).
  { vm_compute in E. injection E as <-. reflexivity. }
  destruct (fixed_items_are_one_time_costs fixed_fee_text fd [assessment] assessment
              E Hl (or_introl eq_refl) eq_refl) as [s [costs [p H]]].
  exists fd, s, costs, p. split; [reflexivity|exact H].
Defined.

End FinancialExtras.

(* ------------------------------------------------------------------ *)
(** * The rules of the financial extractor (C4, C6) *)

Module FinancialRules.

Import MatchFacts.
Import FinancialFacts.
Import GreedyFacts.
Import FinancialExtras.

Local Open Scope Z_scope.

(** ** What the groups of the patterns hold *)

(** A run of a bounded repetition is within its bounds. *)
Lemma reps_at_most (ok : ascii -> bool) (lo : nat) (hi : option nat)
    (p : option ascii) (s : string) (p' : option ascii) (s' : string) :
  reps ok lo hi p s p' s' ->
  forall h, hi = Some h ->
  exists w,
    splits s w s' /\ all ok w = true /\ (lo <= String.length w <= h)%nat.
Proof.
  induction 1 as [hi p s|lo hi p c s p' s' Hok Hhi _ IH]; intros h E.
  - exists EmptyString. split; [reflexivity|]. split; [reflexivity|]. cbn. lia.
  - subst hi. destruct h as [|h]; [discriminate Hhi|].
    destruct (IH h eq_refl) as [w [Hs [Ha Hl]]].
    exists (String c w). unfold splits in *. rewrite Hs.
    split; [reflexivity|]. cbn [all String.length]. rewrite Hok, Ha.
    split; [reflexivity|]. lia.
Qed.

Definition digit_or_comma (c : ascii) : bool := Str.is_digit c || Ascii.eqb c ",".

(** What the pattern [[0-9,]+\.?[0-9]*] can take: digits and commas, at
    most one point, digits. *)
Definition amount_like (x : string) : Prop :=
  exists w1 wd w2,
    x = (w1 ++ wd ++ w2)%string
    /\ all digit_or_comma w1 = true
    /\ (wd = EmptyString \/ wd = ".")
    /\ all Str.is_digit w2 = true.

Lemma digit_or_comma_class (c : ascii) :
  atom_ok IGNORECASE (cls [R "0" "9"; C ","]) c = digit_or_comma c.
Proof.
  destruct c as [[] [] [] [] [] [] [] []]; vm_compute; reflexivity.
Qed.

Lemma amount_is_amount_like (p : option ascii) (s : string) (cs : caps)
    (p' : option ascii) (s' : string) (cs' : caps) :
  matches IGNORECASE Patterns.amount p s cs p' s' cs' ->
  amount_like (Str.take (String.length s - String.length s') s).
Proof.
  unfold Patterns.amount. cbn [seq]. intros H.
  apply cat_inv in H. destruct H as [p1 [s1 [cs1 [H1 H]]]].
  apply cat_inv in H. destruct H as [p2 [s2 [cs2 [H2 H3]]]].
  apply rep_inv in H1. destruct H1 as [_ [w1 [E1 [A1 _]]]].
  apply rep_inv in H3. destruct H3 as [_ [w2 [E3 [A3 _]]]].
  unfold opt in H2.
  inversion H2 as [| |a0 lo0 hi0 p0 s0 cs0 p0' s0' Hr| | | | | | |]; subst.
  destruct (reps_at_most _ _ _ _ _ _ _ Hr 1%nat eq_refl) as [wd [E2 [A2 L2]]].
  unfold splits in *. subst s s1 s2.
  rewrite <- !append_assoc, take_append, !append_assoc.
  exists w1, wd, w2. split; [reflexivity|].
  split; [rewrite <- A1; apply all_ext; intros c; symmetry; apply digit_or_comma_class|].
  split.
  - destruct wd as [|c [|c2 r]]; [left; reflexivity| |cbn in L2; lia].
    right. cbn [all] in A2. apply andb_prop in A2. destruct A2 as [Ac _].
    rewrite (point_only c Ac). reflexivity.
  - rewrite <- A3. apply all_ext. intros c. symmetry. apply d09_digit.
Qed.

(** Every group numbered [g] in [r] is a group around [r0]. *)
Fixpoint group_of (g : nat) (r0 r : regex) : Prop :=
  match r with
  | Cat r1 r2 | Alt r1 r2 => group_of g r0 r1 /\ group_of g r0 r2
  | Grp i r1 => (i = g -> r1 = r0) /\ group_of g r0 r1
  | _ => True
  end.

(** Then what the group holds after a match was taken by [r0]. *)
Lemma group_holds (P : string -> Prop) (fl : flags) (g : nat) (r0 : regex) :
  (forall p s cs p' s' cs',
     matches fl r0 p s cs p' s' cs' ->
     P (Str.take (String.length s - String.length s') s)) ->
  forall r p s cs p' s' cs',
    matches fl r p s cs p' s' cs' ->
    group_of g r0 r ->
    (forall x, group g cs = Some x -> P x) ->
    forall x, group g cs' = Some x -> P x.
Proof.
  intros H0 r p s cs p' s' cs' H.
  induction H as [ | | |r1 r2 p s cs p1 s1 cs1 p2 s2 cs2 _ IH1 _ IH2
                  |r1 r2 p s cs p' s' cs' _ IH|r1 r2 p s cs p' s' cs' _ IH
                  |j r p s cs p' s' cs' Hm IH| | | ];
    cbn [group_of]; intros Hg Hcs; try exact Hcs.
  - destruct Hg as [G1 G2]. exact (IH2 G2 (IH1 G1 Hcs)).
  - destruct Hg as [G1 _]. exact (IH G1 Hcs).
  - destruct Hg as [_ G2]. exact (IH G2 Hcs).
  - destruct Hg as [Gj G]. intros x. cbn [group].
    destruct (Nat.eqb g j) eqn:E.
    + apply Nat.eqb_eq in E. intros Hx. injection Hx as <-.
      rewrite (Gj (eq_sym E)) in Hm. exact (H0 _ _ _ _ _ _ Hm).
    + exact (IH G Hcs x).
Qed.

Lemma nothing_is_amount_like : amount_like EmptyString.
Proof.
  exists EmptyString, EmptyString, EmptyString.
  split; [reflexivity|]. split; [reflexivity|]. split; [left|]; reflexivity.
Qed.

(** The group [g] of a match of a pattern whose group [g] is the amount. *)
Lemma amount_group (g : nat) (pat : pattern) (x : string * caps) (text : string) :
  p_flags pat = IGNORECASE ->
  group_of g Patterns.amount (p_re pat) ->
  In x (finditer pat text) ->
  amount_like (group_str g (snd x)).
Proof.
  intros Hfl Hg H. unfold finditer in H.
  apply scan_in in H. destruct H as [prev [s H]].
  destruct x as [m cs]. apply match_here_sound in H. destruct H as [p' [s' H]].
  rewrite Hfl in H. cbn [snd]. unfold group_str.
  destruct (group g cs) as [x|] eqn:E; [|exact nothing_is_amount_like].
  refine (group_holds amount_like IGNORECASE g Patterns.amount
            amount_is_amount_like _ _ _ _ _ _ _ H Hg _ x E).
  intros y Hy. discriminate Hy.
Qed.

Ltac amount_pattern :=
  cbn; repeat split; intros; try discriminate; try reflexivity.

Lemma findall_amount_like (pat : pattern) (m text : string) :
  p_flags pat = IGNORECASE ->
  group_of 1 Patterns.amount (p_re pat) ->
  In m (findall pat text) -> amount_like m.
Proof.
  intros Hfl Hg H. unfold findall in H.
  apply in_map_iff in H. destruct H as [x [<- H]].
  exact (amount_group 1 pat x text Hfl Hg H).
Qed.

Lemma service_rate_amount_like (text service rate unit : string) :
  In (service, rate, unit) (findall3 service_rate_pattern text) -> amount_like rate.
Proof.
  intros H. unfold findall3 in H.
  apply in_map_iff in H. destruct H as [x [E H]]. injection E as _ <- _.
  apply (amount_group 2 service_rate_pattern x text); [reflexivity| |exact H].
  amount_pattern.
Qed.

Lemma hourly_amount_like (text service hours total : string) :
  In (service, hours, total) (findall3 hourly_pattern text) -> amount_like total.
Proof.
  intros H. unfold findall3 in H.
  apply in_map_iff in H. destruct H as [x [E H]]. injection E as _ _ <-.
  apply (amount_group 3 hourly_pattern x text); [reflexivity| |exact H].
  amount_pattern.
Qed.

(** Every result of the pattern of the contract term is a non-empty string
    of digits. *)
Lemma term_digits (t text : string) :
  In t (findall Patterns.contract_term text) ->
  all Str.is_digit t = true /\ (1 <= String.length t)%nat.
Proof.
  intros H. apply CaptureFacts.findall_matches in H.
  destruct H as [prev [s [p' [s' [cs' [H ->]]]]]].
  unfold Patterns.contract_term in H. cbn [p_flags p_re seq] in H.
  apply cat_inv in H. destruct H as [p1 [s1 [cs1 [_ H]]]].
  apply cat_inv in H. destruct H as [p2 [s2 [cs2 [_ H]]]].
  apply CaptureFacts.group_after in H; [|cbn; tauto].
  destruct H as [w [Hg [Ha Hl]]].
  unfold group_str. rewrite Hg. split; [|exact Hl].
  rewrite <- Ha. apply all_ext. intros c. symmetry. apply dg_digit.
Qed.

(** ** The conversions *)

(** The string has a digit. *)
Definition has_digit (x : string) : bool := negb (all no_digit x).

Lemma replace_append (a : ascii) (b x y : string) :
  Str.replace a b (x ++ y) = (Str.replace a b x ++ Str.replace a b y)%string.
Proof.
  induction x as [|c x IH]; cbn [append Str.replace]; [reflexivity|].
  rewrite IH, append_assoc. reflexivity.
Qed.

Lemma digit_not_comma (c : ascii) : Str.is_digit c = true -> Ascii.eqb c "," = false.
Proof.
  destruct c as [[] [] [] [] [] [] [] []]; vm_compute; intros H;
    try discriminate H; reflexivity.
Qed.

Lemma replace_digits (w : string) :
  all Str.is_digit w = true -> Str.replace "," "" w = w.
Proof.
  induction w as [|c w IH]; cbn [all Str.replace]; intros H; [reflexivity|].
  apply andb_prop in H. destruct H as [Hc Hw].
  rewrite (digit_not_comma c Hc), (IH Hw). reflexivity.
Qed.

(** Without its commas a string of digits and commas is a string of
    digits, empty when there was no digit. *)
Lemma replace_commas (w : string) :
  all digit_or_comma w = true ->
  all Str.is_digit (Str.replace "," "" w) = true
  /\ all no_digit w = Nat.eqb (String.length (Str.replace "," "" w)) 0.
Proof.
  induction w as [|c w IH]; cbn [all Str.replace]; intros H; [split; reflexivity|].
  apply andb_prop in H. destruct H as [Hc Hw]. destruct (IH Hw) as [IH1 IH2].
  unfold digit_or_comma in Hc. unfold no_digit at 1.
  destruct (Str.is_digit c) eqn:Ed.
  - rewrite (digit_not_comma c Ed). cbn [append all String.length negb andb Nat.eqb].
    rewrite Ed, IH1. split; reflexivity.
  - cbn [orb] in Hc. rewrite Hc. cbn [append negb andb]. split; assumption.
Qed.

Lemma digits_no_digit (w : string) :
  all Str.is_digit w = true -> all no_digit w = Nat.eqb (String.length w) 0.
Proof.
  destruct w as [|c w]; cbn [all String.length Nat.eqb]; intros H; [reflexivity|].
  apply andb_prop in H. destruct H as [Hc _]. unfold no_digit. rewrite Hc. reflexivity.
Qed.

Lemma read_digits_append (d rest : string) :
  all Str.is_digit d = true ->
  forall acc n,
    exists z,
      Num.read_digits acc n (d ++ rest)
      = Num.read_digits z (n + String.length d) rest.
Proof.
  induction d as [|c d IH]; intros Ha acc n; cbn [append String.length].
  - exists acc. rewrite Nat.add_0_r. reflexivity.
  - cbn [all] in Ha. apply andb_prop in Ha. destruct Ha as [Hc Hd].
    cbn [Num.read_digits]. rewrite Hc.
    destruct (IH Hd (10 * acc + Num.digit_val c) (S n)) as [z Hz].
    exists z. rewrite Hz. f_equal. lia.
Qed.

(** [float] of digits, a point or none, and digits: a value when there is
    a digit, and [ValueError] when there is none. *)
Lemma py_float_decimal (d1 wd d2 : string) :
  all Str.is_digit d1 = true ->
  wd = EmptyString \/ wd = "."%string ->
  all Str.is_digit d2 = true ->
  exists v,
    Num.py_float (d1 ++ wd ++ d2)
    = if Nat.eqb (String.length d1 + String.length d2) 0
      then Raise ValueError else Ok v.
Proof.
  intros A1 [->| ->] A2; unfold Num.py_float.
  - cbn [append].
    assert (A : all Str.is_digit (d1 ++ d2) = true) by (rewrite all_append, A1, A2; reflexivity).
    destruct (read_all_digits _ A 0 0%nat) as [z Hz]. rewrite Hz.
    rewrite length_append. cbn [Nat.add].
    destruct (String.length d1 + String.length d2)%nat.
    + exists 0%float. reflexivity.
    + eexists. reflexivity.
  - destruct (read_digits_append d1 ("." ++ d2) A1 0 0%nat) as [z Hz]. rewrite Hz.
    cbn [append Num.read_digits].
    change (Str.is_digit ".") with false. cbv iota.
    change (Ascii.eqb "." ".") with true. cbv iota.
    destruct (read_all_digits _ A2 z 0%nat) as [z' Hz']. rewrite Hz'.
    cbn [Nat.add].
    destruct (String.length d1 + String.length d2)%nat.
    + exists 0%float. reflexivity.
    + eexists. reflexivity.
Qed.

(** The conversion of what the amount pattern took: a value when it has a
    digit, and [ValueError] when it has none. *)
Lemma to_amount_cases (x : string) :
  amount_like x ->
  if has_digit x then exists v, to_amount x = Ok v
  else to_amount x = Raise ValueError.
Proof.
  intros [w1 [wd [w2 [-> [A1 [Hd A2]]]]]].
  destruct (replace_commas w1 A1) as [D1 N1].
  assert (Ed : Str.replace "," "" wd = wd) by (destruct Hd as [->| ->]; reflexivity).
  assert (Nd : all no_digit wd = true) by (destruct Hd as [->| ->]; reflexivity).
  unfold to_amount, has_digit.
  rewrite !replace_append, Ed, (replace_digits w2 A2).
  rewrite !all_append, N1, Nd, (digits_no_digit w2 A2). cbn [andb].
  destruct (py_float_decimal _ wd w2 D1 Hd A2) as [v Hv]. rewrite Hv.
  destruct (String.length (Str.replace "," "" w1)) as [|n1];
    destruct (String.length w2) as [|n2]; cbn; try reflexivity; exists v; reflexivity.
Qed.

Lemma to_amount_value_error (x : string) (e : exn) :
  to_amount x = Raise e -> e = ValueError.
Proof. unfold to_amount. apply py_float_value_error. Qed.

(** [int] and the conversion to [float] of a captured number [w]: within
    the limit on the digits, and below the first integer no float holds. *)
Definition int_reads (w : string) : bool :=
  (N.of_nat (String.length w) <=? Num.int_max_str_digits)%N
  && (int_value w <? Num.float_overflow).

Lemma int_value_nonneg (w : string) : 0 <= int_value w.
Proof. unfold int_value. apply read_digits_nonneg. lia. Qed.

(** The loop body on a match of the hourly pattern (the hours of which are
    digits): [ValueError] for more digits than [int] converts and for a
    total without a digit, [OverflowError] for hours no float holds, and
    the line item otherwise. *)
Lemma hourly_item_cases (service hours total : string) :
  all Str.is_digit hours = true -> (1 <= String.length hours)%nat ->
  hourly_item (service, hours, total)
  = if (N.of_nat (String.length hours) <=? Num.int_max_str_digits)%N then
      match to_amount total with
      | Ok t =>
          if int_value hours <? Num.float_overflow
          then Ok (hourly_line_item service (int_value hours) t)
          else Raise OverflowError
      | Raise _ => Raise ValueError
      end
    else Raise ValueError.
Proof.
  intros Ha Hl. pose proof (py_int_digits hours Ha Hl) as Hn.
  destruct (N.of_nat (String.length hours) <=? Num.int_max_str_digits)%N.
  - destruct (to_amount total) as [t|e] eqn:Et.
    + exact (hourly_item_eq service hours total _ t Hn Et).
    + unfold hourly_item. rewrite Hn, Et. cbn [bind].
      rewrite (to_amount_value_error _ _ Et).
      destruct (0 <? int_value hours); reflexivity.
  - unfold hourly_item. rewrite Hn. reflexivity.
Qed.

(** ** When the extractor returns *)

(** What a step that may raise does, decided by [ok]: it returns when [ok]
    holds, and raises [ValueError] or [OverflowError] when it does not. *)
Definition outcome {A : Type} (ok : bool) (m : result A) : Prop :=
  if ok then exists a, m = Ok a
  else exists e, m = Raise e /\ (e = ValueError \/ e = OverflowError).

Lemma mapM_outcome {A B : Type} (f : A -> result B) (ok : A -> bool) (l : list A) :
  (forall x, In x l -> outcome (ok x) (f x)) -> outcome (forallb ok l) (mapM f l).
Proof.
  induction l as [|x l IH]; intros H; cbn [forallb mapM].
  - exists []. reflexivity.
  - pose proof (H x (or_introl eq_refl)) as Hx.
    assert (Hl : outcome (forallb ok l) (mapM f l))
      by (apply IH; intros y Hy; apply H; right; exact Hy).
    unfold outcome in *.
    destruct (ok x); cbn [andb].
    + destruct Hx as [y ->]. cbn [bind].
      destruct (forallb ok l).
      * destruct Hl as [ys ->]. exists (y :: ys). reflexivity.
      * destruct Hl as [e [-> He]]. exists e. split; [reflexivity|exact He].
    + destruct Hx as [e [-> He]]. exists e. split; [reflexivity|exact He].
Qed.

Lemma bind_outcome {A B : Type} (ok1 ok2 : bool) (m : result A) (k : A -> result B) :
  outcome ok1 m ->
  (forall a, m = Ok a -> outcome ok2 (k a)) ->
  outcome (ok1 && ok2) (bind m k).
Proof.
  unfold outcome. intros H1 H2. destruct ok1; cbn [andb].
  - destruct H1 as [a E]. specialize (H2 a E). rewrite E. exact H2.
  - destruct H1 as [e [-> He]]. exists e. split; [reflexivity|exact He].
Qed.

Lemma amount_outcome (x : string) :
  amount_like x -> outcome (has_digit x) (to_amount x).
Proof.
  intros H. apply to_amount_cases in H. unfold outcome.
  destruct (has_digit x); [exact H|].
  exists ValueError. split; [exact H|left; reflexivity].
Qed.

(** The test on the first element of a list, when there is one. *)
Definition first_reads (ok : string -> bool) (l : list string) : bool :=
  match l with
  | x :: _ => ok x
  | [] => true
  end.

Lemma first_amount_outcome (label : string) (l : list string) :
  (forall x, In x l -> amount_like x) ->
  outcome (first_reads has_digit l) (first_amount label l).
Proof.
  intros H. destruct l as [|x l]; cbn [first_reads first_amount].
  - exists []. reflexivity.
  - pose proof (amount_outcome x (H x (or_introl eq_refl))) as Hx.
    unfold outcome in *. destruct (has_digit x).
    + destruct Hx as [v ->]. eexists. reflexivity.
    + destruct Hx as [e [-> He]]. exists e. split; [reflexivity|exact He].
Qed.

Definition rate_reads (m : string * string * string) : bool :=
  let '(_, rate, _) := m in has_digit rate.

Definition hourly_reads (m : string * string * string) : bool :=
  let '(_, hours, total) := m in int_reads hours && has_digit total.

Lemma service_item_outcome (text : string) (m : string * string * string) :
  In m (findall3 service_rate_pattern text) -> outcome (rate_reads m) (service_item m).
Proof.
  destruct m as [[service rate] unit]. intros H.
  pose proof (amount_outcome rate (service_rate_amount_like _ _ _ _ H)) as Hx.
  unfold rate_reads, service_item, outcome in *. destruct (has_digit rate).
  - destruct Hx as [v ->]. eexists. reflexivity.
  - destruct Hx as [e [-> He]]. exists e. split; [reflexivity|exact He].
Qed.

Lemma hourly_item_outcome (text : string) (m : string * string * string) :
  In m (findall3 hourly_pattern text) -> outcome (hourly_reads m) (hourly_item m).
Proof.
  destruct m as [[service hours] total]. intros H.
  destruct (hourly_hours_digits _ _ _ _ H) as [Ha Hl].
  pose proof (to_amount_cases total (hourly_amount_like _ _ _ _ H)) as Ht.
  rewrite (hourly_item_cases service hours total Ha Hl).
  unfold hourly_reads, int_reads, outcome.
  destruct (N.of_nat (String.length hours) <=? Num.int_max_str_digits)%N; cbn [andb];
    [|exists ValueError; split; [reflexivity|left; reflexivity]].
  destruct (has_digit total).
  - destruct Ht as [t ->].
    destruct (int_value hours <? Num.float_overflow); cbn [andb].
    + eexists. reflexivity.
    + exists OverflowError. split; [reflexivity|right; reflexivity].
  - rewrite Ht. rewrite andb_false_r.
    exists ValueError. split; [reflexivity|left; reflexivity].
Qed.

(** The monthly total as the text gives it: the amount of the first match
    of the monthly pattern, added to the 0 the sum starts from; the [int]
    0 without a match. *)
Definition monthly_total (text : string) : Num.num :=
  match findall monthly_pattern text with
  | m :: _ =>
      match to_amount m with
      | Ok v => Num.Float (0 + v)
      | Raise _ => Num.Int 0
      end
  | [] => Num.Int 0
  end.

Lemma first_amount_total (text : string) (monthly_costs : Dict.t float) :
  first_amount "Monthly Total" (findall monthly_pattern text) = Ok monthly_costs ->
  total monthly_costs = monthly_total text.
Proof.
  unfold monthly_total, first_amount.
  destruct (findall monthly_pattern text) as [|m l].
  - intros H. injection H as <-. reflexivity.
  - destruct (to_amount m) as [v|e]; cbn [bind]; intros H; [|discriminate H].
    injection H as <-. reflexivity.
Qed.

(** The annual value can be set: the first explicit annual amount has a
    digit; or there is none and, the monthly total being more than 0, the
    first contract term is a number [int] and [float] convert. *)
Definition annual_reads (text : string) : bool :=
  match findall annual_pattern text with
  | a :: _ => has_digit a
  | [] =>
      if Num.gt0 (monthly_total text)
      then first_reads int_reads (findall Patterns.contract_term text)
      else true
  end.

(** Every conversion the extractor makes on [text] succeeds. *)
Definition converts (text : string) : bool :=
  forallb has_digit (findall Patterns.currency_amount text)
  && (forallb rate_reads (findall3 service_rate_pattern text)
  && (forallb hourly_reads (findall3 hourly_pattern text)
  && (first_reads has_digit (findall monthly_pattern text)
  && (first_reads has_digit (findall setup_pattern text)
  && annual_reads text)))).

Lemma monthly_total_float (text : string) :
  Num.gt0 (monthly_total text) = true -> exists f, monthly_total text = Num.Float f.
Proof.
  unfold monthly_total.
  destruct (findall monthly_pattern text) as [|m l]; [discriminate|].
  destruct (to_amount m) as [v|e]; [|discriminate].
  intros _. eexists. reflexivity.
Qed.

Lemma annual_outcome (text : string) :
  outcome (annual_reads text)
    (match findall annual_pattern text with
     | a :: _ => v <- to_amount a ;; Ok (Some (Num.Float v))
     | [] =>
         if Num.gt0 (monthly_total text) then
           months <- contract_months text ;;
           v <- Num.mul (monthly_total text) months ;; Ok (Some v)
         else Ok None
     end).
Proof.
  unfold annual_reads.
  destruct (findall annual_pattern text) as [|a l] eqn:Ea.
  - destruct (Num.gt0 (monthly_total text)) eqn:Hgt; [|exists None; reflexivity].
    destruct (monthly_total_float text Hgt) as [f ->].
    unfold contract_months.
    destruct (findall Patterns.contract_term text) as [|t l'] eqn:Et; cbn [first_reads].
    + cbn [bind Num.mul]. eexists. vm_compute. reflexivity.
    + destruct (term_digits t text) as [Dt Lt]; [rewrite Et; left; reflexivity|].
      rewrite (py_int_digits t Dt Lt). unfold int_reads, outcome.
      destruct (N.of_nat (String.length t) <=? Num.int_max_str_digits)%N; cbn [andb bind];
        [|exists ValueError; split; [reflexivity|left; reflexivity]].
      unfold Num.mul, Num.int_to_float.
      rewrite Z.abs_eq by apply int_value_nonneg.
      destruct (int_value t <? Num.float_overflow); cbn [bind].
      * eexists. reflexivity.
      * exists OverflowError. split; [reflexivity|right; reflexivity].
  - assert (Hl : amount_like a).
    { apply (findall_amount_like annual_pattern a text); [reflexivity|amount_pattern|].
      rewrite Ea. left. reflexivity. }
    pose proof (amount_outcome a Hl) as Hx. unfold outcome in *.
    destruct (has_digit a).
    + destruct Hx as [v ->]. eexists. reflexivity.
    + destruct Hx as [e [-> He]]. exists e. split; [reflexivity|exact He].
Qed.

(** The extractor returns when every conversion succeeds, and raises
    [ValueError] or [OverflowError] when one does not. *)
Lemma extract_outcome (text : string) :
  outcome (converts text) (_extract_financial_details text).
Proof.
  unfold converts, _extract_financial_details.
  apply bind_outcome.
  { apply mapM_outcome. intros x Hx. apply amount_outcome.
    apply (findall_amount_like Patterns.currency_amount x text);
      [reflexivity|amount_pattern|exact Hx]. }
  intros _ _. apply bind_outcome.
  { apply mapM_outcome. intros x Hx. exact (service_item_outcome text x Hx). }
  intros items_a _. apply bind_outcome.
  { apply mapM_outcome. intros x Hx. exact (hourly_item_outcome text x Hx). }
  intros items_b _. apply bind_outcome.
  { apply first_amount_outcome. intros x Hx.
    apply (findall_amount_like monthly_pattern x text);
      [reflexivity|amount_pattern|exact Hx]. }
  intros monthly_costs Hm. apply bind_outcome.
  { apply first_amount_outcome. intros x Hx.
    apply (findall_amount_like setup_pattern x text);
      [reflexivity|amount_pattern|exact Hx]. }
  intros setup _.
  rewrite <- (andb_true_r (annual_reads text)).
  apply bind_outcome.
  { rewrite (first_amount_total text monthly_costs Hm). apply annual_outcome. }
  intros acv _. eexists. reflexivity.
Qed.

Lemma returns_iff_converts (text : string) :
  converts text = true <-> exists fd, _extract_financial_details text = Ok fd.
Proof.
  pose proof (extract_outcome text) as H. unfold outcome in H.
  destruct (converts text).
  - split; [intros _; exact H|reflexivity].
  - destruct H as [e [E _]]. split; [discriminate|].
    intros [fd Hfd]. rewrite E in Hfd. discriminate Hfd.
Qed.

Lemma raises_two (text : string) (e : exn) :
  _extract_financial_details text = Raise e -> e = ValueError \/ e = OverflowError.
Proof.
  pose proof (extract_outcome text) as H. unfold outcome in H. intros E.
  destruct (converts text).
  - destruct H as [fd Hfd]. rewrite Hfd in E. discriminate E.
  - destruct H as [e' [E' He]]. rewrite E' in E. injection E as <-. exact He.
Qed.

(** ** Texts that contain an hourly line *)

Lemma starts_here (prev : option ascii) (post : string) :
  match_here hourly_pattern prev (ten_hours ++ post) <> None.
Proof.
  unfold match_here, ten_hours. cbn [append].
  vm_compute.
  discriminate.
Qed.

Lemma append_split (a b c d : string) :
  (a ++ b = c ++ d)%string ->
  (exists e, a = (c ++ e)%string /\ d = (e ++ b)%string)
  \/ (exists e, c = (a ++ e)%string /\ b = (e ++ d)%string).
Proof.
  revert c. induction a as [|x a IH]; intros c H.
  - right. exists c. split; [reflexivity|exact H].
  - destruct c as [|y c].
    + left. exists (String x a). split; [reflexivity|]. symmetry. exact H.
    + cbn [append] in H. injection H as <- H.
      destruct (IH c H) as [[e [E1 E2]]|[e [E1 E2]]].
      * left. exists e. split; [rewrite E1; reflexivity|exact E2].
      * right. exists e. split; [rewrite E1; reflexivity|exact E2].
Qed.

Lemma run_unique (ok : ascii -> bool) (u1 : string) (c1 : ascii) (r1 : string)
    (u2 : string) (c2 : ascii) (r2 : string) :
  all ok u1 = true -> all ok u2 = true -> ok c1 = false -> ok c2 = false ->
  (u1 ++ String c1 r1 = u2 ++ String c2 r2)%string ->
  u1 = u2 /\ c1 = c2 /\ r1 = r2.
Proof.
  revert u2. induction u1 as [|x u1 IH]; intros u2 A1 A2 N1 N2 H.
  - destruct u2 as [|y u2]; cbn [append] in H.
    + injection H as -> ->. repeat split.
    + injection H as -> _. cbn [all] in A2. rewrite N1 in A2. discriminate A2.
  - destruct u2 as [|y u2]; cbn [append] in H.
    + injection H as -> _. cbn [all] in A1. rewrite N2 in A1. discriminate A1.
    + injection H as -> H. cbn [all] in A1, A2.
      apply andb_prop in A1. apply andb_prop in A2.
      destruct (IH u2 (proj2 A1) (proj2 A2) N1 N2 H) as [-> [-> ->]]. repeat split.
Qed.

(** The characters a pattern can take. *)
Fixpoint takes (fl : flags) (r : regex) (c : ascii) : bool :=
  match r with
  | One a | Rep a _ _ => atom_ok fl a c
  | Cat r1 r2 | Alt r1 r2 => takes fl r1 c || takes fl r2 c
  | Grp _ r1 => takes fl r1 c
  | _ => false
  end.

Lemma all_impl (f g : ascii -> bool) (w : string) :
  (forall c, f c = true -> g c = true) -> all f w = true -> all g w = true.
Proof.
  intros H. induction w as [|c w IH]; cbn [all]; [reflexivity|].
  intros A. apply andb_prop in A. destruct A as [Ac Aw].
  rewrite (H c Ac), (IH Aw). reflexivity.
Qed.

(** What a match consumes is made of characters the pattern can take. *)
Lemma matched_chars (fl : flags) (r : regex) (p : option ascii) (s : string)
    (cs : caps) (p' : option ascii) (s' : string) (cs' : caps) :
  matches fl r p s cs p' s' cs' ->
  exists u, splits s u s' /\ all (takes fl r) u = true.
Proof.
  induction 1 as [p s cs|a p c s cs Ha|a lo hi p s cs p' s' Hr
                 |r1 r2 p s cs p1 s1 cs1 p2 s2 cs2 _ IH1 _ IH2
                 |r1 r2 p s cs p' s' cs' _ IH|r1 r2 p s cs p' s' cs' _ IH
                 |i r p s cs p' s' cs' _ IH|p s cs Hb|p s cs He|p s cs Hw];
    try (exists EmptyString; split; reflexivity).
  - exists (String c EmptyString). split; [reflexivity|].
    cbn [all takes]. rewrite Ha. reflexivity.
  - apply reps_split in Hr. destruct Hr as [w [Hs [Ha _]]].
    exists w. split; [exact Hs|exact Ha].
  - destruct IH1 as [u1 [H1 A1]]. destruct IH2 as [u2 [H2 A2]].
    exists (u1 ++ u2)%string. unfold splits in *. rewrite H1, H2.
    split; [rewrite append_assoc; reflexivity|].
    rewrite all_append. cbn [takes].
    rewrite (all_impl _ _ u1 (fun c H => orb_true_intro _ _ (or_introl H)) A1).
    rewrite (all_impl _ _ u2 (fun c H => orb_true_intro _ _ (or_intror H)) A2).
    reflexivity.
  - destruct IH as [u [Hs A]]. exists u. split; [exact Hs|].
    cbn [takes]. exact (all_impl _ _ u (fun c H => orb_true_intro _ _ (or_introl H)) A).
  - destruct IH as [u [Hs A]]. exists u. split; [exact Hs|].
    cbn [takes]. exact (all_impl _ _ u (fun c H => orb_true_intro _ _ (or_intror H)) A).
  - exact IH.
Qed.

(** The pattern after the service name. *)
Definition after_service : regex :=
  seq [One (Lit ":"); star Patterns.sp;
       Grp 2 (plus Patterns.d09); star Patterns.sp; str "hour"; opt (Lit "s");
       star Patterns.sp; One (Lit "("); One (Lit "$"); Grp 3 Patterns.amount;
       One (Lit ")")].

Ltac inv H := inversion H; subst; clear H.

Ltac forward1 :=
  cbn [pred option_map] in *;
  match goal with
  | H : atom_ok _ _ _ = true |- _ =>
      vm_compute in H; first [discriminate H | clear H]
  | H : hi_open _ = true |- _ =>
      vm_compute in H; first [discriminate H | clear H]
  | H : matches _ (Cat _ _) _ (String _ _) _ _ _ _ |- _ => inv H
  | H : matches _ (Grp _ _) _ (String _ _) _ _ _ _ |- _ => inv H
  | H : matches _ (One _) _ (String _ _) _ _ _ _ |- _ => inv H
  | H : matches _ (Rep _ _ _) _ (String _ _) _ _ _ _ |- _ => inv H
  | H : reps _ _ _ _ (String _ _) _ _ |- _ => inv H
  end.

Lemma after_consulting (p : option ascii) (post : string) (cs : caps)
    (p' : option ascii) (s' : string) (cs' : caps) :
  matches IGNORECASE after_service p (": 10 hours ($1000)" ++ post) cs p' s' cs' ->
  group 2 cs' = Some "10"%string /\ group 3 cs' = Some "1000"%string.
Proof.
  unfold after_service, Patterns.amount, star, plus, opt.
  cbn [seq str append]. intros H.
  repeat forward1.
  all: cbn [group Nat.eqb].
  all: split; f_equal.
  all: try exact (take_append "10" _).
  all: try exact (take_append "1000" _).
Qed.

Lemma colon_not_letter (c : ascii) :
  atom_ok IGNORECASE (Lit ":") c = true -> atom_ok IGNORECASE letters_spaces c = false.
Proof.
  destruct c as [[] [] [] [] [] [] [] []]; vm_compute; intros H;
    try discriminate H; reflexivity.
Qed.

(** A match of the hourly pattern that starts before "Consulting: 10 hours
    ($1000)" ends before it, or takes it with the hours 10 and the total
    1000. *)
Lemma covering_match (pre post : string) (prev : option ascii) (m : string) (cs : caps) :
  match_here hourly_pattern prev (pre ++ ten_hours ++ post) = Some (m, cs) ->
  (1 <= String.length m <= String.length pre)%nat
  \/ (group 2 cs = Some "10"%string /\ group 3 cs = Some "1000"%string).
Proof.
  remember (pre ++ ten_hours ++ post)%string as T eqn:ET.
  unfold match_here. intros H.
  destruct (exec (p_flags hourly_pattern) (p_re hourly_pattern) prev T []
              (fun _ s1 cs1 => Some (s1, cs1)))
    as [[s' cs']|] eqn:Ex; [|discriminate H].
  injection H as <- <-.
  apply exec_sound in Ex. destruct Ex as [p' [s1' [cs1' [Hm Hk]]]].
  injection Hk as -> ->.
  change (p_flags hourly_pattern) with IGNORECASE in Hm.
  change (p_re hourly_pattern)
    with (Cat (Grp 1 (Rep letters_spaces 1 None)) after_service) in Hm.
  apply cat_inv in Hm. destruct Hm as [p1 [s1 [cs1 [H1 H2]]]].
  assert (Hw : exists w,
             splits T w s1 /\ all (atom_ok IGNORECASE letters_spaces) w = true
             /\ (1 <= String.length w)%nat).
  { inversion H1 as [| | | | | |i0 r0 p0 s0 cs0 p0' s0' cs0' Hr| | |]; subst.
    inversion Hr as [| |a0 lo0 hi0 pr sr cr pr' sr' Hreps| | | | | | |]; subst.
    exact (reps_split _ _ _ _ _ _ _ Hreps). }
  destruct Hw as [w [Hs [Aw Lw]]]. clear H1.
  destruct (matched_chars _ _ _ _ _ _ _ _ H2) as [u [Hu Au]].
  assert (Hc : exists c s2,
             s1 = String c s2 /\ atom_ok IGNORECASE (Lit ":") c = true).
  { unfold after_service in H2. cbn [seq] in H2.
    apply cat_inv in H2. destruct H2 as [p2 [s2 [cs2 [Hone _]]]].
    inversion Hone; subst. eexists _, _. split; [reflexivity|assumption]. }
  destruct Hc as [c [s2 [Es1 Hcolon]]].
  unfold splits in Hs, Hu.
  assert (Em : Str.take (String.length T - String.length s') T = (w ++ u)%string).
  { rewrite Hs, Hu, <- append_assoc. apply take_append. }
  rewrite Em. clear Em. rewrite ET in Hs.
  destruct (append_split _ _ _ _ Hs) as [[e [Epre Es]]|[e [Ew Es]]].
  - (* the colon of the match is before "Consulting" *)
    rewrite Hu in Es.
    destruct (append_split _ _ _ _ Es) as [[f [Eu Ef]]|[f [Ee Ef]]].
    + destruct f as [|x f].
      * left. rewrite append_empty in Eu. subst u. rewrite <- Epre.
        rewrite Epre at 1. rewrite length_append. lia.
      * exfalso. unfold ten_hours in Ef. cbn [append] in Ef. injection Ef as <- _.
        rewrite Eu, all_append in Au. apply andb_prop in Au. destruct Au as [_ Au].
        cbn [all] in Au. apply andb_prop in Au. destruct Au as [Au _].
        vm_compute in Au. discriminate Au.
    + left. rewrite Epre, Ee, !length_append. lia.
  - (* the service name of the match reaches into "Consulting" *)
    right. rewrite Ew, all_append in Aw. apply andb_prop in Aw. destruct Aw as [_ Ae].
    rewrite Es1 in Es. unfold ten_hours in Es.
    destruct (run_unique (atom_ok IGNORECASE letters_spaces)
                "Consulting" ":" (" 10 hours ($1000)" ++ post) e c s2) as [_ [<- <-]];
      [reflexivity|exact Ae|reflexivity|exact (colon_not_letter c Hcolon)| |].
    + rewrite <- Es. reflexivity.
    + rewrite Es1 in H2. exact (after_consulting _ _ _ _ _ _ H2).
Qed.

Lemma starts_with_match (prev : option ascii) (post : string) :
  exists m cs,
    match_here hourly_pattern prev (EmptyString ++ ten_hours ++ post) = Some (m, cs).
Proof.
  pose proof (starts_here prev post) as H.
  change (EmptyString ++ ten_hours ++ post)%string with (ten_hours ++ post)%string.
  destruct (match_here hourly_pattern prev (ten_hours ++ post)) as [[m cs]|].
  - exists m, cs. reflexivity.
  - contradiction.
Qed.

Lemma scan_head (pat : pattern) (prev : option ascii) (s m : string) (cs : caps) :
  match_here pat prev s = Some (m, cs) -> In (m, cs) (scan pat prev s 0).
Proof.
  intros H. destruct s as [|c s]; cbn [scan]; rewrite H; left; reflexivity.
Qed.

Lemma scan_here (pat : pattern) (prev : option ascii) (c : ascii) (s : string) :
  scan pat prev (String c s) 0
  = match match_here pat prev (String c s) with
    | Some (m, cs) => (m, cs) :: scan pat (Some c) s (pred (String.length m))
    | None => scan pat (Some c) s 0
    end.
Proof. reflexivity. Qed.

(** In a text that contains "Consulting: 10 hours ($1000)" the scan finds a
    match with the hours 10 and the total 1000. *)
Lemma scan_finds (post : string) (pre : string) :
  forall prev skip,
    (skip <= String.length pre)%nat ->
    exists x,
      In x (scan hourly_pattern prev (pre ++ ten_hours ++ post) skip)
      /\ group 2 (snd x) = Some "10"%string /\ group 3 (snd x) = Some "1000"%string.
Proof.
  induction pre as [|c pre IH]; intros prev skip Hskip.
  - cbn [String.length] in Hskip. assert (skip = 0%nat) by lia. subst skip.
    destruct (starts_with_match prev post) as [m [cs Em]].
    exists (m, cs). split; [exact (scan_head _ _ _ _ _ Em)|].
    apply covering_match in Em.
    destruct Em as [Hl|Hg]; [cbn [String.length] in Hl; lia|exact Hg].
  - change (String c pre ++ ten_hours ++ post)%string
      with (String c (pre ++ ten_hours ++ post)).
    destruct skip as [|n].
    + rewrite scan_here.
      destruct (match_here hourly_pattern prev (String c (pre ++ ten_hours ++ post)))
        as [[m cs]|] eqn:Em.
      * change (String c (pre ++ ten_hours ++ post))
          with (String c pre ++ ten_hours ++ post)%string in Em.
        apply covering_match in Em. destruct Em as [Hl|Hg].
        -- destruct (IH (Some c) (pred (String.length m))) as [x [Hin Hx]];
             [cbn [String.length] in Hl; lia|].
           exists x. split; [right; exact Hin|exact Hx].
        -- exists (m, cs). split; [left; reflexivity|exact Hg].
      * destruct (IH (Some c) 0%nat) as [x [Hin Hx]]; [lia|].
        exists x. split; [exact Hin|exact Hx].
    + change (scan hourly_pattern prev (String c (pre ++ ten_hours ++ post)) (S n))
        with (scan hourly_pattern (Some c) (pre ++ ten_hours ++ post) n).
      destruct (IH (Some c) n) as [x [Hin Hx]]; [cbn [String.length] in Hskip; lia|].
      exists x. split; [exact Hin|exact Hx].
Qed.

Lemma containing_match (pre post : string) :
  exists service,
    In (service, "10"%string, "1000"%string)
      (findall3 hourly_pattern (pre ++ ten_hours ++ post)).
Proof.
  destruct (scan_finds post pre None 0%nat) as [x [Hin [H2 H3]]]; [lia|].
  exists (group_str 1 (snd x)). unfold findall3.
  apply in_map_iff. exists x. split; [|exact Hin].
  unfold group_str at 2 3. rewrite H2, H3. reflexivity.
Qed.

Lemma forall2_in_l {A B : Type} (R : A -> B -> Prop) (l : list A) (l' : list B) (x : A) :
  Forall2 R l l' -> In x l -> exists y, In y l' /\ R x y.
Proof.
  induction 1 as [|a b l l' Hab _ IH]; intros Hin; [destruct Hin|].
  destruct Hin as [->|Hin].
  - exists b. split; [left; reflexivity|exact Hab].
  - destruct (IH Hin) as [y [Hy Hr]]. exists y. split; [right; exact Hy|exact Hr].
Qed.

(** The line item of ten hours for a total of 1000. *)
Definition ten_hours_item (service : string) : LineItem.t :=
  {| LineItem.service := Some (collapse_spaces service);
     LineItem.quantity := Some 10;
     LineItem.unit := Some "hour";
     LineItem.unit_price := Some 100%float;
     LineItem.monthly_total := Some 1000%float |}.

Lemma hourly_item_of_ten (service : string) :
  hourly_item (service, "10", "1000")%string = Ok (ten_hours_item service).
Proof.
  assert (Hn : Num.py_int "10" = Ok 10) by (vm_compute; reflexivity).
  assert (Ht : to_amount "1000" = Ok 1000%float) by (vm_compute; reflexivity).
  rewrite (hourly_item_eq service "10" "1000" 10 1000%float Hn Ht).
  assert (El : (10 <? Num.float_overflow) = true) by (vm_compute; reflexivity).
  rewrite El. unfold hourly_line_item, ten_hours_item.
  assert (Eu : (if 10 =? 0 then 0%float else (1000 / Num.float_of_Z 10)%float)
               = 100%float) by (vm_compute; reflexivity).
  rewrite Eu. reflexivity.
Qed.

(** A text that contains "Consulting: 10 hours ($1000)" has a match with
    N = 10 and the total 1000, and when the extractor returns, the item of
    that match is among the line items. *)
Lemma containing_item (pre post : string) :
  exists service,
    In (service, "10", "1000")%string
      (findall3 hourly_pattern (pre ++ ten_hours ++ post))
    /\ hourly_item (service, "10", "1000")%string = Ok (ten_hours_item service)
    /\ forall fd,
         _extract_financial_details (pre ++ ten_hours ++ post) = Ok fd ->
         exists items,
           FinancialDetails.line_items fd = Some items
           /\ In (ten_hours_item service) items.
Proof.
  destruct (containing_match pre post) as [service Hin].
  exists service. split; [exact Hin|]. split; [apply hourly_item_of_ten|].
  intros fd H. apply extract_ok in H.
  destruct H as [items_a [items_b [mc [setup [acv [_ [Hb [_ [_ [_ ->]]]]]]]]]].
  apply mapM_ok in Hb.
  destruct (forall2_in_l _ _ _ _ Hb Hin) as [item [Hitem Hr]].
  rewrite hourly_item_of_ten in Hr. injection Hr as <-.
  exists (items_a ++ items_b). cbn [FinancialDetails.line_items].
  assert (Hboth : In (ten_hours_item service) (items_a ++ items_b))
    by (apply in_or_app; right; exact Hitem).
  split; [|exact Hboth].
  destruct (items_a ++ items_b); [destruct Hboth|reflexivity].
Qed.

(** ** The hourly line items *)

Definition no_hours : string := "Consulting: 0 hours ($1000)".

(** C4, amended: in every match "<Service Name>: <N> hours ($<total>)" of
    every text, N is a non-empty string of digits, and the loop body on the
    match builds the line item with quantity = N, unit = "hour",
    monthly_total = total and unit_price = total/N, or 0.0 when N = 0,
    unless a conversion fails: it raises ValueError when N has more than
    4300 digits or the total has no digit, and OverflowError when N is
    2^1024 - 2^970 or more, which no float holds; it never raises
    ZeroDivisionError, and for N = 0 it returns the item with unit_price 0.0
    whenever N has at most 4300 digits and the total has a digit.  When the
    extractor returns, its line items end with these items, one per match
    and in order, and it returns exactly when every conversion on the text
    succeeds.  Every text that contains "Consulting: 10 hours ($1000)" has
    a match with N = 10 and the total 1000, the item of which has
    quantity 10, unit "hour", unit_price 100.0 and monthly_total 1000.0 and
    is among the line items when the extractor returns; for that text alone
    it is the only line item, with the service "Consulting". *)
Theorem hourly_line_items (text : string) :
  (forall service hours total,
     In (service, hours, total) (findall3 hourly_pattern text) ->
     (all Str.is_digit hours = true /\ (1 <= String.length hours)%nat)
     /\ hourly_item (service, hours, total)
        = (if (N.of_nat (String.length hours) <=? Num.int_max_str_digits)%N then
             match to_amount total with
             | Ok t =>
                 if int_value hours <? Num.float_overflow
                 then Ok (hourly_line_item service (int_value hours) t)
                 else Raise OverflowError
             | Raise _ => Raise ValueError
             end
           else Raise ValueError)
     /\ (has_digit total = true <-> exists t, to_amount total = Ok t)
     /\ hourly_item (service, hours, total) <> Raise ZeroDivisionError
     /\ (int_value hours = 0 ->
         (String.length hours <= 4300)%nat ->
         forall t,
           to_amount total = Ok t ->
           hourly_item (service, hours, total)
           = Ok {| LineItem.service := Some (collapse_spaces service);
                   LineItem.quantity := Some 0;
                   LineItem.unit := Some "hour";
                   LineItem.unit_price := Some 0%float;
                   LineItem.monthly_total := Some t |}))
  /\ (forall fd,
        _extract_financial_details text = Ok fd ->
        exists items_a items_b,
          FinancialDetails.line_items fd = nonempty (items_a ++ items_b)
          /\ Forall2 (fun m item => hourly_item m = Ok item)
               (findall3 hourly_pattern text) items_b)
  /\ (converts text = true <-> exists fd, _extract_financial_details text = Ok fd)
  /\ (forall pre post,
        text = (pre ++ ten_hours ++ post)%string ->
        exists service,
          In (service, "10", "1000")%string (findall3 hourly_pattern text)
          /\ hourly_item (service, "10", "1000")%string = Ok (ten_hours_item service)
          /\ forall fd,
               _extract_financial_details text = Ok fd ->
               exists items,
                 FinancialDetails.line_items fd = Some items
                 /\ In (ten_hours_item service) items)
  /\ fmap FinancialDetails.line_items (_extract_financial_details ten_hours)
     = Ok (Some [ {| LineItem.service := Some "Consulting";
                     LineItem.quantity := Some 10;
                     LineItem.unit := Some "hour";
                     LineItem.unit_price := Some 100%float;
                     LineItem.monthly_total := Some 1000%float |} ]).
Proof.
  split; [|split; [|split; [|split]]].
  - intros service hours total Hin.
    destruct (hourly_hours_digits _ _ _ _ Hin) as [Ha Hl].
    pose proof (hourly_item_cases service hours total Ha Hl) as Hc.
    pose proof (to_amount_cases total (hourly_amount_like _ _ _ _ Hin)) as Ht.
    split; [split; assumption|]. split; [exact Hc|]. split; [|split].
    + destruct (has_digit total).
      * split; [intros _; exact Ht|reflexivity].
      * split; [discriminate|]. intros [t E]. rewrite E in Ht. discriminate Ht.
    + rewrite Hc.
      destruct (N.of_nat (String.length hours) <=? Num.int_max_str_digits)%N;
        [|discriminate].
      destruct (to_amount total); [|discriminate].
      destruct (int_value hours <? Num.float_overflow); discriminate.
    + intros H0 Hlen t Et. rewrite Hc, Et, H0.
      replace (N.of_nat (String.length hours) <=? Num.int_max_str_digits)%N with true.
      * reflexivity.
      * symmetry. apply N.leb_le. unfold Num.int_max_str_digits. lia.
  - intros fd H. apply extract_ok in H.
    destruct H as [items_a [items_b [mc [setup [acv [_ [Hb [_ [_ [_ ->]]]]]]]]]].
    exists items_a, items_b. split; [reflexivity|].
    apply mapM_ok. exact Hb.
  - apply returns_iff_converts.
  - intros pre post ->. apply containing_item.
  - vm_compute. reflexivity.
Qed.

(** A text around the ten hours. *)
Definition fees_before : string := "Fees: ".
Definition per_month_after : string := " per month".

Lemma hourly_line_items_witness :
  (In ("Consulting", "10", "1000") (findall3 hourly_pattern ten_hours)
   /\ hourly_item ("Consulting", "10", "1000")
      = Ok {| LineItem.service := Some "Consulting";
              LineItem.quantity := Some 10;
              LineItem.unit := Some "hour";
              LineItem.unit_price := Some 100%float;
              LineItem.monthly_total := Some 1000%float |})
  /\ (In ("Consulting", "0", "1000") (findall3 hourly_pattern no_hours)
      /\ hourly_item ("Consulting", "0", "1000")
         = Ok {| LineItem.service := Some "Consulting";
                 LineItem.quantity := Some 0;
                 LineItem.unit := Some "hour";
                 LineItem.unit_price := Some 0%float;
                 LineItem.monthly_total := Some 1000%float |})
  /\ (exists service,
        In (service, "10", "1000")%string
          (findall3 hourly_pattern (fees_before ++ ten_hours ++ per_month_after))
        /\ hourly_item (service, "10", "1000")%string = Ok (ten_hours_item service)).
Proof.
  assert (H10 : In ("Consulting", "10", "1000") (findall3 hourly_pattern ten_hours))
    by (vm_compute; left; reflexivity).
  assert (H0 : In ("Consulting", "0", "1000") (findall3 hourly_pattern no_hours))
    by (vm_compute; left; reflexivity).
  split; [|split]; [split; [assumption|]|split; [assumption|]|].
  - destruct (hourly_line_items ten_hours) as [H _].
    destruct (H _ _ _ H10) as [_ [E _]]. rewrite E. vm_compute. reflexivity.
  - destruct (hourly_line_items no_hours) as [H _].
    destruct (H _ _ _ H0) as [_ [_ [_ [_ E]]]].
    exact (E eq_refl ltac:(cbn; lia) 1000%float eq_refl).
  - destruct (hourly_line_items (fees_before ++ ten_hours ++ per_month_after))
      as [_ [_ [_ [H _]]]].
    destruct (H fees_before per_month_after eq_refl) as [service [Hin [Hitem _]]].
    exists service. split; [exact Hin|exact Hitem].
Defined.

Example no_hours_extracted :
  fmap FinancialDetails.line_items (_extract_financial_details no_hours)
  = Ok (Some [ {| LineItem.service := Some "Consulting";
                  LineItem.quantity := Some 0;
                  LineItem.unit := Some "hour";
                  LineItem.unit_price := Some 0%float;
                  LineItem.monthly_total := Some 1000%float |} ]).
Proof. vm_compute. reflexivity. Qed.

(** ** The annual contract value *)

(** C6, amended: the extractor returns exactly when every conversion it
    makes on the text succeeds, and raises ValueError or OverflowError when
    one does not; when it returns, total_monthly is the amount of the first
    match of the monthly pattern (0 without a match), and
    annual_contract_value is the amount of the first match of the explicit
    annual pattern when there is one; otherwise, when total_monthly > 0, it
    is total_monthly times the number of months of the contract term, which
    is that of the first match of the term pattern and 12 without a match;
    otherwise it is absent. *)
Theorem annual_contract_value_rule (text : string) :
  (converts text = true <-> exists fd, _extract_financial_details text = Ok fd)
  /\ (forall fd,
        _extract_financial_details text = Ok fd ->
        FinancialDetails.total_monthly fd = Some (monthly_total text)
        /\ match findall annual_pattern text with
           | a :: _ =>
               exists v,
                 to_amount a = Ok v
                 /\ FinancialDetails.annual_contract_value fd = Some (Num.Float v)
           | [] =>
               exists total_monthly,
                 FinancialDetails.total_monthly fd = Some total_monthly
                 /\ if Num.gt0 total_monthly then
                      exists m months,
                        total_monthly = Num.Float m
                        /\ term_is text months
                        /\ FinancialDetails.annual_contract_value fd
                           = Some (Num.Float (m * Num.float_of_Z months))
                    else FinancialDetails.annual_contract_value fd = None
           end)
  /\ (forall e,
        _extract_financial_details text = Raise e ->
        e = ValueError \/ e = OverflowError).
Proof.
  split; [apply returns_iff_converts|]. split; [|apply raises_two].
  intros fd H. apply extract_ok in H.
  destruct H as [items_a [items_b [mc [setup [acv [_ [_ [Hm [_ [Hv ->]]]]]]]]]].
  cbn [FinancialDetails.annual_contract_value FinancialDetails.total_monthly].
  split; [rewrite (first_amount_total text mc Hm); reflexivity|].
  destruct (findall annual_pattern text) as [|a l].
  - exists (total mc). split; [reflexivity|].
    destruct (Num.gt0 (total mc)) eqn:Hgt.
    + apply bind_ok in Hv. destruct Hv as [months [Hmonths Hv]].
      apply bind_ok in Hv. destruct Hv as [v [Hmul Hv]]. injection Hv as <-.
      destruct (total mc) as [z|m] eqn:Et.
      * unfold total in Et. destruct mc as [|[k x] mc']; [|discriminate Et].
        injection Et as <-. discriminate Hgt.
      * unfold Num.mul, Num.int_to_float in Hmul.
        destruct (Z.abs months <? Num.float_overflow); [|discriminate Hmul].
        cbn [bind] in Hmul. injection Hmul as <-.
        exists m, months. split; [reflexivity|]. split; [|reflexivity].
        unfold term_is. unfold contract_months in Hmonths.
        destruct (findall Patterns.contract_term text) as [|t l'].
        -- injection Hmonths as <-. reflexivity.
        -- exact Hmonths.
    + injection Hv as <-. reflexivity.
  - apply bind_ok in Hv. destruct Hv as [v [Ha Hv]]. injection Hv as <-.
    exists v. split; [exact Ha|reflexivity].
Qed.

Lemma annual_contract_value_rule_witness :
  exists fd,
    _extract_financial_details two_years = Ok fd
    /\ FinancialDetails.total_monthly fd = Some (Num.Float 500)
    /\ FinancialDetails.annual_contract_value fd = Some (Num.Float 12000).
Proof.
  destruct (annual_contract_value_rule two_years) as [[Hret _] [Hrule _]].
  assert (Hc : converts two_years = true) by (vm_compute; reflexivity).
  destruct (Hret Hc) as [fd E]. exists fd. split; [exact E|].
  destruct (Hrule fd E) as [Ht Hv].
  assert (Et : monthly_total two_years = Num.Float 500) by (vm_compute; reflexivity).
  rewrite Et in Ht. split; [exact Ht|].
  assert (Ea : findall annual_pattern two_years = []) by (vm_compute; reflexivity).
  rewrite Ea in Hv. destruct Hv as [total_monthly [Ht' Hv]].
  rewrite Ht in Ht'. injection Ht' as <-.
  assert (Eg : Num.gt0 (Num.Float 500) = true) by (vm_compute; reflexivity).
  rewrite Eg in Hv. destruct Hv as [m [months [Em [Hterm ->]]]].
  injection Em as <-.
  assert (Em : months = 24).
  { unfold term_is in Hterm.
    assert (Ef : findall Patterns.contract_term two_years = ["24"%string])
      by (vm_compute; reflexivity).
    rewrite Ef in Hterm. vm_compute in Hterm. injection Hterm as <-. reflexivity. }
  subst months. vm_compute. reflexivity.
Defined.

(** A monthly total and a term of 10^309 months. *)
Definition long_term : string :=
  ("Monthly Total: $500 Term: 1" ++ zeros 309 ++ " months")%string.

(** An annual value left open. *)
Definition open_annual_value : string := "Annual Contract Value: $, to be agreed".

(** C6 as stated fails: without an explicit annual value, with a monthly
    total of 500 and a term that the pattern matches, the product of the two
    raises OverflowError; and an explicit annual value without a digit
    raises ValueError.  On either text the extractor raises, and sets no
    annual value. *)
Lemma annual_value_not_set :
  (findall annual_pattern long_term = []
   /\ monthly_total long_term = Num.Float 500
   /\ findall Patterns.contract_term long_term = [String "1" (zeros 309)]
   /\ _extract_financial_details long_term = Raise OverflowError)
  /\ (findall annual_pattern open_annual_value = [","%string]
      /\ _extract_financial_details open_annual_value = Raise ValueError).
Proof.
  split; [split; [|split; [|split]]|split]; vm_compute; reflexivity.
Qed.

End FinancialRules.

(* ------------------------------------------------------------------ *)
(** * Banking details, service credits, billing cycle and schedule *)

Module TermsExtras.

Import MatchFacts.
Import WordFacts.
Import GreedyFacts.

(** The banking details are recorded exactly when the bank, the account or
    the routing pattern matches (a SWIFT code alone does not count), and
    the record then holds none of what was found: bank, account and routing
    are all None, the constructor being called with keywords that name no
    field. *)
Theorem banking_info_never_filled (text : string) (pay : PaymentStructure.t) :
  _extract_payment_structure text = Ok pay ->
  (PaymentStructure.banking_info pay <> None <->
   findall bank_name_pattern text <> []
   \/ findall account_pattern text <> []
   \/ findall routing_pattern text <> [])
  /\ forall b,
       PaymentStructure.banking_info pay = Some b ->
       BankingInfo.bank b = None
       /\ BankingInfo.account b = None
       /\ BankingInfo.routing b = None.
Proof.
  unfold _extract_payment_structure.
  destruct (findall discount_pattern text); [|discriminate].
  cbn [bind]. intros H. injection H as <-. cbn [PaymentStructure.banking_info].
  destruct (findall bank_name_pattern text) as [|b1 l1];
    destruct (findall account_pattern text) as [|b2 l2];
    destruct (findall routing_pattern text) as [|b3 l3];
    cbn [truthy_list orb]; (split; [split|]);
    try (intros H; contradiction H; reflexivity);
    try (intros [H|[H|H]]; contradiction H; reflexivity);
    try (intros _; discriminate);
    try (intros _; right; right; discriminate);
    try (intros _; right; left; discriminate);
    try (intros _; left; discriminate);
    try (intros b H; discriminate H);
    intros b H; injection H as <-; repeat split; reflexivity.
Qed.

Definition bank_text : string := "Bank: First National Account: 12345678".

Lemma banking_info_never_filled_witness :
  exists pay b,
    _extract_payment_structure bank_text = Ok pay
    /\ findall bank_name_pattern bank_text <> []
    /\ PaymentStructure.banking_info pay = Some b
    /\ BankingInfo.bank b = None
    /\ BankingInfo.account b = None
    /\ BankingInfo.routing b = None.
Proof.
  destruct (_extract_payment_structure bank_text) as [pay|e] eqn:E;
    [|vm_compute in E; discriminate E].
  destruct (banking_info_never_filled bank_text pay E) as [[_ Hex] Hall].
  assert (Hb : findall bank_name_pattern bank_text <> [])
    by (vm_compute; discriminate).
  destruct (PaymentStructure.banking_info pay) as [b|] eqn:Eb in Hex, Hall |- *;
    [|exfalso; apply (Hex (or_introl Hb)); reflexivity].
  exists pay, b. split; [reflexivity|]. split; [exact Hb|].
  split; [exact Eb|]. exact (Hall b eq_refl).
Defined.

(** The service credits are always a list, with one record for each match
    of the credit pattern, and every record is empty: the three fields of
    each are None, the constructor being called with keywords that name no
    field. *)
Theorem service_credits_never_filled (text : string) :
  exists l,
    SLATerms.service_credits (_extract_sla_terms text) = Some (SLATerms.CreditList l)
    /\ List.length l = List.length (findall2 credit_pattern text)
    /\ forall c, In c l ->
         ServiceCredits.availability_penalty c = None
         /\ ServiceCredits.response_time_penalty c = None
         /\ ServiceCredits.maximum_credits c = None.
Proof.
  eexists. split; [reflexivity|]. split; [apply length_map|].
  intros c H. apply in_map_iff in H. destruct H as [[credit threshold] [<- _]].
  repeat split; reflexivity.
Qed.

(** The billing cycle is decided by keyword priority: "monthly" when
    "monthly" or "per month" occurs in the text (in any case), else
    "quarterly" when "quarterly" or "per quarter" occurs, else "annual"
    when "annually", "yearly" or "per year" occurs, else it is absent. *)
Theorem billing_cycle_by_priority (text : string) :
  RevenueClassification.billing_cycle (_extract_revenue_classification text)
  = if contains_ci "monthly" text || contains_ci "per month" text
    then Some "monthly"
    else if contains_ci "quarterly" text || contains_ci "per quarter" text
    then Some "quarterly"
    else if contains_ci "annually" text || contains_ci "yearly" text
            || contains_ci "per year" text
    then Some "annual"
    else None.
Proof.
  cbn [_extract_revenue_classification RevenueClassification.billing_cycle].
  unfold monthly_re, quarterly_re, annually_re.
  rewrite !found_words. cbn [existsb]. rewrite !orb_false_r, <- !orb_assoc.
  reflexivity.
Qed.

(** The payment schedule given by default for a billing cycle. *)
Definition default_schedule (cycle : string) : string :=
  if String.eqb cycle "monthly" then "Monthly recurring billing"
  else if String.eqb cycle "quarterly" then "Quarterly billing"
  else "Annual billing".

(** Without an explicit "billed/invoiced/charged ... monthly/quarterly/
    annually/yearly" phrase, the payment schedule of the payment extractor
    and the billing cycle of the revenue extractor agree: the schedule is
    the default for the cycle, and is absent exactly when the cycle is. *)
Theorem schedule_follows_cycle (text : string) (pay : PaymentStructure.t) :
  _extract_payment_structure text = Ok pay ->
  findall0 schedule_pattern text = [] ->
  PaymentStructure.payment_schedule pay
  = option_map default_schedule
      (RevenueClassification.billing_cycle (_extract_revenue_classification text)).
Proof.
  unfold _extract_payment_structure.
  destruct (findall discount_pattern text); [|discriminate].
  cbn [bind]. intros H. injection H as <-. intros E.
  cbn [PaymentStructure.payment_schedule _extract_revenue_classification
         RevenueClassification.billing_cycle].
  rewrite E.
  destruct (found monthly_re text); [reflexivity|].
  destruct (found quarterly_re text); [reflexivity|].
  destruct (found annually_re text); reflexivity.
Qed.

Definition quarterly_text : string := "Fees are payable per quarter in advance".

Lemma schedule_follows_cycle_witness :
  exists pay,
    _extract_payment_structure quarterly_text = Ok pay
    /\ RevenueClassification.billing_cycle (_extract_revenue_classification quarterly_text)
       = Some "quarterly"
    /\ PaymentStructure.payment_schedule pay = Some "Quarterly billing".
Proof.
  destruct (_extract_payment_structure quarterly_text) as [pay|e] eqn:E;
    [|vm_compute in E; discriminate E].
  exists pay. split; [reflexivity|].
  assert (C : RevenueClassification.billing_cycle
                (_extract_revenue_classification quarterly_text) = Some "quarterly")
    by (vm_compute; reflexivity).
  split; [exact C|].
  rewrite (schedule_follows_cycle quarterly_text pay E); [|vm_compute; reflexivity].
  rewrite C. reflexivity.
Defined.

End TermsExtras.

(* ------------------------------------------------------------------ *)
(** * Processing a contract, and what the endpoints then answer *)

Module ServiceFacts.

Import ContractService.
Import Main.
Import PartiesFacts.
Import PipelineFacts.
Import PipelineExtras.

Local Open Scope Z_scope.

Lemma find_app_none {A : Type} (f : A -> bool) (l l' : list A) :
  List.find f l = None -> List.find f (l ++ l') = List.find f l'.
Proof.
  induction l as [|x l IH]; cbn [List.find app]; [reflexivity|].
  destruct (f x); [discriminate|exact IH].
Qed.

Lemma database_eta (db : database) :
  {| contracts_collection := contracts_collection db;
     contract_data_collection := contract_data_collection db |} = db.
Proof. destruct db. reflexivity. Qed.

Lemma update_one_none {A : Type} (filter : A -> bool) (set : A -> A) (l : list A) :
  find_one filter l = None -> update_one filter set l = l.
Proof.
  unfold find_one. induction l as [|doc l IH]; cbn [List.find update_one]; [reflexivity|].
  destruct (filter doc); [discriminate|]. intros H. rewrite (IH H). reflexivity.
Qed.

Lemma find_update_one {A : Type} (filter : A -> bool) (set : A -> A) (l : list A) :
  (forall doc, filter doc = true -> filter (set doc) = true) ->
  find_one filter (update_one filter set l) = option_map set (find_one filter l).
Proof.
  intros Hset. unfold find_one.
  induction l as [|doc l IH]; cbn [List.find update_one option_map]; [reflexivity|].
  destruct (filter doc) eqn:E; cbn [List.find].
  - rewrite (Hset doc E). reflexivity.
  - rewrite E. exact IH.
Qed.

(** What the assignments of [update_contract_status] do to a document. *)
Definition updated (status : string) (progress : option Z) (error_message : option string)
    (doc : ContractModel.t) : ContractModel.t :=
  {| ContractModel._id := ContractModel._id doc;
     ContractModel.filename := ContractModel.filename doc;
     ContractModel.file_path := ContractModel.file_path doc;
     ContractModel.status := status;
     ContractModel.progress :=
       match progress with Some p => p | None => ContractModel.progress doc end;
     ContractModel.upload_date := ContractModel.upload_date doc;
     ContractModel.error_message :=
       match error_message with
       | Some m => if Str.truthy m then Some m else ContractModel.error_message doc
       | None => ContractModel.error_message doc
       end;
     ContractModel.file_size := ContractModel.file_size doc;
     ContractModel.content_hash := ContractModel.content_hash doc |}.

Lemma set_update_data (status : string) (progress : option Z)
    (error_message : option string) (doc : ContractModel.t) :
  fold_left set_field (update_data status progress error_message) doc
  = updated status progress error_message doc.
Proof.
  destruct doc. destruct progress as [p|]; destruct error_message as [[|c m]|]; reflexivity.
Qed.

Lemma updated_by_id (contract_id status : string) (progress : option Z)
    (error_message : option string) (doc : ContractModel.t) :
  by_id contract_id doc = true ->
  by_id contract_id (updated status progress error_message doc) = true.
Proof. intros H. exact H. Qed.

(** The contracts after [update_contract_status]. *)
Lemma find_after_update (contract_id status : string) (progress : option Z)
    (error_message : option string) (db : database) :
  find_one (by_id contract_id)
    (contracts_collection
       (snd (update_contract_status contract_id status progress error_message db)))
  = option_map (updated status progress error_message)
      (find_one (by_id contract_id) (contracts_collection db)).
Proof.
  unfold update_contract_status. cbn [snd contracts_collection].
  rewrite find_update_one.
  - destruct (find_one (by_id contract_id) (contracts_collection db)); cbn [option_map];
      [|reflexivity].
    rewrite set_update_data. reflexivity.
  - intros doc H. rewrite set_update_data. exact H.
Qed.

Section Processing.

Variable set_iteration : list string -> list string.
Variable _extract_text_from_pdf : list Byte.byte -> result string.
Variable inner_message : list Byte.byte -> string.
Variable read_file : string -> list Byte.byte + exception.
Variable utcnow : datetime.
Variable object_id : string.
Variable insert_error : ContractDataModel.t -> option exception.

(** [process_contract] for the reader, the file system, the clock and the
    store of the section. *)
Definition process (contract_id : string) : io unit :=
  process_contract set_iteration _extract_text_from_pdf inner_message read_file utcnow
    object_id insert_error contract_id.

(** The document [process_contract] stores for the extracted data. *)
Definition stored (contract_id : string) (extracted_data : ExtractedData.t)
  : ContractDataModel.t :=
  {| ContractDataModel._id := object_id;
     ContractDataModel.contract_id := contract_id;
     ContractDataModel.extracted_data := extracted_data;
     ContractDataModel.confidence_score :=
       Num.float_of_Z (calculate_confidence_score extracted_data);
     ContractDataModel.processing_date := utcnow;
     ContractDataModel.gap_analysis := None |}.

(** The exception of a failed parse. *)
Definition parse_failure (e : exn) (file_content : list Byte.byte) : exception :=
  {| type_name := name_of e;
     message := "Failed to parse contract: " ++ inner_message file_content |}.

Definition status_update (contract_id status : string) (progress : option Z)
    (error_message : option string) (db : database) : database :=
  snd (update_contract_status contract_id status progress error_message db).

(** [process_contract] on a contract that is in the collection, path by
    path. *)
Lemma process_contract_run (contract_id : string) (db : database) (c : ContractModel.t) :
  find_one (by_id contract_id) (contracts_collection db) = Some c ->
  process contract_id db
  = let db1 := status_update contract_id "processing" (Some 10) None db in
    match read_file (ContractModel.file_path c) with
    | inr e => (inr e, status_update contract_id "failed" None (Some (message e)) db1)
    | inl file_content =>
        let db2 := status_update contract_id "processing" (Some 30) None db1 in
        match parse_contract set_iteration _extract_text_from_pdf file_content with
        | Raise e =>
            (inr (parse_failure e file_content),
             status_update contract_id "failed" None
               (Some (message (parse_failure e file_content))) db2)
        | Ok extracted_data =>
            let db3 := status_update contract_id "processing" (Some 70) None db2 in
            match insert_error (stored contract_id extracted_data) with
            | Some e =>
                (inr e, status_update contract_id "failed" None (Some (message e)) db3)
            | None =>
                (inl tt,
                 status_update contract_id "completed" (Some 100) None
                   {| contracts_collection := contracts_collection db3;
                      contract_data_collection :=
                        contract_data_collection db3
                        ++ [stored contract_id extracted_data] |})
            end
        end
    end.
Proof.
  intros Hc.
  pose proof (find_after_update contract_id "processing" (Some 10) None db) as H1.
  rewrite Hc in H1. cbn [option_map] in H1.
  unfold process, process_contract, try_except, io_bind, find_contract.
  unfold status_update in *.
  cbn [update_contract_status fst snd] in *.
  rewrite H1. cbn [ContractModel.file_path updated].
  destruct (read_file (ContractModel.file_path c)) as [file_content|e];
    cbn [ret raise]; [|reflexivity].
  unfold parse.
  destruct (parse_contract set_iteration _extract_text_from_pdf file_content)
    as [extracted_data|e]; cbn [ret raise]; [|reflexivity].
  unfold insert_one. fold (stored contract_id extracted_data).
  destruct (insert_error (stored contract_id extracted_data)) as [e|]; reflexivity.
Qed.

(** Processing an identifier that is not in the collection raises
    ValueError "Contract <id> not found" and leaves both collections as
    they were. *)
Theorem unknown_contract_changes_nothing (contract_id : string) (db : database) :
  find_one (by_id contract_id) (contracts_collection db) = None ->
  process contract_id db
  = (inr {| type_name := "ValueError";
            message := "Contract " ++ contract_id ++ " not found" |}, db).
Proof.
  intros Hc.
  unfold process, process_contract, try_except, io_bind, find_contract,
    update_contract_status.
  cbn [fst snd contracts_collection contract_data_collection].
  rewrite !(update_one_none _ _ _ Hc), database_eta, Hc. cbn [raise].
  rewrite !(update_one_none _ _ _ Hc), database_eta. reflexivity.
Qed.

(** When the parser raises on the file of a contract, [process_contract]
    raises the parser's exception and leaves the contract with status
    "failed", the progress 30 and the message of the exception, which
    starts with "Failed to parse contract: "; no extracted data is
    stored. *)
Theorem failed_parse_is_recorded (contract_id : string) (db : database)
    (c : ContractModel.t) (file_content : list Byte.byte) (e : exn) :
  find_one (by_id contract_id) (contracts_collection db) = Some c ->
  read_file (ContractModel.file_path c) = inl file_content ->
  parse_contract set_iteration _extract_text_from_pdf file_content = Raise e ->
  exists db',
    process contract_id db = (inr (parse_failure e file_content), db')
    /\ get_contract_status contract_id db'
       = Some [("contract_id", VStr contract_id);
               ("status", VStr "failed");
               ("progress", VInt 30);
               ("error_message",
                 VStr ("Failed to parse contract: " ++ inner_message file_content));
               ("upload_date", VDate (ContractModel.upload_date c))]
    /\ contract_data_collection db' = contract_data_collection db.
Proof.
  intros Hc Hr Hp.
  rewrite (process_contract_run contract_id db c Hc), Hr, Hp. cbv zeta.
  eexists. split; [reflexivity|]. split; [|reflexivity].
  unfold get_contract_status, status_update.
  rewrite !find_after_update, Hc. reflexivity.
Qed.

(** The error message [get_contract_status] reports after a failure with
    the exception [e]: the message of [e], or what was there before when
    that message is empty. *)
Definition reported (e : exception) (c : ContractModel.t) : value :=
  if Str.truthy (message e) then VStr (message e)
  else match ContractModel.error_message c with
       | Some m => VStr m
       | None => VNone
       end.

(** When reading the file of a contract raises, or storing the extracted
    data raises, [process_contract] raises that exception, stores no data
    and leaves the contract with status "failed"; the progress stays where
    the last step left it (10 when the file was not read, 70 when the data
    were not stored), and the error message is the message of the
    exception, or is left as it was when that message is empty. *)
Theorem failure_keeps_last_progress (contract_id : string) (db : database)
    (c : ContractModel.t) (e : exception) :
  find_one (by_id contract_id) (contracts_collection db) = Some c ->
  (read_file (ContractModel.file_path c) = inr e ->
   exists db',
     process contract_id db = (inr e, db')
     /\ get_contract_status contract_id db'
        = Some [("contract_id", VStr contract_id);
                ("status", VStr "failed");
                ("progress", VInt 10);
                ("error_message", reported e c);
                ("upload_date", VDate (ContractModel.upload_date c))]
     /\ contract_data_collection db' = contract_data_collection db)
  /\ (forall file_content extracted_data,
        read_file (ContractModel.file_path c) = inl file_content ->
        parse_contract set_iteration _extract_text_from_pdf file_content
        = Ok extracted_data ->
        insert_error (stored contract_id extracted_data) = Some e ->
        exists db',
          process contract_id db = (inr e, db')
          /\ get_contract_status contract_id db'
             = Some [("contract_id", VStr contract_id);
                     ("status", VStr "failed");
                     ("progress", VInt 70);
                     ("error_message", reported e c);
                     ("upload_date", VDate (ContractModel.upload_date c))]
          /\ contract_data_collection db' = contract_data_collection db).
Proof.
  intros Hc. split.
  - intros Hr. rewrite (process_contract_run contract_id db c Hc), Hr. cbv zeta.
    eexists. split; [reflexivity|]. split; [|reflexivity].
    unfold get_contract_status, status_update.
    rewrite !find_after_update, Hc. unfold reported.
    destruct (message e) as [|x m]; reflexivity.
  - intros file_content extracted_data Hr Hp Hi.
    rewrite (process_contract_run contract_id db c Hc), Hr, Hp. cbv zeta. rewrite Hi.
    eexists. split; [reflexivity|]. split; [|reflexivity].
    unfold get_contract_status, status_update.
    rewrite !find_after_update, Hc. unfold reported.
    destruct (message e) as [|x m]; reflexivity.
Qed.

(** When the file of a contract is read, parsed and its data stored,
    [process_contract] returns and leaves the contract with status
    "completed" and progress 100; if no data were stored for it before,
    [get_contract_data] then returns the extracted data with the
    confidence score of the parser, which is between 5 and 100. *)
Theorem processed_contract_is_served (contract_id : string) (db : database)
    (c : ContractModel.t) (file_content : list Byte.byte)
    (extracted_data : ExtractedData.t) :
  find_one (by_id contract_id) (contracts_collection db) = Some c ->
  read_file (ContractModel.file_path c) = inl file_content ->
  parse_contract set_iteration _extract_text_from_pdf file_content = Ok extracted_data ->
  insert_error (stored contract_id extracted_data) = None ->
  find_one (by_contract_id contract_id) (contract_data_collection db) = None ->
  exists db',
    process contract_id db = (inl tt, db')
    /\ get_contract_status contract_id db'
       = Some [("contract_id", VStr contract_id);
               ("status", VStr "completed");
               ("progress", VInt 100);
               ("error_message",
                 match ContractModel.error_message c with
                 | Some m => VStr m
                 | None => VNone
                 end);
               ("upload_date", VDate (ContractModel.upload_date c))]
    /\ ContractService.get_contract_data contract_id db'
       = Some [("contract_id", VStr contract_id);
               ("extracted_data", VData extracted_data);
               ("confidence_score",
                 VFloat (Num.float_of_Z (calculate_confidence_score extracted_data)));
               ("processing_date", VDate utcnow);
               ("status", VStr "completed")]
    /\ 5 <= calculate_confidence_score extracted_data <= 100.
Proof.
  intros Hc Hr Hp Hi Hd.
  rewrite (process_contract_run contract_id db c Hc), Hr, Hp. cbv zeta. rewrite Hi.
  eexists. split; [reflexivity|].
  assert (Hfind : find_one (by_id contract_id)
            (contracts_collection
               (status_update contract_id "completed" (Some 100) None
                  {| contracts_collection :=
                       contracts_collection
                         (status_update contract_id "processing" (Some 70) None
                            (status_update contract_id "processing" (Some 30) None
                               (status_update contract_id "processing" (Some 10) None db)));
                     contract_data_collection :=
                       contract_data_collection
                         (status_update contract_id "processing" (Some 70) None
                            (status_update contract_id "processing" (Some 30) None
                               (status_update contract_id "processing" (Some 10) None db)))
                       ++ [stored contract_id extracted_data] |}))
          = Some (updated "completed" (Some 100) None
                    (updated "processing" (Some 70) None
                       (updated "processing" (Some 30) None
                          (updated "processing" (Some 10) None c))))).
  { unfold status_update. rewrite find_after_update. cbn [contracts_collection].
    rewrite !find_after_update, Hc. reflexivity. }
  split; [|split].
  - unfold get_contract_status. rewrite Hfind. reflexivity.
  - unfold ContractService.get_contract_data. rewrite Hfind.
    cbn [updated ContractModel.status String.eqb Ascii.eqb Bool.eqb andb negb].
    unfold status_update. cbn [update_contract_status snd contract_data_collection].
    unfold find_one in *. rewrite find_app_none by exact Hd.
    cbn [List.find].
    change (by_contract_id contract_id (stored contract_id extracted_data))
      with (String.eqb contract_id contract_id).
    rewrite String.eqb_refl. reflexivity.
  - destruct (parse_contract_inv set_iteration _extract_text_from_pdf file_content
                extracted_data Hp) as [text [fd [pay [_ [_ [_ ->]]]]]].
    apply aggregate_score_bounds.
Qed.

End Processing.

(** ** The endpoints *)

(** What the coroutine of the route [/contracts/{contract_id}] does: it
    raises the 404 "Contract not found" for an unknown identifier; the 400
    with the current status for a contract that is not completed; the 404
    "Contract data not found" for a completed contract without stored data;
    and otherwise returns the stored data and score, with the status
    "completed".  For each of the exceptions the handler of the application
    returns the error model with the detail and the status code of the
    exception. *)
Theorem get_contract_data_outcome (contract_id : string) (db : database) :
  Main.get_contract_data contract_id db
  = match find_one (by_id contract_id) (contracts_collection db) with
    | None => inr {| status_code := 404; detail := "Contract not found" |}
    | Some contract =>
        if String.eqb (ContractModel.status contract) "completed" then
          match find_one (by_contract_id contract_id) (contract_data_collection db) with
          | None => inr {| status_code := 404; detail := "Contract data not found" |}
          | Some contract_data =>
              inl {| ContractDataResponse.contract_id := contract_id;
                     ContractDataResponse.extracted_data :=
                       ContractDataModel.extracted_data contract_data;
                     ContractDataResponse.confidence_score :=
                       ContractDataModel.confidence_score contract_data;
                     ContractDataResponse.processing_date :=
                       ContractDataModel.processing_date contract_data;
                     ContractDataResponse.status := "completed" |}
          end
        else
          inr {| status_code := 400;
                 detail := "Contract processing not completed. Current status: "
                           ++ ContractModel.status contract |}
    end
  /\ handled (Main.get_contract_data contract_id db)
     = match find_one (by_id contract_id) (contracts_collection db) with
       | None =>
           inr {| ErrorResponse.error := "Contract not found";
                  ErrorResponse.detail := "Contract not found";
                  ErrorResponse.status_code := 404 |}
       | Some contract =>
           if String.eqb (ContractModel.status contract) "completed" then
             match find_one (by_contract_id contract_id) (contract_data_collection db) with
             | None =>
                 inr {| ErrorResponse.error := "Contract data not found";
                        ErrorResponse.detail := "Contract data not found";
                        ErrorResponse.status_code := 404 |}
             | Some contract_data =>
                 inl {| ContractDataResponse.contract_id := contract_id;
                        ContractDataResponse.extracted_data :=
                          ContractDataModel.extracted_data contract_data;
                        ContractDataResponse.confidence_score :=
                          ContractDataModel.confidence_score contract_data;
                        ContractDataResponse.processing_date :=
                          ContractDataModel.processing_date contract_data;
                        ContractDataResponse.status := "completed" |}
             end
           else
             inr {| ErrorResponse.error :=
                      "Contract processing not completed. Current status: "
                      ++ ContractModel.status contract;
                    ErrorResponse.detail :=
                      "Contract processing not completed. Current status: "
                      ++ ContractModel.status contract;
                    ErrorResponse.status_code := 400 |}
       end.
Proof.
  assert (E0 : Main.get_contract_data contract_id db
               = match find_one (by_id contract_id) (contracts_collection db) with
                 | None => inr {| status_code := 404; detail := "Contract not found" |}
                 | Some contract =>
                     if String.eqb (ContractModel.status contract) "completed" then
                       match find_one (by_contract_id contract_id)
                               (contract_data_collection db) with
                       | None =>
                           inr {| status_code := 404;
                                  detail := "Contract data not found" |}
                       | Some contract_data =>
                           inl {| ContractDataResponse.contract_id := contract_id;
                                  ContractDataResponse.extracted_data :=
                                    ContractDataModel.extracted_data contract_data;
                                  ContractDataResponse.confidence_score :=
                                    ContractDataModel.confidence_score contract_data;
                                  ContractDataResponse.processing_date :=
                                    ContractDataModel.processing_date contract_data;
                                  ContractDataResponse.status := "completed" |}
                       end
                     else
                       inr {| status_code := 400;
                              detail :=
                                "Contract processing not completed. Current status: "
                                ++ ContractModel.status contract |}
                 end).
  { unfold Main.get_contract_data, ContractService.get_contract_data, get_contract_status.
    destruct (find_one (by_id contract_id) (contracts_collection db)) as [c|];
      [|reflexivity].
    destruct (String.eqb (ContractModel.status c) "completed") eqn:E; cbn [negb].
    - apply String.eqb_eq in E.
      destruct (find_one (by_contract_id contract_id) (contract_data_collection db))
        as [cd|].
      + rewrite E. reflexivity.
      + cbn [Dict.get String.eqb Ascii.eqb Bool.eqb andb]. rewrite E. reflexivity.
    - cbn [Dict.get String.eqb Ascii.eqb Bool.eqb andb]. rewrite E. reflexivity. }
  split; [exact E0|]. rewrite E0.
  destruct (find_one (by_id contract_id) (contracts_collection db)) as [c|];
    [|reflexivity].
  destruct (String.eqb (ContractModel.status c) "completed"); [|reflexivity].
  destruct (find_one (by_contract_id contract_id) (contract_data_collection db));
    reflexivity.
Qed.

Section Download.

Variable exists_ : string -> bool.


End Download.

(** ** Pages *)

Lemma page_length {A : Type} (l : list A) (skip limit : Z) :
  0 <= skip -> 0 <= limit ->
  Z.of_nat (List.length (firstn (Z.to_nat limit) (skipn (Z.to_nat skip) l)))
  = Z.min limit (Z.max 0 (Z.of_nat (List.length l) - skip)).
Proof.
  intros Hs Hl. rewrite length_firstn, length_skipn. lia.
Qed.

Lemma ceiling (total page_size : Z) :
  0 <= total -> 1 <= page_size ->
  ((total + page_size - 1) / page_size - 1) * page_size < total
  /\ total <= (total + page_size - 1) / page_size * page_size.
Proof.
  intros Ht Hp.
  pose proof (Z.div_mod (total + page_size - 1) page_size ltac:(lia)) as E.
  pose proof (Z.mod_pos_bound (total + page_size - 1) page_size ltac:(lia)) as B.
  nia.
Qed.

(** A page of [k] entries, the page [page] of [n] entries in all. *)
Lemma page_facts (k n page page_size : Z) :
  1 <= page -> 1 <= page_size -> 0 <= n ->
  k = Z.min page_size (Z.max 0 (n - (page - 1) * page_size)) ->
  let tp := (n + page_size - 1) / page_size in
  (tp - 1) * page_size < n <= tp * page_size
  /\ (0 < k <-> page <= tp)
  /\ (page < tp -> k = page_size).
Proof.
  intros Hpage Hsize Hn Hk tp.
  destruct (ceiling n page_size Hn Hsize) as [C1 C2]. fold tp in C1, C2.
  split; [split; assumption|].
  assert (Hp : (page - 1) * page_size < n <-> page <= tp).
  { split; intros H.
    - destruct (Z_le_gt_dec page tp) as [Hle|Hgt]; [exact Hle|].
      assert (tp * page_size <= (page - 1) * page_size) by nia. lia.
    - assert ((page - 1) * page_size <= (tp - 1) * page_size) by nia. lia. }
  split.
  - rewrite <- Hp. lia.
  - intros Hlt. assert (page * page_size <= (tp - 1) * page_size) by nia. lia.
Qed.

Section Listing.

Variable to_list : list ContractModel.t -> Z -> Z -> result (list ContractModel.t).

(** The order in which the server sorts the documents by upload date, the
    latest first. *)
Variable ordered : list ContractModel.t -> list ContractModel.t.

Hypothesis ordered_length : forall docs, List.length (ordered docs) = List.length docs.

(** For a skip that is not negative and a limit of at least one, the cursor
    gives the documents of the page. *)
Hypothesis to_list_page :
  forall docs skip limit,
    0 <= skip -> 1 <= limit ->
    to_list docs skip limit
    = Ok (firstn (Z.to_nat limit) (skipn (Z.to_nat skip) (ordered docs))).

(** For a page number and a page size of at least one, as the endpoint
    requires them, [get_contracts_list] returns; total_pages is the least
    number of pages that holds all the contracts of the query; the page
    holds the contracts left after the pages before it, up to the page
    size, so it holds contracts exactly when its number is at most
    total_pages, and every page before the last is full. *)
Theorem pages_agree_with_total_pages (page page_size : Z) (status_filter : option string)
    (db : database) :
  1 <= page -> 1 <= page_size ->
  exists r,
    get_contracts_list to_list page page_size status_filter db = Ok r
    /\ ContractListResponse.page r = page
    /\ ContractListResponse.page_size r = page_size
    /\ 0 <= ContractListResponse.total r
    /\ (ContractListResponse.total_pages r - 1) * page_size < ContractListResponse.total r
    /\ ContractListResponse.total r <= ContractListResponse.total_pages r * page_size
    /\ Z.of_nat (List.length (ContractListResponse.contracts r))
       = Z.min page_size
           (Z.max 0 (ContractListResponse.total r - (page - 1) * page_size))
    /\ (ContractListResponse.contracts r <> []
        <-> page <= ContractListResponse.total_pages r)
    /\ (page < ContractListResponse.total_pages r ->
        Z.of_nat (List.length (ContractListResponse.contracts r)) = page_size).
Proof.
  intros Hpage Hsize. unfold get_contracts_list. cbv zeta.
  rewrite to_list_page by nia. cbn [bind].
  destruct (page_size =? 0) eqn:E0; [apply Z.eqb_eq in E0; lia|].
  eexists. split; [reflexivity|].
  cbn [ContractListResponse.page ContractListResponse.page_size ContractListResponse.total
         ContractListResponse.total_pages ContractListResponse.contracts].
  match goal with
  | |- _ /\ _ /\ 0 <= ?n /\ _ /\ _ /\ Z.of_nat (List.length ?items) = _ /\ _ =>
      assert (Hn : 0 <= n) by lia;
      assert (L : Z.of_nat (List.length items)
                  = Z.min page_size (Z.max 0 (n - (page - 1) * page_size)))
        by (rewrite length_map, page_length by nia; rewrite ordered_length; reflexivity);
      destruct (page_facts (Z.of_nat (List.length items)) n page page_size
                  Hpage Hsize Hn L) as [F1 [F2 F3]];
      revert L F2 F3; generalize items
  end.
  intros items L F2 F3.
  split; [reflexivity|]. split; [reflexivity|]. split; [exact Hn|].
  split; [exact (proj1 F1)|]. split; [exact (proj2 F1)|].
  split; [exact L|]. split; [|exact F3].
  rewrite <- F2. clear.
  destruct items as [|x l]; cbn [List.length]; split; intros H; try lia;
    try discriminate.
  contradiction H; reflexivity.
Qed.

End Listing.

(** ** The theorems on a small store *)

(** A contract that awaits processing, and a store that holds only it. *)
Definition pending : ContractModel.t :=
  {| ContractModel._id := "c1";
     ContractModel.filename := "msa.pdf";
     ContractModel.file_path := "uploads/c1_msa.pdf";
     ContractModel.status := "pending";
     ContractModel.progress := 0;
     ContractModel.upload_date := 0;
     ContractModel.error_message := None;
     ContractModel.file_size := 1024;
     ContractModel.content_hash := "ab" |}.

Definition one_contract : database :=
  {| contracts_collection := [pending]; contract_data_collection := [] |}.

(** A file system in which every file is read, a store that takes every
    document, and a message for the parser's exceptions. *)
Definition every_file (_ : string) : list Byte.byte + exception := inl [].
Definition every_document (_ : ContractDataModel.t) : option exception := None.
Definition no_field (_ : list Byte.byte) : string := "no field discount_terms".

Lemma unknown_contract_changes_nothing_witness :
  process some_order (reads two_parties) no_field every_file 0 "d1" every_document
    "c9" one_contract
  = (inr {| type_name := "ValueError"; message := "Contract c9 not found" |},
     one_contract).
Proof.
  apply (unknown_contract_changes_nothing some_order (reads two_parties) no_field
           every_file 0 "d1" every_document "c9" one_contract).
  reflexivity.
Defined.

Lemma failed_parse_is_recorded_witness :
  exists db',
    process some_order (reads early_discount) no_field every_file 0 "d1" every_document
      "c1" one_contract
    = (inr (parse_failure no_field ValueError []), db')
    /\ get_contract_status "c1" db'
       = Some [("contract_id", VStr "c1");
               ("status", VStr "failed");
               ("progress", VInt 30);
               ("error_message", VStr "Failed to parse contract: no field discount_terms");
               ("upload_date", VDate 0)]
    /\ contract_data_collection db' = [].
Proof.
  apply (failed_parse_is_recorded some_order (reads early_discount) no_field every_file
           0 "d1" every_document "c1" one_contract pending [] ValueError).
  - reflexivity.
  - reflexivity.
  - vm_compute. reflexivity.
Defined.

Lemma processed_contract_is_served_witness :
  exists extracted_data db',
    parse_contract some_order (reads two_parties) [] = Ok extracted_data
    /\ process some_order (reads two_parties) no_field every_file 0 "d1" every_document
         "c1" one_contract
       = (inl tt, db')
    /\ ContractService.get_contract_data "c1" db'
       = Some [("contract_id", VStr "c1");
               ("extracted_data", VData extracted_data);
               ("confidence_score",
                 VFloat (Num.float_of_Z (calculate_confidence_score extracted_data)));
               ("processing_date", VDate 0);
               ("status", VStr "completed")].
Proof.
  destruct (parse_contract some_order (reads two_parties) []) as [d|e] eqn:E;
    [|vm_compute in E; discriminate E].
  destruct (processed_contract_is_served some_order (reads two_parties) no_field
              every_file 0 "d1" every_document "c1" one_contract pending [] d
              eq_refl eq_refl E eq_refl eq_refl) as [db' [H1 [_ [H2 _]]]].
  exists d, db'. split; [reflexivity|]. split; [exact H1|exact H2].
Defined.

(** A file system in which no file is found. *)
Definition not_found : exception :=
  {| type_name := "FileNotFoundError";
     message := "[Errno 2] No such file or directory" |}.
Definition no_file (_ : string) : list Byte.byte + exception := inr not_found.

Lemma failure_keeps_last_progress_witness :
  exists db',
    process some_order (reads two_parties) no_field no_file 0 "d1" every_document
      "c1" one_contract
    = (inr not_found, db')
    /\ get_contract_status "c1" db'
       = Some [("contract_id", VStr "c1");
               ("status", VStr "failed");
               ("progress", VInt 10);
               ("error_message", VStr "[Errno 2] No such file or directory");
               ("upload_date", VDate 0)]
    /\ contract_data_collection db' = [].
Proof.
  apply (proj1 (failure_keeps_last_progress some_order (reads two_parties) no_field
                  no_file 0 "d1" every_document "c1" one_contract pending not_found
                  eq_refl)).
  reflexivity.
Defined.



(** Three contracts, and a cursor that keeps the order of the collection. *)
Definition three_contracts : database :=
  {| contracts_collection := [pending; pending; pending];
     contract_data_collection := [] |}.

Definition as_stored (docs : list ContractModel.t) : list ContractModel.t := docs.

Definition plain_cursor (docs : list ContractModel.t) (skip limit : Z)
  : result (list ContractModel.t) :=
  Ok (firstn (Z.to_nat limit) (skipn (Z.to_nat skip) (as_stored docs))).

Lemma pages_agree_with_total_pages_witness :
  exists r,
    get_contracts_list plain_cursor 2 2 None three_contracts = Ok r
    /\ ContractListResponse.total r = 3
    /\ ContractListResponse.total_pages r = 2
    /\ List.length (ContractListResponse.contracts r) = 1%nat
    /\ (ContractListResponse.contracts r <> [] <-> 2 <= ContractListResponse.total_pages r).
Proof.
  destruct (pages_agree_with_total_pages plain_cursor as_stored
              (fun docs => eq_refl) (fun docs skip limit _ _ => eq_refl)
              2 2 None three_contracts ltac:(lia) ltac:(lia))
    as [r [E [_ [_ [_ [_ [_ [_ [H _]]]]]]]]].
  exists r. split; [exact E|].
  vm_compute in E. injection E as <-.
  split; [reflexivity|]. split; [reflexivity|]. split; [reflexivity|exact H].
Defined.

End ServiceFacts.
